(** * Raycast MCP server: tool router and automation executor

    A shallow embedding of [dist/handlers.js], [dist/tools.js], [src/auth.ts]
    and the request routing of [src/index.ts], and the properties of the
    specification checked against it.

    Conventions of the embedding.
    - A JavaScript string is represented by the bytes of its generalised
      UTF-8 encoding ([string]): a code point by its UTF-8 bytes, and a
      surrogate that has no partner by the three bytes of its own, so that
      every string of the language has one representation.  Appending two
      representations gives the representation of the concatenation wherever
      the first does not end in a lone high surrogate that the second goes on
      with a lone low one; the handlers put a literal text between any two
      texts that come from a request.
    - Case mapping is that of Unicode 14.0, the [Final_Sigma] condition
      included.  [trim] removes the ECMAScript white space and line
      terminators.
    - A JSON argument value is undefined (absent), null, a boolean, a number,
      a string or an array of such values; a number is given by its decimal
      text and stands for the double nearest to it.  Objects as argument
      values are not part of the model.
    - An object literal used as a table is a [gmap]; a read with a key that
      is no own property falls back on [Object.prototype], as it does in
      JavaScript ([js_get]).
    - External invocations ([child_process.exec]) are events of a program
      tree ([Prog]); the operating environment is an oracle that answers
      each invocation, given the invocations made before it. *)

From Stdlib Require Import ZArith NArith Ascii String List Bool Lia.
From stdpp Require Import base option strings list gmap.

Open Scope string_scope.

(** ** Strings *)

Module JsString.

Definition DQ : string := String "034"%char EmptyString.
Definition NL : string := String "010"%char EmptyString.
Definition BSL : string := String "092"%char EmptyString.

Definition is_upper (c : ascii) : bool :=
  let n := nat_of_ascii c in (65 <=? n)%nat && (n <=? 90)%nat.

Definition is_lower (c : ascii) : bool :=
  let n := nat_of_ascii c in (97 <=? n)%nat && (n <=? 122)%nat.

Definition is_digit (c : ascii) : bool :=
  let n := nat_of_ascii c in (48 <=? n)%nat && (n <=? 57)%nat.

(** Simple lower-case mappings of UnicodeData.txt (Unicode 14.0): an entry
    [(lo, hi, step, to)] maps each [lo + k * step] up to [hi] to
    [to + k * step]. *)
Definition lower_table : list (N * N * N * N) :=
  [(65, 90, 1, 97); (192, 214, 1, 224); (216, 222, 1, 248);
   (256, 302, 2, 257); (306, 310, 2, 307); (313, 327, 2, 314);
   (330, 374, 2, 331); (376, 376, 1, 255); (377, 381, 2, 378);
   (385, 385, 1, 595); (386, 388, 2, 387); (390, 390, 1, 596);
   (391, 391, 1, 392); (393, 394, 1, 598); (395, 395, 1, 396);
   (398, 398, 1, 477); (399, 399, 1, 601); (400, 400, 1, 603);
   (401, 401, 1, 402); (403, 403, 1, 608); (404, 404, 1, 611);
   (406, 406, 1, 617); (407, 407, 1, 616); (408, 408, 1, 409);
   (412, 412, 1, 623); (413, 413, 1, 626); (415, 415, 1, 629);
   (416, 420, 2, 417); (422, 422, 1, 640); (423, 423, 1, 424);
   (425, 425, 1, 643); (428, 428, 1, 429); (430, 430, 1, 648);
   (431, 431, 1, 432); (433, 434, 1, 650); (435, 437, 2, 436);
   (439, 439, 1, 658); (440, 440, 1, 441); (444, 444, 1, 445);
   (452, 452, 1, 454); (453, 453, 1, 454); (455, 455, 1, 457);
   (456, 456, 1, 457); (458, 458, 1, 460); (459, 475, 2, 460);
   (478, 494, 2, 479); (497, 497, 1, 499); (498, 500, 2, 499);
   (502, 502, 1, 405); (503, 503, 1, 447); (504, 542, 2, 505);
   (544, 544, 1, 414); (546, 562, 2, 547); (570, 570, 1, 11365);
   (571, 571, 1, 572); (573, 573, 1, 410); (574, 574, 1, 11366);
   (577, 577, 1, 578); (579, 579, 1, 384); (580, 580, 1, 649);
   (581, 581, 1, 652); (582, 590, 2, 583); (880, 882, 2, 881);
   (886, 886, 1, 887); (895, 895, 1, 1011); (902, 902, 1, 940);
   (904, 906, 1, 941); (908, 908, 1, 972); (910, 911, 1, 973);
   (913, 929, 1, 945); (931, 939, 1, 963); (975, 975, 1, 983);
   (984, 1006, 2, 985); (1012, 1012, 1, 952); (1015, 1015, 1, 1016);
   (1017, 1017, 1, 1010); (1018, 1018, 1, 1019); (1021, 1023, 1, 891);
   (1024, 1039, 1, 1104); (1040, 1071, 1, 1072); (1120, 1152, 2, 1121);
   (1162, 1214, 2, 1163); (1216, 1216, 1, 1231); (1217, 1229, 2, 1218);
   (1232, 1326, 2, 1233); (1329, 1366, 1, 1377); (4256, 4293, 1, 11520);
   (4295, 4295, 1, 11559); (4301, 4301, 1, 11565); (5024, 5103, 1, 43888);
   (5104, 5109, 1, 5112); (7312, 7354, 1, 4304); (7357, 7359, 1, 4349);
   (7680, 7828, 2, 7681); (7838, 7838, 1, 223); (7840, 7934, 2, 7841);
   (7944, 7951, 1, 7936); (7960, 7965, 1, 7952); (7976, 7983, 1, 7968);
   (7992, 7999, 1, 7984); (8008, 8013, 1, 8000); (8025, 8031, 2, 8017);
   (8040, 8047, 1, 8032); (8072, 8079, 1, 8064); (8088, 8095, 1, 8080);
   (8104, 8111, 1, 8096); (8120, 8121, 1, 8112); (8122, 8123, 1, 8048);
   (8124, 8124, 1, 8115); (8136, 8139, 1, 8050); (8140, 8140, 1, 8131);
   (8152, 8153, 1, 8144); (8154, 8155, 1, 8054); (8168, 8169, 1, 8160);
   (8170, 8171, 1, 8058); (8172, 8172, 1, 8165); (8184, 8185, 1, 8056);
   (8186, 8187, 1, 8060); (8188, 8188, 1, 8179); (8486, 8486, 1, 969);
   (8490, 8490, 1, 107); (8491, 8491, 1, 229); (8498, 8498, 1, 8526);
   (8544, 8559, 1, 8560); (8579, 8579, 1, 8580); (9398, 9423, 1, 9424);
   (11264, 11311, 1, 11312); (11360, 11360, 1, 11361);
   (11362, 11362, 1, 619); (11363, 11363, 1, 7549); (11364, 11364, 1, 637);
   (11367, 11371, 2, 11368); (11373, 11373, 1, 593); (11374, 11374, 1, 625);
   (11375, 11375, 1, 592); (11376, 11376, 1, 594); (11378, 11378, 1, 11379);
   (11381, 11381, 1, 11382); (11390, 11391, 1, 575);
   (11392, 11490, 2, 11393); (11499, 11501, 2, 11500);
   (11506, 11506, 1, 11507); (42560, 42604, 2, 42561);
   (42624, 42650, 2, 42625); (42786, 42798, 2, 42787);
   (42802, 42862, 2, 42803); (42873, 42875, 2, 42874);
   (42877, 42877, 1, 7545); (42878, 42886, 2, 42879);
   (42891, 42891, 1, 42892); (42893, 42893, 1, 613);
   (42896, 42898, 2, 42897); (42902, 42920, 2, 42903);
   (42922, 42922, 1, 614); (42923, 42923, 1, 604); (42924, 42924, 1, 609);
   (42925, 42925, 1, 620); (42926, 42926, 1, 618); (42928, 42928, 1, 670);
   (42929, 42929, 1, 647); (42930, 42930, 1, 669); (42931, 42931, 1, 43859);
   (42932, 42946, 2, 42933); (42948, 42948, 1, 42900);
   (42949, 42949, 1, 642); (42950, 42950, 1, 7566); (42951, 42953, 2, 42952);
   (42960, 42960, 1, 42961); (42966, 42968, 2, 42967);
   (42997, 42997, 1, 42998); (65313, 65338, 1, 65345);
   (66560, 66599, 1, 66600); (66736, 66771, 1, 66776);
   (66928, 66938, 1, 66967); (66940, 66954, 1, 66979);
   (66956, 66962, 1, 66995); (66964, 66965, 1, 67003);
   (68736, 68786, 1, 68800); (71840, 71871, 1, 71872);
   (93760, 93791, 1, 93792); (125184, 125217, 1, 125218)]%N.

(** Simple upper-case mappings. *)
Definition upper_table : list (N * N * N * N) :=
  [(97, 122, 1, 65); (181, 181, 1, 924); (224, 246, 1, 192);
   (248, 254, 1, 216); (255, 255, 1, 376); (257, 303, 2, 256);
   (305, 305, 1, 73); (307, 311, 2, 306); (314, 328, 2, 313);
   (331, 375, 2, 330); (378, 382, 2, 377); (383, 383, 1, 83);
   (384, 384, 1, 579); (387, 389, 2, 386); (392, 392, 1, 391);
   (396, 396, 1, 395); (402, 402, 1, 401); (405, 405, 1, 502);
   (409, 409, 1, 408); (410, 410, 1, 573); (414, 414, 1, 544);
   (417, 421, 2, 416); (424, 424, 1, 423); (429, 429, 1, 428);
   (432, 432, 1, 431); (436, 438, 2, 435); (441, 441, 1, 440);
   (445, 445, 1, 444); (447, 447, 1, 503); (453, 453, 1, 452);
   (454, 454, 1, 452); (456, 456, 1, 455); (457, 457, 1, 455);
   (459, 459, 1, 458); (460, 460, 1, 458); (462, 476, 2, 461);
   (477, 477, 1, 398); (479, 495, 2, 478); (498, 498, 1, 497);
   (499, 499, 1, 497); (501, 501, 1, 500); (505, 543, 2, 504);
   (547, 563, 2, 546); (572, 572, 1, 571); (575, 576, 1, 11390);
   (578, 578, 1, 577); (583, 591, 2, 582); (592, 592, 1, 11375);
   (593, 593, 1, 11373); (594, 594, 1, 11376); (595, 595, 1, 385);
   (596, 596, 1, 390); (598, 599, 1, 393); (601, 601, 1, 399);
   (603, 603, 1, 400); (604, 604, 1, 42923); (608, 608, 1, 403);
   (609, 609, 1, 42924); (611, 611, 1, 404); (613, 613, 1, 42893);
   (614, 614, 1, 42922); (616, 616, 1, 407); (617, 617, 1, 406);
   (618, 618, 1, 42926); (619, 619, 1, 11362); (620, 620, 1, 42925);
   (623, 623, 1, 412); (625, 625, 1, 11374); (626, 626, 1, 413);
   (629, 629, 1, 415); (637, 637, 1, 11364); (640, 640, 1, 422);
   (642, 642, 1, 42949); (643, 643, 1, 425); (647, 647, 1, 42929);
   (648, 648, 1, 430); (649, 649, 1, 580); (650, 651, 1, 433);
   (652, 652, 1, 581); (658, 658, 1, 439); (669, 669, 1, 42930);
   (670, 670, 1, 42928); (837, 837, 1, 921); (881, 883, 2, 880);
   (887, 887, 1, 886); (891, 893, 1, 1021); (940, 940, 1, 902);
   (941, 943, 1, 904); (945, 961, 1, 913); (962, 962, 1, 931);
   (963, 971, 1, 931); (972, 972, 1, 908); (973, 974, 1, 910);
   (976, 976, 1, 914); (977, 977, 1, 920); (981, 981, 1, 934);
   (982, 982, 1, 928); (983, 983, 1, 975); (985, 1007, 2, 984);
   (1008, 1008, 1, 922); (1009, 1009, 1, 929); (1010, 1010, 1, 1017);
   (1011, 1011, 1, 895); (1013, 1013, 1, 917); (1016, 1016, 1, 1015);
   (1019, 1019, 1, 1018); (1072, 1103, 1, 1040); (1104, 1119, 1, 1024);
   (1121, 1153, 2, 1120); (1163, 1215, 2, 1162); (1218, 1230, 2, 1217);
   (1231, 1231, 1, 1216); (1233, 1327, 2, 1232); (1377, 1414, 1, 1329);
   (4304, 4346, 1, 7312); (4349, 4351, 1, 7357); (5112, 5117, 1, 5104);
   (7296, 7296, 1, 1042); (7297, 7297, 1, 1044); (7298, 7298, 1, 1054);
   (7299, 7300, 1, 1057); (7301, 7301, 1, 1058); (7302, 7302, 1, 1066);
   (7303, 7303, 1, 1122); (7304, 7304, 1, 42570); (7545, 7545, 1, 42877);
   (7549, 7549, 1, 11363); (7566, 7566, 1, 42950); (7681, 7829, 2, 7680);
   (7835, 7835, 1, 7776); (7841, 7935, 2, 7840); (7936, 7943, 1, 7944);
   (7952, 7957, 1, 7960); (7968, 7975, 1, 7976); (7984, 7991, 1, 7992);
   (8000, 8005, 1, 8008); (8017, 8023, 2, 8025); (8032, 8039, 1, 8040);
   (8048, 8049, 1, 8122); (8050, 8053, 1, 8136); (8054, 8055, 1, 8154);
   (8056, 8057, 1, 8184); (8058, 8059, 1, 8170); (8060, 8061, 1, 8186);
   (8112, 8113, 1, 8120); (8126, 8126, 1, 921); (8144, 8145, 1, 8152);
   (8160, 8161, 1, 8168); (8165, 8165, 1, 8172); (8526, 8526, 1, 8498);
   (8560, 8575, 1, 8544); (8580, 8580, 1, 8579); (9424, 9449, 1, 9398);
   (11312, 11359, 1, 11264); (11361, 11361, 1, 11360);
   (11365, 11365, 1, 570); (11366, 11366, 1, 574); (11368, 11372, 2, 11367);
   (11379, 11379, 1, 11378); (11382, 11382, 1, 11381);
   (11393, 11491, 2, 11392); (11500, 11502, 2, 11499);
   (11507, 11507, 1, 11506); (11520, 11557, 1, 4256);
   (11559, 11559, 1, 4295); (11565, 11565, 1, 4301);
   (42561, 42605, 2, 42560); (42625, 42651, 2, 42624);
   (42787, 42799, 2, 42786); (42803, 42863, 2, 42802);
   (42874, 42876, 2, 42873); (42879, 42887, 2, 42878);
   (42892, 42892, 1, 42891); (42897, 42899, 2, 42896);
   (42900, 42900, 1, 42948); (42903, 42921, 2, 42902);
   (42933, 42947, 2, 42932); (42952, 42954, 2, 42951);
   (42961, 42961, 1, 42960); (42967, 42969, 2, 42966);
   (42998, 42998, 1, 42997); (43859, 43859, 1, 42931);
   (43888, 43967, 1, 5024); (65345, 65370, 1, 65313);
   (66600, 66639, 1, 66560); (66776, 66811, 1, 66736);
   (66967, 66977, 1, 66928); (66979, 66993, 1, 66940);
   (66995, 67001, 1, 66956); (67003, 67004, 1, 66964);
   (68800, 68850, 1, 68736); (71872, 71903, 1, 71840);
   (93792, 93823, 1, 93760); (125218, 125251, 1, 125184)]%N.

(** Upper-case mappings of SpecialCasing.txt that hold in every language
    and context: one code point becomes several. *)
Definition upper_special : list (N * list N) :=
  [(223, [83; 83]); (329, [700; 78]); (496, [74; 780]);
   (912, [921; 776; 769]); (944, [933; 776; 769]); (1415, [1333; 1362]);
   (7830, [72; 817]); (7831, [84; 776]); (7832, [87; 778]);
   (7833, [89; 778]); (7834, [65; 702]); (8016, [933; 787]);
   (8018, [933; 787; 768]); (8020, [933; 787; 769]); (8022, [933; 787; 834]);
   (8064, [7944; 921]); (8065, [7945; 921]); (8066, [7946; 921]);
   (8067, [7947; 921]); (8068, [7948; 921]); (8069, [7949; 921]);
   (8070, [7950; 921]); (8071, [7951; 921]); (8072, [7944; 921]);
   (8073, [7945; 921]); (8074, [7946; 921]); (8075, [7947; 921]);
   (8076, [7948; 921]); (8077, [7949; 921]); (8078, [7950; 921]);
   (8079, [7951; 921]); (8080, [7976; 921]); (8081, [7977; 921]);
   (8082, [7978; 921]); (8083, [7979; 921]); (8084, [7980; 921]);
   (8085, [7981; 921]); (8086, [7982; 921]); (8087, [7983; 921]);
   (8088, [7976; 921]); (8089, [7977; 921]); (8090, [7978; 921]);
   (8091, [7979; 921]); (8092, [7980; 921]); (8093, [7981; 921]);
   (8094, [7982; 921]); (8095, [7983; 921]); (8096, [8040; 921]);
   (8097, [8041; 921]); (8098, [8042; 921]); (8099, [8043; 921]);
   (8100, [8044; 921]); (8101, [8045; 921]); (8102, [8046; 921]);
   (8103, [8047; 921]); (8104, [8040; 921]); (8105, [8041; 921]);
   (8106, [8042; 921]); (8107, [8043; 921]); (8108, [8044; 921]);
   (8109, [8045; 921]); (8110, [8046; 921]); (8111, [8047; 921]);
   (8114, [8122; 921]); (8115, [913; 921]); (8116, [902; 921]);
   (8118, [913; 834]); (8119, [913; 834; 921]); (8124, [913; 921]);
   (8130, [8138; 921]); (8131, [919; 921]); (8132, [905; 921]);
   (8134, [919; 834]); (8135, [919; 834; 921]); (8140, [919; 921]);
   (8146, [921; 776; 768]); (8147, [921; 776; 769]); (8150, [921; 834]);
   (8151, [921; 776; 834]); (8162, [933; 776; 768]); (8163, [933; 776; 769]);
   (8164, [929; 787]); (8166, [933; 834]); (8167, [933; 776; 834]);
   (8178, [8186; 921]); (8179, [937; 921]); (8180, [911; 921]);
   (8182, [937; 834]); (8183, [937; 834; 921]); (8188, [937; 921]);
   (64256, [70; 70]); (64257, [70; 73]); (64258, [70; 76]);
   (64259, [70; 70; 73]); (64260, [70; 70; 76]); (64261, [83; 84]);
   (64262, [83; 84]); (64275, [1348; 1350]); (64276, [1348; 1333]);
   (64277, [1348; 1339]); (64278, [1358; 1350]); (64279, [1348; 1341])]%N.

(** The cased letters that are not case-ignorable, as ranges. *)
Definition cased_ranges : list (N * N) :=
  [(65, 90); (97, 122); (170, 170); (181, 181); (186, 186); (192, 214);
   (216, 246); (248, 442); (444, 447); (452, 659); (661, 687); (880, 883);
   (886, 887); (891, 893); (895, 895); (902, 902); (904, 906); (908, 908);
   (910, 929); (931, 1013); (1015, 1153); (1162, 1327); (1329, 1366);
   (1376, 1416); (4256, 4293); (4295, 4295); (4301, 4301); (4304, 4346);
   (4349, 4351); (5024, 5109); (5112, 5117); (7296, 7304); (7312, 7354);
   (7357, 7359); (7424, 7467); (7531, 7543); (7545, 7578); (7680, 7957);
   (7960, 7965); (7968, 8005); (8008, 8013); (8016, 8023); (8025, 8025);
   (8027, 8027); (8029, 8029); (8031, 8061); (8064, 8116); (8118, 8124);
   (8126, 8126); (8130, 8132); (8134, 8140); (8144, 8147); (8150, 8155);
   (8160, 8172); (8178, 8180); (8182, 8188); (8450, 8450); (8455, 8455);
   (8458, 8467); (8469, 8469); (8473, 8477); (8484, 8484); (8486, 8486);
   (8488, 8488); (8490, 8493); (8495, 8500); (8505, 8505); (8508, 8511);
   (8517, 8521); (8526, 8526); (8544, 8575); (8579, 8580); (9398, 9449);
   (11264, 11387); (11390, 11492); (11499, 11502); (11506, 11507);
   (11520, 11557); (11559, 11559); (11565, 11565); (42560, 42605);
   (42624, 42651); (42786, 42863); (42865, 42887); (42891, 42894);
   (42896, 42954); (42960, 42961); (42963, 42963); (42965, 42969);
   (42997, 42998); (43002, 43002); (43824, 43866); (43872, 43880);
   (43888, 43967); (64256, 64262); (64275, 64279); (65313, 65338);
   (65345, 65370); (66560, 66639); (66736, 66771); (66776, 66811);
   (66928, 66938); (66940, 66954); (66956, 66962); (66964, 66965);
   (66967, 66977); (66979, 66993); (66995, 67001); (67003, 67004);
   (68736, 68786); (68800, 68850); (71840, 71903); (93760, 93823);
   (119808, 119892); (119894, 119964); (119966, 119967); (119970, 119970);
   (119973, 119974); (119977, 119980); (119982, 119993); (119995, 119995);
   (119997, 120003); (120005, 120069); (120071, 120074); (120077, 120084);
   (120086, 120092); (120094, 120121); (120123, 120126); (120128, 120132);
   (120134, 120134); (120138, 120144); (120146, 120485); (120488, 120512);
   (120514, 120538); (120540, 120570); (120572, 120596); (120598, 120628);
   (120630, 120654); (120656, 120686); (120688, 120712); (120714, 120744);
   (120746, 120770); (120772, 120779); (122624, 122633); (122635, 122654);
   (125184, 125251); (127280, 127305); (127312, 127337); (127344, 127369)]%N.

(** The case-ignorable code points, as ranges. *)
Definition ignorable_ranges : list (N * N) :=
  [(39, 39); (46, 46); (58, 58); (94, 94); (96, 96); (168, 168); (173, 173);
   (175, 175); (180, 180); (183, 184); (688, 879); (884, 885); (890, 890);
   (900, 901); (903, 903); (1155, 1161); (1369, 1369); (1375, 1375);
   (1425, 1469); (1471, 1471); (1473, 1474); (1476, 1477); (1479, 1479);
   (1524, 1524); (1536, 1541); (1552, 1562); (1564, 1564); (1600, 1600);
   (1611, 1631); (1648, 1648); (1750, 1757); (1759, 1768); (1770, 1773);
   (1807, 1807); (1809, 1809); (1840, 1866); (1958, 1968); (2027, 2037);
   (2042, 2042); (2045, 2045); (2070, 2093); (2137, 2139); (2184, 2184);
   (2192, 2193); (2200, 2207); (2249, 2306); (2362, 2362); (2364, 2364);
   (2369, 2376); (2381, 2381); (2385, 2391); (2402, 2403); (2417, 2417);
   (2433, 2433); (2492, 2492); (2497, 2500); (2509, 2509); (2530, 2531);
   (2558, 2558); (2561, 2562); (2620, 2620); (2625, 2626); (2631, 2632);
   (2635, 2637); (2641, 2641); (2672, 2673); (2677, 2677); (2689, 2690);
   (2748, 2748); (2753, 2757); (2759, 2760); (2765, 2765); (2786, 2787);
   (2810, 2815); (2817, 2817); (2876, 2876); (2879, 2879); (2881, 2884);
   (2893, 2893); (2901, 2902); (2914, 2915); (2946, 2946); (3008, 3008);
   (3021, 3021); (3072, 3072); (3076, 3076); (3132, 3132); (3134, 3136);
   (3142, 3144); (3146, 3149); (3157, 3158); (3170, 3171); (3201, 3201);
   (3260, 3260); (3263, 3263); (3270, 3270); (3276, 3277); (3298, 3299);
   (3328, 3329); (3387, 3388); (3393, 3396); (3405, 3405); (3426, 3427);
   (3457, 3457); (3530, 3530); (3538, 3540); (3542, 3542); (3633, 3633);
   (3636, 3642); (3654, 3662); (3761, 3761); (3764, 3772); (3782, 3782);
   (3784, 3789); (3864, 3865); (3893, 3893); (3895, 3895); (3897, 3897);
   (3953, 3966); (3968, 3972); (3974, 3975); (3981, 3991); (3993, 4028);
   (4038, 4038); (4141, 4144); (4146, 4151); (4153, 4154); (4157, 4158);
   (4184, 4185); (4190, 4192); (4209, 4212); (4226, 4226); (4229, 4230);
   (4237, 4237); (4253, 4253); (4348, 4348); (4957, 4959); (5906, 5908);
   (5938, 5939); (5970, 5971); (6002, 6003); (6068, 6069); (6071, 6077);
   (6086, 6086); (6089, 6099); (6103, 6103); (6109, 6109); (6155, 6159);
   (6211, 6211); (6277, 6278); (6313, 6313); (6432, 6434); (6439, 6440);
   (6450, 6450); (6457, 6459); (6679, 6680); (6683, 6683); (6742, 6742);
   (6744, 6750); (6752, 6752); (6754, 6754); (6757, 6764); (6771, 6780);
   (6783, 6783); (6823, 6823); (6832, 6862); (6912, 6915); (6964, 6964);
   (6966, 6970); (6972, 6972); (6978, 6978); (7019, 7027); (7040, 7041);
   (7074, 7077); (7080, 7081); (7083, 7085); (7142, 7142); (7144, 7145);
   (7149, 7149); (7151, 7153); (7212, 7219); (7222, 7223); (7288, 7293);
   (7376, 7378); (7380, 7392); (7394, 7400); (7405, 7405); (7412, 7412);
   (7416, 7417); (7468, 7530); (7544, 7544); (7579, 7679); (8125, 8125);
   (8127, 8129); (8141, 8143); (8157, 8159); (8173, 8175); (8189, 8190);
   (8203, 8207); (8216, 8217); (8228, 8228); (8231, 8231); (8234, 8238);
   (8288, 8292); (8294, 8303); (8305, 8305); (8319, 8319); (8336, 8348);
   (8400, 8432); (11388, 11389); (11503, 11505); (11631, 11631);
   (11647, 11647); (11744, 11775); (11823, 11823); (12293, 12293);
   (12330, 12333); (12337, 12341); (12347, 12347); (12441, 12446);
   (12540, 12542); (40981, 40981); (42232, 42237); (42508, 42508);
   (42607, 42610); (42612, 42621); (42623, 42623); (42652, 42655);
   (42736, 42737); (42752, 42785); (42864, 42864); (42888, 42890);
   (42994, 42996); (43000, 43001); (43010, 43010); (43014, 43014);
   (43019, 43019); (43045, 43046); (43052, 43052); (43204, 43205);
   (43232, 43249); (43263, 43263); (43302, 43309); (43335, 43345);
   (43392, 43394); (43443, 43443); (43446, 43449); (43452, 43453);
   (43471, 43471); (43493, 43494); (43561, 43566); (43569, 43570);
   (43573, 43574); (43587, 43587); (43596, 43596); (43632, 43632);
   (43644, 43644); (43696, 43696); (43698, 43700); (43703, 43704);
   (43710, 43711); (43713, 43713); (43741, 43741); (43756, 43757);
   (43763, 43764); (43766, 43766); (43867, 43871); (43881, 43883);
   (44005, 44005); (44008, 44008); (44013, 44013); (64286, 64286);
   (64434, 64450); (65024, 65039); (65043, 65043); (65056, 65071);
   (65106, 65106); (65109, 65109); (65279, 65279); (65287, 65287);
   (65294, 65294); (65306, 65306); (65342, 65342); (65344, 65344);
   (65392, 65392); (65438, 65439); (65507, 65507); (65529, 65531);
   (66045, 66045); (66272, 66272); (66422, 66426); (67456, 67461);
   (67463, 67504); (67506, 67514); (68097, 68099); (68101, 68102);
   (68108, 68111); (68152, 68154); (68159, 68159); (68325, 68326);
   (68900, 68903); (69291, 69292); (69446, 69456); (69506, 69509);
   (69633, 69633); (69688, 69702); (69744, 69744); (69747, 69748);
   (69759, 69761); (69811, 69814); (69817, 69818); (69821, 69821);
   (69826, 69826); (69837, 69837); (69888, 69890); (69927, 69931);
   (69933, 69940); (70003, 70003); (70016, 70017); (70070, 70078);
   (70089, 70092); (70095, 70095); (70191, 70193); (70196, 70196);
   (70198, 70199); (70206, 70206); (70367, 70367); (70371, 70378);
   (70400, 70401); (70459, 70460); (70464, 70464); (70502, 70508);
   (70512, 70516); (70712, 70719); (70722, 70724); (70726, 70726);
   (70750, 70750); (70835, 70840); (70842, 70842); (70847, 70848);
   (70850, 70851); (71090, 71093); (71100, 71101); (71103, 71104);
   (71132, 71133); (71219, 71226); (71229, 71229); (71231, 71232);
   (71339, 71339); (71341, 71341); (71344, 71349); (71351, 71351);
   (71453, 71455); (71458, 71461); (71463, 71467); (71727, 71735);
   (71737, 71738); (71995, 71996); (71998, 71998); (72003, 72003);
   (72148, 72151); (72154, 72155); (72160, 72160); (72193, 72202);
   (72243, 72248); (72251, 72254); (72263, 72263); (72273, 72278);
   (72281, 72283); (72330, 72342); (72344, 72345); (72752, 72758);
   (72760, 72765); (72767, 72767); (72850, 72871); (72874, 72880);
   (72882, 72883); (72885, 72886); (73009, 73014); (73018, 73018);
   (73020, 73021); (73023, 73029); (73031, 73031); (73104, 73105);
   (73109, 73109); (73111, 73111); (73459, 73460); (78896, 78904);
   (92912, 92916); (92976, 92982); (92992, 92995); (94031, 94031);
   (94095, 94111); (94176, 94177); (94179, 94180); (110576, 110579);
   (110581, 110587); (110589, 110590); (113821, 113822); (113824, 113827);
   (118528, 118573); (118576, 118598); (119143, 119145); (119155, 119170);
   (119173, 119179); (119210, 119213); (119362, 119364); (121344, 121398);
   (121403, 121452); (121461, 121461); (121476, 121476); (121499, 121503);
   (121505, 121519); (122880, 122886); (122888, 122904); (122907, 122913);
   (122915, 122916); (122918, 122922); (123184, 123197); (123566, 123566);
   (123628, 123631); (125136, 125142); (125252, 125259); (127995, 127999);
   (917505, 917505); (917536, 917631); (917760, 917999)]%N.

(** *** Code points

    A string is read as generalised UTF-8: a well-formed sequence of one to
    four bytes is a code point, a surrogate code point included, which is how
    a surrogate that has no partner is written.  A byte that belongs to no
    well-formed sequence stands for nothing in JavaScript; it is kept as it
    is. *)

Inductive Symbol : Type :=
| Cp (n : N)
| Stray (b : ascii).

Definition byte (c : ascii) : N := N_of_ascii c.

Definition is_cont (c : ascii) : bool :=
  (128 <=? byte c)%N && (byte c <? 192)%N.

(** The number of continuation bytes a lead byte announces, and the bits it
    contributes; [0] for a byte that is no lead byte. *)
Definition follow (c : ascii) : nat :=
  let b := byte c in
  if (194 <=? b)%N && (b <? 224)%N then 1
  else if (224 <=? b)%N && (b <? 240)%N then 2
  else if (240 <=? b)%N && (b <? 245)%N then 3
  else 0.

Definition lead_bits (c : ascii) : N :=
  let b := byte c in
  if (b <? 224)%N then b - 192 else if (b <? 240)%N then b - 224 else b - 240.

Definition seq_value (lead : ascii) (conts : list ascii) : N :=
  fold_left (fun v c => v * 64 + (byte c - 128))%N conts (lead_bits lead).

(** A sequence is well formed when it is the shortest one for its value,
    and the value is a code point. *)
Definition seq_ok (lead : ascii) (conts : list ascii) : bool :=
  let v := seq_value lead conts in
  match length conts with
  | 1 => (128 <=? v)%N
  | 2 => (2048 <=? v)%N
  | 3 => (65536 <=? v)%N && (v <? 1114112)%N
  | _ => false
  end.

(** The bytes of a sequence that is not complete yet: its lead byte and the
    continuation bytes read so far. *)
Definition Pending : Type := option (ascii * list ascii).

Definition flush (st : Pending) : list Symbol :=
  match st with
  | None => []
  | Some (lead, conts) => Stray lead :: map Stray conts
  end.

Definition start (c : ascii) : list Symbol * Pending :=
  if (byte c <? 128)%N then ([Cp (byte c)], None)
  else if (0 <? follow c)%nat then ([], Some (c, []))
  else ([Stray c], None).

Definition step (st : Pending) (c : ascii) : list Symbol * Pending :=
  match st with
  | Some (lead, conts) =>
    if is_cont c then
      let conts' := (conts ++ [c])%list in
      if (length conts' =? follow lead)%nat then
        (if seq_ok lead conts' then [Cp (seq_value lead conts')]
         else flush (Some (lead, conts')), None)
      else ([], Some (lead, conts'))
    else
      let '(out, st') := start c in ((flush st ++ out)%list, st')
  | None => start c
  end.

Fixpoint decode_from (st : Pending) (s : string) : list Symbol :=
  match s with
  | EmptyString => flush st
  | String c r => let '(out, st') := step st c in (out ++ decode_from st' r)%list
  end.

Definition decode (s : string) : list Symbol := decode_from None s.

Definition byte_of (n : N) : string := String (ascii_of_N n) EmptyString.

Definition encode1 (u : Symbol) : string :=
  match u with
  | Stray b => String b EmptyString
  | Cp n =>
    if (n <? 128)%N then byte_of n
    else if (n <? 2048)%N then
      byte_of (192 + n / 64) +:+ byte_of (128 + n mod 64)
    else if (n <? 65536)%N then
      byte_of (224 + n / 4096) +:+ byte_of (128 + (n / 64) mod 64) +:+
      byte_of (128 + n mod 64)
    else if (n <? 1114112)%N then
      byte_of (240 + n / 262144) +:+ byte_of (128 + (n / 4096) mod 64) +:+
      byte_of (128 + (n / 64) mod 64) +:+ byte_of (128 + n mod 64)
    else EmptyString
  end.

Fixpoint encode (l : list Symbol) : string :=
  match l with
  | [] => EmptyString
  | u :: r => encode1 u +:+ encode r
  end.

(** *** Case mapping

    [String.prototype.toLowerCase] and [toUpperCase] follow the default case
    conversion of the Unicode standard: the mappings of UnicodeData.txt and
    the unconditional ones of SpecialCasing.txt, and its one condition that
    depends on no language, [Final_Sigma]. *)

Definition in_ranges (ranges : list (N * N)) (n : N) : bool :=
  existsb (fun '(lo, hi) => (lo <=? n)%N && (n <=? hi)%N) ranges.

Definition mapped (table : list (N * N * N * N)) (n : N) : option N :=
  match List.find (fun '(lo, hi, step, _) =>
                     (lo <=? n)%N && (n <=? hi)%N && ((n - lo) mod step =? 0)%N)
                  table with
  | Some (lo, _, _, to) => Some (to + (n - lo))%N
  | None => None
  end.

Definition cased (u : Symbol) : bool :=
  match u with Cp n => in_ranges cased_ranges n | Stray _ => false end.

Definition case_ignorable (u : Symbol) : bool :=
  match u with Cp n => in_ranges ignorable_ranges n | Stray _ => false end.

(** U+0130 is the one code point whose lower case is two code points. *)
Definition lower1 (n : N) : list N :=
  if (n =? 304)%N then [105; 775]%N
  else match mapped lower_table n with
       | Some t => [t]
       | None => [n]
       end.

Definition upper1 (n : N) : list N :=
  match List.find (fun '(c, _) => (c =? n)%N) upper_special with
  | Some (_, l) => l
  | None => match mapped upper_table n with
            | Some t => [t]
            | None => [n]
            end
  end.

(** What follows is a cased letter, case-ignorable code points apart. *)
Fixpoint cased_ahead (l : list Symbol) : bool :=
  match l with
  | [] => false
  | u :: r => if case_ignorable u then cased_ahead r else cased u
  end.

(** [before]: a cased letter comes before, case-ignorable code points
    apart.  A capital sigma (U+03A3) in that position that no cased letter
    follows becomes the final sigma (U+03C2). *)
Fixpoint lower_from (before : bool) (l : list Symbol) : list Symbol :=
  match l with
  | [] => []
  | u :: r =>
    (match u with
     | Stray _ => [u]
     | Cp n =>
       if (n =? 931)%N then
         [Cp (if before && negb (cased_ahead r) then 962 else 963)%N]
       else map Cp (lower1 n)
     end ++
     lower_from (if case_ignorable u then before else cased u) r)%list
  end.

Definition upper_symbol (u : Symbol) : list Symbol :=
  match u with
  | Stray _ => [u]
  | Cp n => map Cp (upper1 n)
  end.

(** [String.prototype.toLowerCase] and [toUpperCase]. *)
Definition toLowerCase (s : string) : string :=
  encode (lower_from false (decode s)).

Definition toUpperCase (s : string) : string :=
  encode (flat_map upper_symbol (decode s)).

(** White space and line terminators of ECMAScript, by their UTF-8 bytes:
    one byte (TAB, LF, VT, FF, CR, SP), two bytes (U+00A0) and three bytes
    (U+1680, U+2000..U+200A, U+2028, U+2029, U+202F, U+205F, U+3000,
    U+FEFF). *)
Definition ws1 (a : ascii) : bool :=
  let n := nat_of_ascii a in
  ((9 <=? n)%nat && (n <=? 13)%nat) || (n =? 32)%nat.

Definition ws2 (a b : ascii) : bool :=
  (nat_of_ascii a =? 194)%nat && (nat_of_ascii b =? 160)%nat.

Definition ws3 (a b c : ascii) : bool :=
  let x := nat_of_ascii a in
  let y := nat_of_ascii b in
  let z := nat_of_ascii c in
  ((x =? 225) && (y =? 154) && (z =? 128))%nat
  || ((x =? 226) && (y =? 128) && ((128 <=? z) && (z <=? 138)))%nat
  || ((x =? 226) && (y =? 128) && ((z =? 168) || (z =? 169) || (z =? 175)))%nat
  || ((x =? 226) && (y =? 129) && (z =? 159))%nat
  || ((x =? 227) && (y =? 128) && (z =? 128))%nat
  || ((x =? 239) && (y =? 187) && (z =? 191))%nat.

(** Strips the white space at the front.  With [fwd = false] the string is
    read backwards, so that the bytes of a character come last byte first. *)
Fixpoint strip (fwd : bool) (s : string) : string :=
  match s with
  | EmptyString => s
  | String a s1 =>
    if ws1 a then strip fwd s1 else
    match s1 with
    | EmptyString => s
    | String b s2 =>
      if (if fwd then ws2 a b else ws2 b a) then strip fwd s2 else
      match s2 with
      | EmptyString => s
      | String c s3 =>
        if (if fwd then ws3 a b c else ws3 c b a) then strip fwd s3 else s
      end
    end
  end.

Fixpoint rev_append (s acc : string) : string :=
  match s with
  | EmptyString => acc
  | String c r => rev_append r (String c acc)
  end.

Definition rev (s : string) : string := rev_append s EmptyString.

(** [String.prototype.trim]. *)
Definition trim (s : string) : string :=
  rev (strip false (rev (strip true s))).

(** [String.prototype.split] with a separator of one character. *)
Fixpoint split (sep : ascii) (s : string) : list string :=
  match s with
  | EmptyString => [EmptyString]
  | String c r =>
    if Ascii.eqb c sep then EmptyString :: split sep r
    else match split sep r with
         | h :: t => String c h :: t
         | [] => [String c EmptyString]
         end
  end.

(** [Array.prototype.join]. *)
Fixpoint join (sep : string) (l : list string) : string :=
  match l with
  | [] => EmptyString
  | [x] => x
  | x :: r => x +:+ sep +:+ join sep r
  end.

(** [s.slice(0, -n)]: the string without its last [n] characters. *)
Definition slice0_neg (n : nat) (s : string) : string :=
  String.substring 0 (String.length s - n) s.

(** [Array.prototype.includes] on strings. *)
Definition includes (l : list string) (x : string) : bool :=
  bool_decide (x ∈ l).

Definition hex_digit (n : nat) : ascii :=
  if (n <? 10)%nat then ascii_of_nat (48 + n) else ascii_of_nat (55 + n).

(** The characters [encodeURIComponent] leaves as they are:
    letters, digits and [- _ . ! ~ * ' ( )]. *)
Definition uri_unreserved (c : ascii) : bool :=
  is_upper c || is_lower c || is_digit c ||
  bool_decide (nat_of_ascii c ∈ [45; 95; 46; 33; 126; 42; 39; 40; 41]%nat).

(** The percent-encoding of [encodeURIComponent]: every other byte of the
    UTF-8 encoding becomes [%XX], in upper-case hexadecimal. *)
Fixpoint percent_encode (s : string) : string :=
  match s with
  | EmptyString => EmptyString
  | String c r =>
    if uri_unreserved c then String c (percent_encode r)
    else
      let n := nat_of_ascii c in
      String "%"%char (String (hex_digit (n / 16)) (String (hex_digit (n mod 16))
        (percent_encode r)))
  end.

(** A surrogate code point, which in a string stands for a surrogate that
    has no partner. *)
Definition lone_surrogate (u : Symbol) : bool :=
  match u with
  | Cp n => (55296 <=? n)%N && (n <=? 57343)%N
  | Stray _ => false
  end.

(** A string that [encodeURIComponent] accepts: no lone surrogate in it. *)
Definition well_formed (s : string) : bool :=
  forallb (fun u => negb (lone_surrogate u)) (decode s).

End JsString.

Import JsString.

(** ** Numbers

    A number of a request or of a JSON document is given by its text,
    [m] times ten to the power [e]; the Number value is the double nearest
    to it.  [Number::toString] prints the shortest decimal that reads back as
    that double. *)

Module JsNumber.

#[local] Open Scope Z_scope.

(** The magnitude of a double: zero, [m * 2 ^ e] with [m] of at most 53
    bits, or infinity. *)
Inductive Double : Type :=
| Zero
| Finite (m e : Z)
| Infinite.

#[global] Instance Double_eq_dec : EqDecision Double.
Proof. solve_decision. Defined.

(** The fraction [s * 10 ^ p] or [s * 2 ^ p], as numerator and denominator. *)
Definition scaled (base s p : Z) : Z * Z :=
  if 0 <=? p then (s * base ^ p, 1) else (s, base ^ (- p)).

(** [n / d] rounded to the nearest integer, a tie to the even one. *)
Definition round_div (n d : Z) : Z :=
  let q := n / d in
  let r := n mod d in
  if 2 * r <? d then q
  else if d <? 2 * r then q + 1
  else if Z.even q then q else q + 1.

(** The double nearest to [n / d], for positive [n] and [d]: 53 bits of
    mantissa, an exponent of at least [-1074] (below which the mantissa has
    fewer bits) and an overflow to infinity from [2 ^ 1024]. *)
Definition nearest (n d : Z) : Double :=
  if n <=? 0 then Zero
  else
    let e0 := Z.log2 n - Z.log2 d - 52 in
    let '(a0, b0) := scaled 2 1 e0 in
    let e1 := if (n * b0) / (d * a0) <? 2 ^ 52 then e0 - 1 else e0 in
    let e := Z.max e1 (-1074) in
    let '(a, b) := scaled 2 1 e in
    let q := round_div (n * b) (d * a) in
    if q =? 0 then Zero
    else
      let '(q, e) := if q =? 2 ^ 53 then (2 ^ 52, e + 1) else (q, e) in
      if 971 <? e then Infinite else Finite q e.

(** The Number value of the text [m * 10 ^ e], sign apart. *)
Definition of_decimal (m e : Z) : Double :=
  let '(n, d) := scaled 10 (Z.abs m) e in nearest n d.

Definition digit (n : Z) : ascii := ascii_of_N (48 + Z.to_N n).

Fixpoint numeral_go (fuel : nat) (n : Z) (acc : string) : string :=
  match fuel with
  | O => acc
  | S fuel' =>
    let acc' := String (digit (n mod 10)) acc in
    if n <? 10 then acc' else numeral_go fuel' (n / 10) acc'
  end.

(** The decimal digits of a natural number. *)
Definition numeral (n : Z) : string :=
  numeral_go (S (Z.to_nat (Z.log2 n))) n EmptyString.

(** The number of decimal digits of a positive integer. *)
Definition digits (n : Z) : Z := Z.of_nat (String.length (numeral n)).

(** [t] with [10 ^ (t - 1) <= n / d < 10 ^ t]. *)
Definition magnitude (n d : Z) : Z :=
  let t := digits n - digits d in
  let '(a, b) := scaled 10 1 t in
  if n * b <? d * a then t else t + 1.

(** The digits of [k] figures nearest to [n / d] that read back as [v],
    with the position of the decimal point. *)
Definition figures (v : Double) (n d t k : Z) : option (Z * Z) :=
  let p := t - k in
  let '(a, b) := scaled 10 1 p in
  let lo := (n * b) / (d * a) in
  let hi := lo + 1 in
  let reads s := let '(x, y) := scaled 10 s p in bool_decide (nearest x y = v) in
  let up := if hi =? 10 ^ k then (10 ^ (k - 1), t + 1) else (hi, t) in
  match reads lo, reads hi with
  | true, false => Some (lo, t)
  | false, true => Some up
  | false, false => None
  | true, true =>
    let c := (2 * n * b) ?= (d * a * (lo + hi)) in
    match c with
    | Lt => Some (lo, t)
    | Gt => Some up
    | Eq => if Z.even lo then Some (lo, t) else Some up
    end
  end.

Fixpoint shortest (fuel : nat) (v : Double) (n d t k : Z) : Z * Z :=
  match fuel with
  | O => (0, 0)
  | S fuel' =>
    match figures v n d t k with
    | Some r => r
    | None => shortest fuel' v n d t (k + 1)
    end
  end.

Fixpoint zeros (n : nat) : string :=
  match n with
  | O => EmptyString
  | S n' => String "0" (zeros n')
  end.

(** The text of [s * 10 ^ (n - k)], where [s] has the [k] digits [ds]. *)
Definition layout (ds : string) (n : Z) : string :=
  let k := Z.of_nat (String.length ds) in
  if (k <=? n) && (n <=? 21) then ds +:+ zeros (Z.to_nat (n - k))
  else if (0 <? n) && (n <=? 21) then
    String.substring 0 (Z.to_nat n) ds +:+ "." +:+
    String.substring (Z.to_nat n) (Z.to_nat (k - n)) ds
  else if (-6 <? n) && (n <=? 0) then "0." +:+ zeros (Z.to_nat (- n)) +:+ ds
  else
    let e := n - 1 in
    let exponent := (if e <? 0 then "e-" else "e+") +:+ numeral (Z.abs e) in
    if k =? 1 then ds +:+ exponent
    else String.substring 0 1 ds +:+ "." +:+
         String.substring 1 (Z.to_nat (k - 1)) ds +:+ exponent.

(** [Number::toString] of the Number value of [m * 10 ^ e]. *)
Definition toString (m e : Z) : string :=
  match of_decimal m e with
  | Zero => "0"
  | Infinite => if m <? 0 then "-Infinity" else "Infinity"
  | Finite q b =>
    let '(n, d) := scaled 2 q b in
    let '(s, t) := shortest 17 (Finite q b) n d (magnitude n d) 1 in
    (if m <? 0 then "-" else EmptyString) +:+ layout (numeral s) t
  end.

(** [ToBoolean]: zero is the one Number value of a text that is falsy. *)
Definition nonzero (m e : Z) : bool :=
  match of_decimal m e with
  | Zero => false
  | _ => true
  end.

End JsNumber.


(** ** Values and objects *)

(** A value of a request's arguments.  [JNum m e] is the number written as
    [m] times ten to the power [e]; [JArr] is an array.  (The recursion goes
    through [list]: no induction scheme is generated.) *)
#[local] Unset Elimination Schemes.

Inductive JsValue : Type :=
| JUndefined
| JNull
| JBool (b : bool)
| JNum (m e : Z)
| JStr (s : string)
| JArr (items : list JsValue).

#[local] Set Elimination Schemes.

#[global] Instance JsValue_eq_dec : EqDecision JsValue.
Proof.
  refine (fix go (x y : JsValue) {struct x} : Decision (x = y) :=
            match x, y with
            | JUndefined, JUndefined => left _
            | JNull, JNull => left _
            | JBool a, JBool b => cast_if (decide (a = b))
            | JNum m e, JNum m' e' => cast_if_and (decide (m = m')) (decide (e = e'))
            | JStr s, JStr t => cast_if (decide (s = t))
            | JArr l, JArr l' => cast_if (@list_eq_dec _ go l l')
            | _, _ => right _
            end); abstract congruence.
Defined.

(** [ToBoolean]. *)
Definition truthy (v : JsValue) : bool :=
  match v with
  | JUndefined | JNull => false
  | JBool b => b
  | JNum m e => JsNumber.nonzero m e
  | JStr s => negb (String.eqb s EmptyString)
  | JArr _ => true
  end.

(** [ToString], as a template literal and a property key apply it.  An
    array prints its elements joined by commas, [null] and [undefined] among
    them as the empty string. *)
Fixpoint toStr (v : JsValue) : string :=
  match v with
  | JUndefined => "undefined"
  | JNull => "null"
  | JBool true => "true"
  | JBool false => "false"
  | JNum m e => JsNumber.toString m e
  | JStr s => s
  | JArr items =>
    join ","
      ((fix each (l : list JsValue) : list string :=
          match l with
          | [] => []
          | x :: r =>
            (match x with
             | JUndefined | JNull => EmptyString
             | _ => toStr x
             end) :: each r
          end) items)
  end.

(** [a || b]. *)
Definition js_or (a b : JsValue) : JsValue := if truthy a then a else b.

(** The argument bag of a request. *)
Abbreviation Args := (gmap string JsValue).

(** Property read on the argument bag: an absent field is [undefined]. *)
Definition arg (args : Args) (k : string) : JsValue :=
  default JUndefined (args !! k).

(** Default of a destructuring pattern ([{ confirm = true }]): it applies to
    [undefined] only. *)
Definition arg_default (d v : JsValue) : JsValue :=
  match v with JUndefined => d | _ => v end.

(** The properties every object literal inherits from [Object.prototype]. *)
Definition object_prototype_keys : list string :=
  ["constructor"; "__defineGetter__"; "__defineSetter__"; "hasOwnProperty";
   "__lookupGetter__"; "__lookupSetter__"; "isPrototypeOf";
   "propertyIsEnumerable"; "toString"; "valueOf"; "__proto__";
   "toLocaleString"].

(** Result of reading [table[key]] on an object literal of strings. *)
Inductive Lookup : Type :=
| Own (v : string)
| Inherited (k : string)
| Missing.

Definition js_get (table : gmap string string) (k : string) : Lookup :=
  match table !! k with
  | Some v => Own v
  | None => if includes object_prototype_keys k then Inherited k else Missing
  end.

(** [ToString] of an inherited member: a built-in function, or
    [Object.prototype] itself for [__proto__]. *)
Definition inherited_toStr (k : string) : string :=
  if String.eqb k "__proto__" then "[object Object]"
  else if String.eqb k "constructor" then "function Object() { [native code] }"
  else "function " +:+ k +:+ "() { [native code] }".

(** ** Errors, external invocations and programs *)

(** An error object: its message, and the properties [code], [killed] and
    [signal] that [child_process.exec] sets on the error it rejects with
    ([undefined] on any other error). *)
Record JsError : Type :=
  { code : JsValue; killed : JsValue; signal : JsValue; message : string }.

Definition new_Error (m : string) : JsError :=
  {| code := JUndefined; killed := JUndefined; signal := JUndefined;
     message := m |}.

(** An external invocation: a call of [child_process.exec], with its
    command line and the [timeout] option in milliseconds when one is given,
    or a network request of [fetch]. *)
Inductive Call : Type :=
| ExecCall (cmd : string) (timeout : option Z)
| FetchCall (url : string) (headers : list (string * string)).

Inductive Outcome : Type :=
| Resolved (out err : string)
| Rejected (e : JsError).

(** A handler is a finite tree: it returns, throws, or makes an external
    invocation and goes on with what the environment answers. *)
Inductive Prog (A : Type) : Type :=
| Ret (a : A)
| Throw (e : JsError)
| Exec (c : Call) (k : Outcome -> Prog A).

Arguments Ret {A} a.
Arguments Throw {A} e.
Arguments Exec {A} c k.

Fixpoint bind {A B : Type} (p : Prog A) (f : A -> Prog B) : Prog B :=
  match p with
  | Ret a => f a
  | Throw e => Throw e
  | Exec c k => Exec c (fun o => bind (k o) f)
  end.

(** [try { p } catch (error) { h error }]. *)
Fixpoint try_catch {A : Type} (p : Prog A) (h : JsError -> Prog A) : Prog A :=
  match p with
  | Ret a => Ret a
  | Throw e => h e
  | Exec c k => Exec c (fun o => try_catch (k o) h)
  end.

#[global] Instance Prog_ret : MRet Prog := @Ret.
#[global] Instance Prog_bind : MBind Prog := fun A B f p => bind p f.

Inductive Result (A : Type) : Type :=
| Returned (a : A)
| Thrown (e : JsError).

Arguments Returned {A} a.
Arguments Thrown {A} e.

(** The environment: what an invocation yields, given those made so far. *)
Definition Oracle : Type := list Call -> Call -> Outcome.

Fixpoint run {A : Type} (p : Prog A) (env : Oracle) (hist : list Call)
  : Result A * list Call :=
  match p with
  | Ret a => (Returned a, hist)
  | Throw e => (Thrown e, hist)
  | Exec c k => run (k (env hist c)) env (hist ++ [c])
  end.

(** A request handled from a fresh history: the outcome and the external
    invocations made, in order. *)
Definition result {A : Type} (p : Prog A) (env : Oracle) : Result A :=
  fst (run p env []).

Definition calls {A : Type} (p : Prog A) (env : Oracle) : list Call :=
  snd (run p env []).

(** Method call [v.meth()] of a string method on an arbitrary value; [expr]
    is the receiver as the source writes it, for the engine's message. *)
Definition str_method {A : Type} (f : string -> A) (expr meth : string)
  (v : JsValue) : Prog A :=
  match v with
  | JStr s => Ret (f s)
  | JUndefined | JNull =>
    Throw (new_Error ("Cannot read properties of " +:+ toStr v +:+
                      " (reading '" +:+ meth +:+ "')"))
  | _ => Throw (new_Error (expr +:+ "." +:+ meth +:+ " is not a function"))
  end.

(** Destructuring [const { prop, ... } = args] of the argument bag, which
    a request may leave out. *)
Definition destructure (prop : string) (a : option Args) : Prog Args :=
  match a with
  | Some args => Ret args
  | None =>
    Throw (new_Error ("Cannot destructure property '" +:+ prop +:+
                      "' of 'args' as it is undefined."))
  end.

(** [encodeURIComponent]: a [URIError] for a string with a lone surrogate,
    and the percent-encoding of the string otherwise. *)
Definition encodeURIComponent (s : string) : Prog string :=
  if well_formed s then Ret (percent_encode s)
  else Throw (new_Error "URI malformed").

(** ** tools.js *)

Module Tools.

(** [ExecutionResult]: what [executeRaycastCommand] resolves to. *)
Record ExecutionResult : Type := { stdout : string; stderr : string }.

(** Property read on an [ExecutionResult] object. *)
Definition prop (name : string) (r : ExecutionResult) : JsValue :=
  if String.eqb name "stdout" then JStr (stdout r)
  else if String.eqb name "stderr" then JStr (stderr r)
  else JUndefined.

(** [execAsync(command)] and [execAsync(command, { timeout })]. *)
Definition execAsync_opts (command : string) (t : option Z)
  : Prog ExecutionResult :=
  Exec (ExecCall command t)
       (fun o => match o with
                 | Resolved so se => Ret {| stdout := so; stderr := se |}
                 | Rejected e => Throw e
                 end).

Definition execAsync (command : string) : Prog ExecutionResult :=
  execAsync_opts command None.

Definition timeout_message : string :=
  "Raycast operation timed out. This may be normal for complex AppleScript operations. Operation was attempted but may need manual verification.".

Definition executeRaycastCommand (command : string) : Prog ExecutionResult :=
  try_catch
    (result ← execAsync_opts command (Some 60000%Z);
     mret {| stdout := stdout result; stderr := stderr result |})
    (fun error =>
       if decide (code error = JStr "ETIMEDOUT") then
         mret {| stdout := ""; stderr := timeout_message |}
       else
         mret {| stdout := "";
                 stderr := toStr (js_or (JStr (message error))
                                        (JStr "Raycast command execution failed")) |}).

Definition openRaycast : Prog unit :=
  _ ← execAsync "open -a Raycast"; mret tt.

Definition triggerRaycastURL (url : string) : Prog unit :=
  _ ← execAsync ("open " +:+ DQ +:+ url +:+ DQ); mret tt.

(** The [required] list of each tool's [inputSchema]. *)
Definition required : gmap string (list string) :=
  list_to_map
    [("raycast_search", ["query"]);
     ("raycast_open", []);
     ("raycast_clipboard", ["action"]);
     ("raycast_shortcut", []);
     ("raycast_window", ["action"]);
     ("raycast_system", ["function"])].

End Tools.

(** ** handlers.js *)

Module Handlers.

Import Tools.

Record ContentItem : Type := { type : string; text : string }.

(** [isError] is [None] where the object literal has no such property. *)
Record ToolResponse : Type :=
  { content : list ContentItem; isError : option bool }.

Definition text_response (t : string) : ToolResponse :=
  {| content := [ {| type := "text"; text := t |} ]; isError := None |}.

Definition error_response (t : string) : ToolResponse :=
  {| content := [ {| type := "text"; text := t |} ]; isError := Some true |}.

Record ToolRequest : Type := { name : string; arguments : option Args }.

(** The command line [osascript -e '<script>']. *)
Definition osascript (script : string) : string :=
  "osascript -e '" +:+ script +:+ "'".

(** *** raycast_search *)

Definition searchURL (query : JsValue) : Prog string :=
  encoded ← encodeURIComponent (toStr query);
  mret ("raycast://script-commands/search?query=" +:+ encoded).

Definition appleScript (query execute : JsValue) : string :=
  String.concat EmptyString [
    NL;
    "      tell application "; DQ; "Raycast"; DQ; NL;
    "        activate"; NL;
    "        delay 0.5"; NL;
    "      end tell"; NL;
    "      "; NL;
    "      tell application "; DQ; "System Events"; DQ; NL;
    "        keystroke "; DQ; toStr query; DQ; NL;
    "        "; (if truthy execute then "delay 0.5" +:+ NL +:+ "key code 36"
                 else EmptyString); NL;
    "      end tell"; NL;
    "    "].

Definition handleRaycastSearch (a : option Args) : Prog ToolResponse :=
  args ← destructure "query" a;
  let query := arg args "query" in
  let execute := arg_default (JBool false) (arg args "execute") in
  try_catch
    (raycastURL ← searchURL query;
     _ ← triggerRaycastURL raycastURL;
     _ ← execAsync (osascript (appleScript query execute));
     mret (text_response
             ("🔍 Raycast Search: " +:+ DQ +:+ toStr query +:+ DQ +:+
              (if truthy execute then " (executed first result)" else EmptyString) +:+
              NL +:+ NL +:+ "✅ Raycast opened with search query")))
    (fun error =>
       mret (error_response ("❌ Raycast search failed: " +:+ message error))).

(** *** raycast_open *)

Definition commandMap : gmap string string :=
  list_to_map
    [("clipboard-history", "extensions/raycast/clipboard-history/clipboard-history");
     ("emoji", "extensions/raycast/emoji-symbols/emoji-symbols");
     ("calculator", "extensions/raycast/calculator/calculator");
     ("calendar", "extensions/raycast/calendar/my-schedule");
     ("contacts", "extensions/raycast/contacts/search-contacts");
     ("reminders", "extensions/raycast/apple-reminders/create-reminder");
     ("notes", "extensions/raycast/apple-notes/search-notes");
     ("safari-bookmarks", "extensions/raycast/safari/search-bookmarks")].

(** [commandMap[command] || `extensions/${command}`], as it is appended to
    the URL. *)
Definition mappedCommand (command : JsValue) : string :=
  match js_get commandMap (toStr command) with
  | Own v => if String.eqb v EmptyString then "extensions/" +:+ toStr command else v
  | Inherited k => inherited_toStr k
  | Missing => "extensions/" +:+ toStr command
  end.

(** The URL a [raycast_open] request triggers; [None] where the application
    is opened without one. *)
Definition openURL (command extension cmdArgs : JsValue) : Prog (option string) :=
  if truthy command then
    arguments ← (if truthy cmdArgs then
                   encoded ← encodeURIComponent (toStr cmdArgs);
                   mret ("?arguments=" +:+ encoded)
                 else mret EmptyString);
    mret (Some ("raycast://" +:+ mappedCommand command +:+ arguments))
  else if truthy extension then
    mret (Some ("raycast://" +:+ "extensions/" +:+ toStr extension))
  else mret None.

Definition handleRaycastOpen (a : option Args) : Prog ToolResponse :=
  args ← destructure "command" a;
  let command := arg args "command" in
  let extension := arg args "extension" in
  let cmdArgs := arg args "args" in
  try_catch
    (target ← openURL command extension cmdArgs;
     match target with
     | None =>
       _ ← openRaycast;
       mret (text_response "🚀 Raycast opened")
     | Some raycastURL =>
       _ ← triggerRaycastURL raycastURL;
       mret (text_response
               ("🚀 Raycast Command: " +:+ toStr (js_or command extension) +:+
                NL +:+ NL +:+ "✅ Command executed successfully"))
     end)
    (fun error =>
       mret (error_response ("❌ Raycast command failed: " +:+ message error))).

(** *** raycast_clipboard *)

Definition clipboardHistoryURL : string :=
  "raycast://extensions/raycast/clipboard-history/clipboard-history".

Definition clearScript : string :=
  String.concat EmptyString [
    NL;
    "          tell application "; DQ; "Raycast"; DQ; NL;
    "            activate"; NL;
    "          end tell"; NL;
    "          tell application "; DQ; "System Events"; DQ; NL;
    "            keystroke "; DQ; ","; DQ; " using command down"; NL;
    "            delay 1"; NL;
    "            keystroke "; DQ; "clipboard"; DQ; NL;
    "            delay 0.5"; NL;
    "            key code 36"; NL;
    "            delay 0.5"; NL;
    "            keystroke "; DQ; "Clear History"; DQ; NL;
    "            delay 0.5"; NL;
    "            key code 36"; NL;
    "          end tell"; NL;
    "        "].

(** The command line of the [copy] action. *)
Definition copyCommand (text : JsValue) : string :=
  "echo " +:+ DQ +:+ toStr text +:+ DQ +:+ " | pbcopy".

Definition pasteSelectCommand (index : JsValue) : string :=
  "osascript -e 'tell application " +:+ DQ +:+ "System Events" +:+ DQ +:+
  " to key code 125 repeat " +:+ toStr index +:+ " times'".

Definition pasteEnterCommand : string :=
  "osascript -e 'tell application " +:+ DQ +:+ "System Events" +:+ DQ +:+
  " to key code 36'".

Definition pasteKeystrokeCommand : string :=
  "osascript -e 'tell application " +:+ DQ +:+ "System Events" +:+ DQ +:+
  " to keystroke " +:+ DQ +:+ "v" +:+ DQ +:+ " using command down'".

Definition clipboardMessage (ACTION : string) (text index : JsValue) : string :=
  "📋 Clipboard " +:+ ACTION +:+
  (if truthy text then ": " +:+ DQ +:+ toStr text +:+ DQ else EmptyString) +:+
  (if decide (index = JUndefined) then EmptyString
   else " (item " +:+ toStr index +:+ ")") +:+
  NL +:+ NL +:+ "✅ Action completed successfully".

(** The [switch] on the action.  A case that returns from the handler
    yields [Some] response; a case that ends in [break], and an action that
    matches no case, yield [None] and control goes on after the [switch]. *)
Definition clipboardSwitch (action text index : JsValue)
  : Prog (option ToolResponse) :=
  if decide (action = JStr "show") then
    _ ← triggerRaycastURL clipboardHistoryURL; mret None
  else if decide (action = JStr "clear") then
    _ ← execAsync (osascript clearScript); mret None
  else if decide (action = JStr "copy") then
    if negb (truthy text) then
      mret (Some (error_response "❌ Text is required for copy action"))
    else
      _ ← execAsync (copyCommand text); mret None
  else if decide (action = JStr "paste") then
    if decide (index = JUndefined) then
      _ ← execAsync pasteKeystrokeCommand; mret None
    else
      _ ← triggerRaycastURL clipboardHistoryURL;
      _ ← execAsync (pasteSelectCommand index);
      _ ← execAsync pasteEnterCommand;
      mret None
  else mret None.

Definition handleRaycastClipboard (a : option Args) : Prog ToolResponse :=
  args ← destructure "action" a;
  let action := arg args "action" in
  let text := arg args "text" in
  let index := arg args "index" in
  try_catch
    (returned ← clipboardSwitch action text index;
     match returned with
     | Some response => mret response
     | None =>
       ACTION ← str_method toUpperCase "action" "toUpperCase" action;
       mret (text_response (clipboardMessage ACTION text index))
     end)
    (fun error =>
       mret (error_response ("❌ Clipboard action failed: " +:+ message error))).

(** *** raycast_shortcut *)

Definition modifierNames : list string := ["cmd"; "shift"; "alt"; "ctrl"].

(** [custom_key.toLowerCase().split('+').map(k => k.trim())]. *)
Definition parseKeys (custom_key : string) : list string :=
  map trim (split "+" (toLowerCase custom_key)).

Definition modifierString (modifiers : list string) : string :=
  slice0_neg 2
    ((if includes modifiers "cmd" then "command down, " else EmptyString) +:+
     ((if includes modifiers "shift" then "shift down, " else EmptyString) +:+
      ((if includes modifiers "alt" then "option down, " else EmptyString) +:+
       (if includes modifiers "ctrl" then "control down, " else EmptyString)))).

(** [`${key}`] of the result of [Array.prototype.find]. *)
Definition found_toStr (key : option string) : string :=
  match key with Some k => k | None => "undefined" end.

Definition shortcutScript (custom_key : string) : string :=
  let keys := parseKeys custom_key in
  let modifiers := List.filter (fun k => includes modifierNames k) keys in
  let key := List.find (fun k => negb (includes modifierNames k)) keys in
  "tell application " +:+ DQ +:+ "System Events" +:+ DQ +:+ " to keystroke " +:+
  DQ +:+ found_toStr key +:+ DQ +:+ " using {" +:+ modifierString modifiers +:+ "}".

Definition shortcuts : gmap string string :=
  list_to_map
    [("main-window", "raycast://");
     ("clipboard-history", "raycast://extensions/raycast/clipboard-history/clipboard-history");
     ("emoji", "raycast://extensions/raycast/emoji-symbols/emoji-symbols");
     ("calculator", "raycast://extensions/raycast/calculator/calculator");
     ("screenshot", "raycast://extensions/raycast/screenshot/screenshot");
     ("timer", "raycast://extensions/raycast/timer/timer")].

Definition shortcutMessage (shortcut custom_key : JsValue) : string :=
  "⌨️ Shortcut Triggered: " +:+ toStr (js_or shortcut custom_key) +:+
  NL +:+ NL +:+ "✅ Shortcut executed successfully".

(** The two branches before the final [return]; [Some] response where the
    branch returns from the handler. *)
Definition shortcutBranches (shortcut custom_key : JsValue)
  : Prog (option ToolResponse) :=
  if truthy custom_key then
    script ← str_method shortcutScript "custom_key" "toLowerCase" custom_key;
    _ ← execAsync (osascript script);
    mret None
  else if truthy shortcut then
    match js_get shortcuts (toStr shortcut) with
    | Own url =>
      if String.eqb url EmptyString then
        mret (Some (error_response ("❌ Unknown shortcut: " +:+ toStr shortcut)))
      else
        _ ← triggerRaycastURL url; mret None
    | Inherited k =>
      _ ← triggerRaycastURL (inherited_toStr k); mret None
    | Missing =>
      mret (Some (error_response ("❌ Unknown shortcut: " +:+ toStr shortcut)))
    end
  else mret None.

Definition handleRaycastShortcut (a : option Args) : Prog ToolResponse :=
  args ← destructure "shortcut" a;
  let shortcut := arg args "shortcut" in
  let custom_key := arg args "custom_key" in
  try_catch
    (returned ← shortcutBranches shortcut custom_key;
     match returned with
     | Some response => mret response
     | None => mret (text_response (shortcutMessage shortcut custom_key))
     end)
    (fun error =>
       mret (error_response ("❌ Shortcut execution failed: " +:+ message error))).

(** *** raycast_window *)

Definition activateScript : string :=
  "tell application " +:+ DQ +:+ "Raycast" +:+ DQ +:+ " to activate".

Definition toggleScript : string :=
  String.concat EmptyString [
    NL;
    "            if application "; DQ; "Raycast"; DQ; " is running then"; NL;
    "              tell application "; DQ; "System Events"; DQ; NL;
    "                if (name of processes) contains "; DQ; "Raycast"; DQ; " then"; NL;
    "                  tell application "; DQ; "Raycast"; DQ; " to set visible to not visible"; NL;
    "                else"; NL;
    "                  tell application "; DQ; "Raycast"; DQ; " to activate"; NL;
    "                end if"; NL;
    "              end tell"; NL;
    "            else"; NL;
    "              tell application "; DQ; "Raycast"; DQ; " to activate"; NL;
    "            end if"; NL;
    "          "].

(** The [switch] that yields the script; [None] stands for its [default]
    case, which throws. *)
Definition windowScript (action : JsValue) : option string :=
  if decide (action = JStr "show") then Some activateScript
  else if decide (action = JStr "hide") then
    Some ("tell application " +:+ DQ +:+ "Raycast" +:+ DQ +:+ " to set visible to false")
  else if decide (action = JStr "toggle") then Some toggleScript
  else if decide (action = JStr "focus") then Some activateScript
  else None.

Definition handleRaycastWindow (a : option Args) : Prog ToolResponse :=
  args ← destructure "action" a;
  let action := arg args "action" in
  try_catch
    (script ← match windowScript action with
              | Some s => mret s
              | None => Throw (new_Error ("Unknown window action: " +:+ toStr action))
              end;
     _ ← execAsync (osascript script);
     ACTION ← str_method toUpperCase "action" "toUpperCase" action;
     mret (text_response
             ("🪟 Window " +:+ ACTION +:+ NL +:+ NL +:+
              "✅ Window action completed successfully")))
    (fun error =>
       mret (error_response ("❌ Window action failed: " +:+ message error))).

(** *** raycast_system *)

Definition systemCommands : gmap string string :=
  list_to_map
    [("sleep", "pmset sleepnow");
     ("restart", "sudo shutdown -r now");
     ("shutdown", "sudo shutdown -h now");
     ("lock", "/System/Library/CoreServices/Menu\ Extras/User.menu/Contents/Resources/CGSession -suspend");
     ("logout", "osascript -e " +:+ DQ +:+ "tell application " +:+ BSL +:+ DQ +:+
                "System Events" +:+ BSL +:+ DQ +:+ " to log out" +:+ DQ);
     ("empty-trash", "osascript -e " +:+ DQ +:+ "tell application " +:+ BSL +:+ DQ +:+
                     "Finder" +:+ BSL +:+ DQ +:+ " to empty the trash" +:+ DQ);
     ("eject-all", "osascript -e " +:+ DQ +:+ "tell application " +:+ BSL +:+ DQ +:+
                   "Finder" +:+ BSL +:+ DQ +:+ " to eject the disks" +:+ DQ)].

Definition destructive : list string :=
  ["restart"; "shutdown"; "logout"; "empty-trash"].

(** [['restart', ...].includes(func)]: strict comparison, so that only a
    string can be found. *)
Definition is_destructive (func : JsValue) : bool :=
  match func with
  | JStr s => includes destructive s
  | _ => false
  end.

Definition confirmScript (func : string) : string :=
  String.concat EmptyString [
    NL;
    "        tell application "; DQ; "System Events"; DQ; NL;
    "          display dialog "; DQ; "Are you sure you want to "; func; "?"; DQ; " buttons {"; DQ; "Cancel"; DQ; ", "; DQ; "OK"; DQ; "} default button "; DQ; "Cancel"; DQ; NL;
    "          if button returned of result is "; DQ; "OK"; DQ; " then"; NL;
    "            return "; DQ; "confirmed"; DQ; NL;
    "          else"; NL;
    "            return "; DQ; "cancelled"; DQ; NL;
    "          end if"; NL;
    "        end tell"; NL;
    "      "].

(** The command line of the confirmation dialog. *)
Definition confirmCommand (func : JsValue) : string :=
  osascript (confirmScript (toStr func)).

(** [!command] on the result of the table read. *)
Definition not_found (l : Lookup) : bool :=
  match l with
  | Own v => String.eqb v EmptyString
  | Inherited _ => false
  | Missing => true
  end.

(** [exec] refuses a command that is no string before it starts a process. *)
Definition invalid_command (k : string) : JsError :=
  {| code := JStr "ERR_INVALID_ARG_TYPE";
     killed := JUndefined; signal := JUndefined;
     message := "The " +:+ DQ +:+ "command" +:+ DQ +:+
                " argument must be of type string. Received " +:+
                (if String.eqb k "__proto__" then "an instance of Object"
                 else if String.eqb k "constructor" then "function Object"
                 else "function " +:+ k) |}.

Definition execFound (l : Lookup) : Prog ExecutionResult :=
  match l with
  | Own command => execAsync command
  | Inherited k => Throw (invalid_command k)
  | Missing => Throw (invalid_command "undefined")
  end.

(** The confirmation gate: [true] where the handler goes on to the command. *)
Definition confirmGate (func confirm : JsValue) : Prog bool :=
  if truthy confirm && is_destructive func then
    confirmResult ← execAsync (confirmCommand func);
    mret (bool_decide (trim (stdout confirmResult) = "confirmed"))
  else mret true.

Definition handleRaycastSystem (a : option Args) : Prog ToolResponse :=
  args ← destructure "function" a;
  let func := arg args "function" in
  let confirm := arg_default (JBool true) (arg args "confirm") in
  try_catch
    (let command := js_get systemCommands (toStr func) in
     if not_found command then
       mret (error_response ("❌ Unknown system function: " +:+ toStr func))
     else
       proceed ← confirmGate func confirm;
       if proceed : bool then
         _ ← execFound command;
         FUNC ← str_method toUpperCase "func" "toUpperCase" func;
         mret (text_response
                 ("🔧 System " +:+ FUNC +:+ NL +:+ NL +:+
                  "✅ System function executed successfully"))
       else
         mret (text_response ("❌ System " +:+ toStr func +:+ " cancelled by user")))
    (fun error =>
       mret (error_response ("❌ System function failed: " +:+ message error))).

(** *** The router of handlers.js *)

Definition handleToolCall (request : ToolRequest) : Prog ToolResponse :=
  try_catch
    (if decide (name request = "raycast_search") then
       handleRaycastSearch (arguments request)
     else if decide (name request = "raycast_open") then
       handleRaycastOpen (arguments request)
     else if decide (name request = "raycast_clipboard") then
       handleRaycastClipboard (arguments request)
     else if decide (name request = "raycast_shortcut") then
       handleRaycastShortcut (arguments request)
     else if decide (name request = "raycast_window") then
       handleRaycastWindow (arguments request)
     else if decide (name request = "raycast_system") then
       handleRaycastSystem (arguments request)
     else
       mret (error_response ("Unknown tool: " +:+ name request)))
    (fun error =>
       mret (error_response
               ("Error executing " +:+ name request +:+ ": " +:+ message error))).

End Handlers.

(** ** auth.ts *)

Module Auth.

(** [this.config]: each credential is a string or [undefined]. *)
Record AuthConfig : Type := {
  raycastApiKey : option string;
  raycastTeamId : option string;
  githubToken : option string;
  notionToken : option string;
  figmaToken : option string;
  slackToken : option string;
  linearToken : option string;
  jiraToken : option string
}.

Definition serviceMap : gmap string string :=
  list_to_map
    [("raycast", "raycastApiKey");
     ("github", "githubToken");
     ("notion", "notionToken");
     ("figma", "figmaToken");
     ("slack", "slackToken");
     ("linear", "linearToken");
     ("jira", "jiraToken")].

(** Property read [this.config[key]]. *)
Definition config_get (config : AuthConfig) (key : string) : option string :=
  if String.eqb key "raycastApiKey" then raycastApiKey config
  else if String.eqb key "raycastTeamId" then raycastTeamId config
  else if String.eqb key "githubToken" then githubToken config
  else if String.eqb key "notionToken" then notionToken config
  else if String.eqb key "figmaToken" then figmaToken config
  else if String.eqb key "slackToken" then slackToken config
  else if String.eqb key "linearToken" then linearToken config
  else if String.eqb key "jiraToken" then jiraToken config
  else None.

(** [ToBoolean] of a credential. *)
Definition credential_truthy (c : option string) : bool :=
  match c with
  | Some s => negb (String.eqb s EmptyString)
  | None => false
  end.

(** [const key = serviceMap[service]]: the property name the conditional
    [key ? ... : ...] reads the configuration with, or [None] where [key]
    is falsy. *)
Definition serviceKey (service : string) : option string :=
  match js_get serviceMap service with
  | Own key => if String.eqb key EmptyString then None else Some key
  | Inherited k => Some (inherited_toStr k)
  | Missing => None
  end.

Definition hasCredentials (config : AuthConfig) (service : string) : bool :=
  match serviceKey service with
  | Some key => credential_truthy (config_get config key)
  | None => false
  end.

Definition getCredential (config : AuthConfig) (service : string)
  : option string :=
  match serviceKey service with
  | Some key => config_get config key
  | None => None
  end.

End Auth.

(** ** index.ts *)

Module Server.

Import Handlers.

(** What [validateCredentials] resolves to.  [user] is [Some] of the text
    [JSON.stringify(user, null, 2)] where a truthy [user] is present. *)
Record Validation : Type :=
  { valid : bool; user : option string; error : option string }.

(** The methods of the Auth collaborator that [handleAuthTool] calls, at
    their interface. *)
Record AuthService : Type := {
  getSetupInstructions : JsValue -> string;
  validateCredentials : JsValue -> Prog Validation;
  auditIntegrations : Prog string;
  initiateOAuth : JsValue -> Prog string
}.

Section Dispatch.

Variable auth : AuthService.

(** The handlers of [raycast_extensions] and [raycast_workflows], which no
    property below depends on. *)
Variable handleExtensionsTool : option Args -> Prog ToolResponse.
Variable handleWorkflowsTool : option Args -> Prog ToolResponse.

Definition validationMessage (validation : Validation) (SERVICE : string)
  : string :=
  (if valid validation then "✅" else "❌") +:+ " " +:+ SERVICE +:+
  " Credentials: " +:+ (if valid validation then "Valid" else "Invalid") +:+
  NL +:+ NL +:+
  (if Auth.credential_truthy (error validation)
   then "Error: " +:+ default EmptyString (error validation) else EmptyString) +:+
  (match user validation with
   | Some json => NL +:+ "User: " +:+ json
   | None => EmptyString
   end).

Definition oauthMessage (SERVICE oauthUrl : string) : string :=
  "🔐 OAuth Flow Initiated for " +:+ SERVICE +:+ NL +:+ NL +:+
  "🌐 Opening browser: " +:+ oauthUrl +:+ NL +:+ NL +:+
  "📝 Complete the authorization and copy the token to your environment variables.".

Definition handleAuthTool (a : option Args) : Prog ToolResponse :=
  args ← destructure "action" a;
  let action := arg args "action" in
  let service := arg args "service" in
  try_catch
    (if decide (action = JStr "setup") then
       if negb (truthy service) then
         mret (error_response "❌ Service parameter required for setup")
       else
         mret (text_response (getSetupInstructions auth service))
     else if decide (action = JStr "validate") then
       if negb (truthy service) then
         mret (error_response "❌ Service parameter required for validation")
       else
         validation ← validateCredentials auth service;
         SERVICE ← str_method toUpperCase "service" "toUpperCase" service;
         mret (text_response (validationMessage validation SERVICE))
     else if decide (action = JStr "audit") then
       auditReport ← auditIntegrations auth;
       mret (text_response auditReport)
     else if decide (action = JStr "oauth") then
       if negb (truthy service) then
         mret (error_response "❌ Service parameter required for OAuth")
       else
         oauthUrl ← initiateOAuth auth service;
         SERVICE ← str_method toUpperCase "service" "toUpperCase" service;
         mret (text_response (oauthMessage SERVICE oauthUrl))
     else
       mret (error_response ("❌ Unknown auth action: " +:+ toStr action)))
    (fun error =>
       mret (error_response ("❌ Auth action failed: " +:+ message error))).

(** The handler of [CallToolRequestSchema]. *)
Definition dispatch (request : ToolRequest) : Prog ToolResponse :=
  if decide (name request = "raycast_auth") then
    handleAuthTool (arguments request)
  else if decide (name request = "raycast_extensions") then
    handleExtensionsTool (arguments request)
  else if decide (name request = "raycast_workflows") then
    handleWorkflowsTool (arguments request)
  else handleToolCall request.

End Dispatch.

(** The names [ListToolsRequestSchema] answers with. *)
Definition registered : list string :=
  ["raycast_search"; "raycast_open"; "raycast_clipboard"; "raycast_shortcut";
   "raycast_window"; "raycast_system";
   "raycast_auth"; "raycast_extensions"; "raycast_workflows"].

End Server.

(** ** Vocabulary of the statements *)

Import Tools Handlers Server.

Arguments arg : simpl never.

(** The [catch] clause of [handleToolCall]. *)
Definition toolCallCatch (tool : string) (error : JsError) : Prog ToolResponse :=
  Ret (error_response ("Error executing " +:+ tool +:+ ": " +:+ message error)).

(** An invocation of [execAsync(command)]. *)
Definition exec (command : string) : Call := ExecCall command None.

(** The invocation of [triggerRaycastURL(url)]. *)
Definition open_url (url : string) : Call :=
  exec ("open " +:+ DQ +:+ url +:+ DQ).

(** *** The commands a request resolves to

    The payloads the handlers compute from the request and their tables, in
    the order in which they are to be run, collected without running them. *)

Definition resolveSearch (args : Args) : list Call :=
  let query := arg args "query" in
  let execute := arg_default (JBool false) (arg args "execute") in
  match searchURL query with
  | Ret raycastURL =>
    [open_url raycastURL; exec (osascript (appleScript query execute))]
  | _ => []
  end.

Definition resolveOpen (args : Args) : list Call :=
  match openURL (arg args "command") (arg args "extension") (arg args "args") with
  | Ret None => [exec "open -a Raycast"]
  | Ret (Some raycastURL) => [open_url raycastURL]
  | _ => []
  end.

Definition resolveClipboard (args : Args) : list Call :=
  let action := arg args "action" in
  let text := arg args "text" in
  let index := arg args "index" in
  if decide (action = JStr "show") then [open_url clipboardHistoryURL]
  else if decide (action = JStr "clear") then [exec (osascript clearScript)]
  else if decide (action = JStr "copy") then
    if truthy text then [exec (copyCommand text)] else []
  else if decide (action = JStr "paste") then
    if decide (index = JUndefined) then [exec pasteKeystrokeCommand]
    else [open_url clipboardHistoryURL; exec (pasteSelectCommand index);
          exec pasteEnterCommand]
  else [].

Definition resolveShortcut (args : Args) : list Call :=
  let shortcut := arg args "shortcut" in
  let custom_key := arg args "custom_key" in
  if truthy custom_key then
    match custom_key with
    | JStr s => [exec (osascript (shortcutScript s))]
    | _ => []
    end
  else if truthy shortcut then
    match js_get shortcuts (toStr shortcut) with
    | Own url => if String.eqb url EmptyString then [] else [open_url url]
    | Inherited k => [open_url (inherited_toStr k)]
    | Missing => []
    end
  else [].

Definition resolveWindow (args : Args) : list Call :=
  match windowScript (arg args "action") with
  | Some script => [exec (osascript script)]
  | None => []
  end.

(** For a system function the confirmation requirement is part of what is
    resolved: where it holds, the dialog comes before the command. *)
Definition requiresConfirmation (args : Args) : bool :=
  truthy (arg_default (JBool true) (arg args "confirm")) &&
  is_destructive (arg args "function").

Definition resolveSystem (args : Args) : list Call :=
  let func := arg args "function" in
  let command := js_get systemCommands (toStr func) in
  if not_found command then []
  else
    (if requiresConfirmation args then [exec (confirmCommand func)] else []) ++
    match command with
    | Own c => [exec c]
    | _ => []
    end.

Definition resolve (request : ToolRequest) : list Call :=
  match arguments request with
  | None => []
  | Some args =>
    if decide (name request = "raycast_search") then resolveSearch args
    else if decide (name request = "raycast_open") then resolveOpen args
    else if decide (name request = "raycast_clipboard") then resolveClipboard args
    else if decide (name request = "raycast_shortcut") then resolveShortcut args
    else if decide (name request = "raycast_window") then resolveWindow args
    else if decide (name request = "raycast_system") then resolveSystem args
    else []
  end.

(** [follows p plan Q E]: the program makes the invocations of [plan], in
    order, as far as it goes; where it returns [a] with [rest] of the plan not
    reached, [Q a rest] holds, and where it throws [e], [E e rest] holds. *)
Fixpoint follows {A : Type} (p : Prog A) (plan : list Call)
  (Q : A -> list Call -> Prop) (E : JsError -> list Call -> Prop) : Prop :=
  match p with
  | Ret a => Q a plan
  | Throw e => E e plan
  | Exec c k =>
    match plan with
    | c' :: rest => c = c' /\ forall o, follows (k o) rest Q E
    | [] => False
    end
  end.

(** *** Responses of [handleRaycastSystem] *)

Definition systemSuccess (FUNC : string) : ToolResponse :=
  text_response ("🔧 System " +:+ FUNC +:+ NL +:+ NL +:+
                 "✅ System function executed successfully").

Definition systemFailure (e : JsError) : ToolResponse :=
  error_response ("❌ System function failed: " +:+ message e).

(** *** Sample collaborators and environments *)

Definition no_auth : AuthService :=
  {| getSetupInstructions := fun _ => EmptyString;
     validateCredentials := fun _ =>
       Ret {| valid := false; user := None; error := None |};
     auditIntegrations := Ret EmptyString;
     initiateOAuth := fun _ => Ret EmptyString |}.

Definition no_handler (a : option Args) : Prog ToolResponse :=
  Ret (text_response EmptyString).

(** Every invocation succeeds and prints [out]. *)
Definition answering (out : string) : Oracle := fun _ _ => Resolved out EmptyString.

Definition silent : Oracle := answering EmptyString.

(** The error [child_process.exec] rejects with when the command has run
    and ended with a status other than 0: the message is
    [Command failed: <command>], a line feed and what the command wrote to
    its standard error, and [code] is the status. *)
Definition command_failed (command : string) (status : Z) (stderr : string)
  : JsError :=
  {| code := JNum status 0; killed := JBool false; signal := JNull;
     message := "Command failed: " +:+ command +:+ NL +:+ stderr |}.

(** The error [exec] rejects with when the process outlived the [timeout]
    option and was killed for it: there is no exit status, so [code] is
    [null]; [killed] is [true] and [signal] names the signal. *)
Definition command_killed (command stderr : string) : JsError :=
  {| code := JNull; killed := JBool true; signal := JStr "SIGTERM";
     message := "Command failed: " +:+ command +:+ NL +:+ stderr |}.

(** A report of [osascript] for a dialog whose Cancel button is pressed:
    [display dialog] ends in the AppleScript error -128, the script stops
    there and the exit status is 1.  (The report begins with the place of
    the command in the script, which is left out here.) *)
Definition user_canceled : string :=
  "execution error: System Events got an error: User canceled. (-128)" +:+ NL.

(** The user presses Cancel in every dialog. *)
Definition cancelling : Oracle :=
  fun _ c =>
    match c with
    | ExecCall command _ => Rejected (command_failed command 1 user_canceled)
    | FetchCall _ _ => Rejected (new_Error "fetch failed")
    end.

(** Every command outlives its timeout, having written nothing. *)
Definition timing_out : Oracle :=
  fun _ c =>
    match c with
    | ExecCall command _ => Rejected (command_killed command EmptyString)
    | FetchCall _ _ => Rejected (new_Error "fetch failed")
    end.

(** Every invocation fails with [e]. *)
Definition rejecting (e : JsError) : Oracle := fun _ _ => Rejected e.

(** A clipboard text that closes the quotation it is put into. *)
Definition quote_breaking_text : string :=
  DQ +:+ "; touch /tmp/pwned; echo " +:+ DQ.

(** The services of [serviceMap]. *)
Definition knownServices : list string :=
  ["raycast"; "github"; "notion"; "figma"; "slack"; "linear"; "jira"].

Fixpoint all_chars (P : ascii -> bool) (s : string) : bool :=
  match s with
  | EmptyString => true
  | String c r => P c && all_chars P r
  end.

(** What a URL-encoded component is made of. *)
Definition uri_safe (c : ascii) : bool :=
  uri_unreserved c || Ascii.eqb c "%".

(** *** Key combinations *)

(** A token of a key combination: no [+] in it. *)
Definition no_plus (s : string) : bool :=
  all_chars (fun c => negb (Ascii.eqb c "+")) s.

(** A code point, or a stray byte, that is not the plus sign. *)
Definition plusfree (u : Symbol) : Prop :=
  match u with Cp n => n <> 43%N | Stray b => b <> "+"%char end.

(** No plus sign among the bytes that wait for the rest of their sequence. *)
Definition pending_plusfree (st : Pending) : Prop :=
  match st with
  | None => True
  | Some (lead, conts) => lead <> "+"%char /\ Forall (fun c => c <> "+"%char) conts
  end.

(** What [parseKeys] makes of a token: lower case, trimmed. *)
Definition normalize (token : string) : string := trim (toLowerCase token).

(** The AppleScript name of a modifier token. *)
Definition applescriptModifier (m : string) : string :=
  if String.eqb m "cmd" then "command down"
  else if String.eqb m "shift" then "shift down"
  else if String.eqb m "alt" then "option down"
  else "control down".

(** The postcondition that asks for nothing. *)
Definition any {A : Type} : A -> list Call -> Prop := fun _ _ => True.

(** * The rest of auth.ts and index.ts *)

(** ** JSON documents

    What [JSON.parse] and [response.json()] yield.  Numbers are given by
    their text, as for the argument values.  [JSON.parse] itself, and
    [JSON.stringify(v, null, 2)], are the engine's: the definitions that need
    them take them as parameters. *)

Module JsonDoc.

#[local] Set Warnings "-register-all".

(** An object lists each of its properties once. *)
Inductive Json : Type :=
| JsonNull
| JsonBool (b : bool)
| JsonNum (m e : Z)
| JsonStr (s : string)
| JsonArr (items : list Json)
| JsonObj (fields : list (string * Json)).

(** [ToBoolean]. *)
Definition json_truthy (v : Json) : bool :=
  match v with
  | JsonNull => false
  | JsonBool b => b
  | JsonNum m e => JsNumber.nonzero m e
  | JsonStr s => negb (String.eqb s EmptyString)
  | JsonArr _ | JsonObj _ => true
  end.

Definition has_key (k : string) (fields : list (string * Json)) : bool :=
  existsb (fun '(k', _) => String.eqb k k') fields.

(** [ToString]; [None] where it throws a [TypeError].  An array prints its
    elements joined by commas, [null] among them as the empty string.  An
    object prints as [[object Object]] through the [toString] it inherits;
    an own property [toString], which in a JSON document is no function,
    hides that one, and the conversion fails. *)
Fixpoint json_toStr (v : Json) : option string :=
  match v with
  | JsonNull => Some "null"
  | JsonBool true => Some "true"
  | JsonBool false => Some "false"
  | JsonNum m e => Some (JsNumber.toString m e)
  | JsonStr s => Some s
  | JsonArr items =>
    option_map (join ",")
      ((fix each (l : list Json) : option (list string) :=
          match l with
          | [] => Some []
          | x :: r =>
            match (match x with JsonNull => Some EmptyString | _ => json_toStr x end),
                  each r with
            | Some t, Some ts => Some (t :: ts)
            | _, _ => None
            end
          end) items)
  | JsonObj fields =>
    if has_key "toString" fields then None else Some "[object Object]"
  end.

Fixpoint assoc (k : string) (fields : list (string * Json)) : option Json :=
  match fields with
  | [] => None
  | (k', v) :: r => if String.eqb k k' then Some v else assoc k r
  end.

(** Property read [v[k]] on a value other than [null], for a name [k] that
    is none of [Object.prototype]'s, of a string's or of an array's own:
    [None] is [undefined]. *)
Definition json_field (v : Json) (k : string) : option Json :=
  match v with
  | JsonObj fields => assoc k fields
  | _ => None
  end.

(** Property read [v.k], which throws on [null]. *)
Definition json_prop (v : Json) (k : string) : Prog (option Json) :=
  match v with
  | JsonNull =>
    Throw (new_Error ("Cannot read properties of null (reading '" +:+ k +:+ "')"))
  | _ => Ret (json_field v k)
  end.

Definition opt_truthy (o : option Json) : bool :=
  match o with Some v => json_truthy v | None => false end.

(** [`${v}`] of a value read from a document. *)
Definition printed (o : option Json) : Prog string :=
  match o with
  | None => Ret "undefined"
  | Some v =>
    match json_toStr v with
    | Some t => Ret t
    | None => Throw (new_Error "Cannot convert object to primitive value")
    end
  end.

(** [a || b]. *)
Definition opt_or (a b : option Json) : option Json :=
  if opt_truthy a then a else b.

(** [fetch(url, { headers })] followed by [response.json()]: the environment
    answers the request with the body of the response, which is then
    parsed. *)
Definition fetch_json (JSON_parse : string -> JsError + Json)
  (url : string) (headers : list (string * string)) : Prog Json :=
  Exec (FetchCall url headers)
       (fun o => match o with
                 | Resolved body _ =>
                   match JSON_parse body with
                   | inr v => Ret v
                   | inl e => Throw e
                   end
                 | Rejected e => Throw e
                 end).

End JsonDoc.

(** Result of reading [table[key]] on an object literal of any values. *)
Inductive LookupOf (V : Type) : Type :=
| OwnOf (v : V)
| InheritedOf (k : string)
| MissingOf.

Arguments OwnOf {V} v.
Arguments InheritedOf {V} k.
Arguments MissingOf {V}.

Definition js_get_of {V : Type} (table : gmap string V) (k : string) : LookupOf V :=
  match table !! k with
  | Some v => OwnOf v
  | None => if includes object_prototype_keys k then InheritedOf k else MissingOf
  end.

(** ** auth.ts: the class RaycastAuth *)

Module RaycastAuth.

Import JsonDoc.

(** *** The constructor *)

(** A property of the [config] argument: absent, or present with a string
    or with [undefined]. *)
Inductive Field : Type :=
| Absent
| Present (v : option string).

Record ConfigArg : Type := {
  arg_raycastApiKey : Field;
  arg_raycastTeamId : Field;
  arg_githubToken : Field;
  arg_notionToken : Field;
  arg_figmaToken : Field;
  arg_slackToken : Field;
  arg_linearToken : Field;
  arg_jiraToken : Field
}.

(** [process.env], for the variables the constructor reads. *)
Record ProcessEnv : Type := {
  RAYCAST_API_KEY : option string;
  RAYCAST_TEAM_ID : option string;
  GITHUB_TOKEN : option string;
  NOTION_TOKEN : option string;
  FIGMA_TOKEN : option string;
  SLACK_TOKEN : option string;
  LINEAR_TOKEN : option string;
  JIRA_TOKEN : option string
}.

(** [config.x], the value read from the argument. *)
Definition field_value (f : Field) : option string :=
  match f with
  | Absent => None
  | Present v => v
  end.

(** [config.x || process.env.X]. *)
Definition or_env (f : Field) (e : option string) : option string :=
  if Auth.credential_truthy (field_value f) then field_value f else e.

(** The spread [...config] after the property [x: base]: an own property of
    [config] replaces it, whatever its value. *)
Definition spread (f : Field) (base : option string) : option string :=
  match f with
  | Absent => base
  | Present v => v
  end.

Definition no_config : ConfigArg :=
  {| arg_raycastApiKey := Absent; arg_raycastTeamId := Absent;
     arg_githubToken := Absent; arg_notionToken := Absent;
     arg_figmaToken := Absent; arg_slackToken := Absent;
     arg_linearToken := Absent; arg_jiraToken := Absent |}.

(** [new RaycastAuth(config)]; an argument left out is [{}]. *)
Definition constructor (config : option ConfigArg) (env : ProcessEnv)
  : Auth.AuthConfig :=
  let config := default no_config config in
  {| Auth.raycastApiKey :=
       spread (arg_raycastApiKey config) (or_env (arg_raycastApiKey config) (RAYCAST_API_KEY env));
     Auth.raycastTeamId :=
       spread (arg_raycastTeamId config) (or_env (arg_raycastTeamId config) (RAYCAST_TEAM_ID env));
     Auth.githubToken :=
       spread (arg_githubToken config) (or_env (arg_githubToken config) (GITHUB_TOKEN env));
     Auth.notionToken :=
       spread (arg_notionToken config) (or_env (arg_notionToken config) (NOTION_TOKEN env));
     Auth.figmaToken :=
       spread (arg_figmaToken config) (or_env (arg_figmaToken config) (FIGMA_TOKEN env));
     Auth.slackToken :=
       spread (arg_slackToken config) (or_env (arg_slackToken config) (SLACK_TOKEN env));
     Auth.linearToken :=
       spread (arg_linearToken config) (or_env (arg_linearToken config) (LINEAR_TOKEN env));
     Auth.jiraToken :=
       spread (arg_jiraToken config) (or_env (arg_jiraToken config) (JIRA_TOKEN env)) |}.

(** *** initiateOAuth *)

Definition oauthUrls : gmap string string :=
  list_to_map
    [("github", "https://github.com/login/oauth/authorize?client_id=YOUR_CLIENT_ID&scope=repo,user");
     ("notion", "https://api.notion.com/v1/oauth/authorize?client_id=YOUR_CLIENT_ID&response_type=code");
     ("figma", "https://www.figma.com/oauth?client_id=YOUR_CLIENT_ID&redirect_uri=YOUR_REDIRECT&scope=files:read");
     ("slack", "https://slack.com/oauth/v2/authorize?client_id=YOUR_CLIENT_ID&scope=channels:read,chat:write");
     ("linear", "https://linear.app/oauth/authorize?client_id=YOUR_CLIENT_ID&response_type=code");
     ("jira", "https://auth.atlassian.com/authorize?audience=api.atlassian.com&client_id=YOUR_CLIENT_ID")].

(** The command line [open "<url>"] of the browser. *)
Definition openCommand (url : string) : string :=
  "open " +:+ DQ +:+ url +:+ DQ.

(** Returns the URL it opened.  For a name inherited from
    [Object.prototype] what is opened and returned is that member, which
    both [initiateOAuth] and its caller put into a template literal: it is
    given by its [ToString]. *)
Definition initiateOAuth (service : JsValue) : Prog string :=
  match js_get oauthUrls (toStr service) with
  | Own url =>
    if String.eqb url EmptyString then
      Throw (new_Error ("Unsupported OAuth service: " +:+ toStr service))
    else
      _ ← Tools.execAsync (openCommand url); mret url
  | Inherited k =>
    _ ← Tools.execAsync (openCommand (inherited_toStr k)); mret (inherited_toStr k)
  | Missing =>
    Throw (new_Error ("Unsupported OAuth service: " +:+ toStr service))
  end.

(** *** getSetupInstructions *)

Definition instructions_raycast : string :=
  String.concat EmptyString [
    NL;
    "🚀 Raycast API Setup:"; NL;
    "1. Open Raycast → Preferences → Extensions → "; DQ; "Developer"; DQ; NL;
    "2. Create new API key"; NL;
    "3. Add to your .zshrc: export RAYCAST_API_KEY="; DQ; "your-key-here"; DQ; NL;
    "4. Restart terminal"; NL;
    NL;
    "📖 Documentation: https://developers.raycast.com/api-reference"; NL;
    "      "].

Definition instructions_github : string :=
  String.concat EmptyString [
    NL;
    "🐙 GitHub Token Setup:"; NL;
    "1. Go to GitHub Settings → Developer settings → Personal access tokens"; NL;
    "2. Generate new token with repo, user, workflow scopes"; NL;
    "3. Add to your .zshrc: export GITHUB_TOKEN="; DQ; "your-token-here"; DQ; NL;
    "4. Restart terminal"; NL;
    NL;
    "🔗 URL: https://github.com/settings/tokens"; NL;
    "      "].

Definition instructions_notion : string :=
  String.concat EmptyString [
    NL;
    "📝 Notion Integration Setup:"; NL;
    "1. Go to Notion Developers → Create new integration"; NL;
    "2. Copy the Internal Integration Token"; NL;
    "3. Add to your .zshrc: export NOTION_TOKEN="; DQ; "your-token-here"; DQ; NL;
    "4. Share databases/pages with your integration"; NL;
    NL;
    "🔗 URL: https://www.notion.so/my-integrations"; NL;
    "      "].

Definition instructions_figma : string :=
  String.concat EmptyString [
    NL;
    "🎨 Figma Token Setup:"; NL;
    "1. Go to Figma Settings → Account → Personal access tokens"; NL;
    "2. Generate new token"; NL;
    "3. Add to your .zshrc: export FIGMA_TOKEN="; DQ; "your-token-here"; DQ; NL;
    "4. Restart terminal"; NL;
    NL;
    "🔗 URL: https://www.figma.com/developers/api#access-tokens"; NL;
    "      "].

Definition instructions_slack : string :=
  String.concat EmptyString [
    NL;
    "💬 Slack App Setup:"; NL;
    "1. Go to Slack API → Create new app"; NL;
    "2. Configure OAuth scopes and permissions"; NL;
    "3. Install app to workspace"; NL;
    "4. Add to your .zshrc: export SLACK_TOKEN="; DQ; "your-bot-token-here"; DQ; NL;
    NL;
    "🔗 URL: https://api.slack.com/apps"; NL;
    "      "].

Definition instructions : gmap string string :=
  list_to_map
    [("raycast", instructions_raycast);
     ("github", instructions_github);
     ("notion", instructions_notion);
     ("figma", instructions_figma);
     ("slack", instructions_slack)].

(** [instructions[service] || `Setup instructions not available for
    ${service}`].  For a name inherited from [Object.prototype] the result is
    that member and no string; it is given by its [ToString]. *)
Definition getSetupInstructions (service : JsValue) : string :=
  match js_get instructions (toStr service) with
  | Own text =>
    if String.eqb text EmptyString
    then "Setup instructions not available for " +:+ toStr service
    else text
  | Inherited k => inherited_toStr k
  | Missing => "Setup instructions not available for " +:+ toStr service
  end.

(** *** auditIntegrations *)

Definition auditServices : list string :=
  ["raycast"; "github"; "notion"; "figma"; "slack"].

(** The lines one iteration of the loop pushes. *)
Definition auditLines (config : Auth.AuthConfig) (service : string) : list string :=
  let hasAuth := Auth.hasCredentials config service in
  let status := if hasAuth then "✅" else "❌" in
  let credential := if hasAuth then "Configured" else "Missing" in
  (status +:+ " " +:+ toUpperCase service +:+ ": " +:+ credential) ::
  (if negb hasAuth then ["   💡 Run: raycast_auth setup " +:+ service] else []).

Definition auditOpportunities : list string :=
  [NL +:+ "🚀 Potential Integration Opportunities:";
   "• Linear - Project management";
   "• Jira - Issue tracking";
   "• Confluence - Documentation";
   "• Miro - Collaboration boards";
   "• AWS - Cloud services";
   "• Vercel - Deployment platform"].

Definition auditReport (config : Auth.AuthConfig) : list string :=
  (["🔍 Integration Audit Report:" +:+ NL] ++
   flat_map (auditLines config) auditServices ++
   auditOpportunities)%list.

Definition auditIntegrations (config : Auth.AuthConfig) : Prog string :=
  mret (join NL (auditReport config)).

(** *** validateCredentials *)

Section Validate.

Variable JSON_parse : string -> JsError + Json.

(** [JSON.stringify(v, null, 2)]. *)
Variable JSON_stringify : Json -> string.

(** The call [member()] of a member inherited from [Object.prototype]. *)
Variable call_inherited : string -> Prog Json.

(** The request each validator makes: its URL and headers. *)
Definition validators (token : string) : gmap string (string * list (string * string)) :=
  list_to_map
    [("github", ("https://api.github.com/user",
                 [("Authorization", "token " +:+ token)]));
     ("notion", ("https://api.notion.com/v1/users/me",
                 [("Authorization", "Bearer " +:+ token);
                  ("Notion-Version", "2022-06-28")]));
     ("figma", ("https://api.figma.com/v1/me",
                [("X-Figma-Token", token)]))].

(** [{ valid: true, user }]. *)
Definition validUser (user : Json) : Validation :=
  {| valid := true;
     user := if json_truthy user then Some (JSON_stringify user) else None;
     error := None |}.

Definition invalid (reason : string) : Validation :=
  {| valid := false; user := None; error := Some reason |}.

Definition validateCredentials (config : Auth.AuthConfig) (service : JsValue)
  : Prog Validation :=
  let token := Auth.getCredential config (toStr service) in
  if negb (Auth.credential_truthy token) then
    mret (invalid "No credentials found")
  else
    try_catch
      (match js_get_of (validators (default EmptyString token)) (toStr service) with
       | MissingOf => mret (invalid "Validation not implemented for this service")
       | OwnOf (url, headers) =>
         user ← fetch_json JSON_parse url headers; mret (validUser user)
       | InheritedOf k =>
         user ← call_inherited k; mret (validUser user)
       end)
      (fun error => mret (invalid (message error))).

(** The collaborator the server holds. *)
Definition service (config : Auth.AuthConfig) : AuthService :=
  {| Server.getSetupInstructions := getSetupInstructions;
     Server.validateCredentials := validateCredentials config;
     Server.auditIntegrations := auditIntegrations config;
     Server.initiateOAuth := initiateOAuth |}.

End Validate.

End RaycastAuth.

(** ** index.ts: the extension and workflow tools *)

Module ServerTools.

Import JsonDoc.

Section Tools.

Variable JSON_parse : string -> JsError + Json.

(** [JSON.stringify(v, null, 2)]. *)
Variable JSON_stringify : Json -> string.

(** The call [member()] of a member inherited from [Object.prototype]. *)
Variable call_inherited : string -> Prog Json.

(** The body of the [create] case after its check of [name] and [steps]: it
    maps over the array of steps, reads the clock and prints the workflow
    with [JSON.stringify]. *)
Variable createWorkflow : JsValue -> JsValue -> JsValue -> Prog ToolResponse.

(** The configuration of the Auth singleton the server holds. *)
Variable config : Auth.AuthConfig.

(** *** raycast_extensions *)

Definition listCmd : string :=
  "defaults read com.raycast.macos extensions 2>/dev/null || echo " +:+ DQ +:+
  "No extensions configuration found" +:+ DQ.

Definition storeSearchCommand (query : JsValue) : Prog string :=
  encoded ← encodeURIComponent (toStr query);
  mret ("open " +:+ DQ +:+ "raycast://extensions/store?search=" +:+
        encoded +:+ DQ).

Definition storeInstallCommand (extension_id : JsValue) : string :=
  "open " +:+ DQ +:+ "raycast://extensions/store/" +:+ toStr extension_id +:+ DQ.

Definition updateCommand : string :=
  "open " +:+ DQ +:+ "raycast://preferences/extensions" +:+ DQ.

Definition catCommand (publish_path : JsValue) : string :=
  "cat " +:+ DQ +:+ (toStr publish_path +:+ "/package.json") +:+ DQ.

Definition requiredFields : list string :=
  ["name"; "title"; "description"; "author"; "license"].

(** [packageJson.raycast || {}]. *)
Definition raycastConfigOf (raycast : option Json) : Json :=
  if opt_truthy raycast then default (JsonObj []) raycast else JsonObj [].

Definition missingFields (packageJson raycastConfig : Json) : list string :=
  List.filter
    (fun field => negb (opt_truthy (json_field packageJson field)) &&
                  negb (opt_truthy (json_field raycastConfig field)))
    requiredFields.

Definition missingMessage (missing : list string) : string :=
  "❌ Extension validation failed. Missing required fields:" +:+ NL +:+ NL +:+
  join NL (map (fun f => "• " +:+ f) missing) +:+ NL +:+ NL +:+
  "📚 See: https://developers.raycast.com/extension-manifest".

Definition na : option Json := Some (JsonStr "N/A").

Definition publishGuide (packageJson : Json) (publish_path : JsValue)
  : Prog string :=
  heading ← printed (opt_or (json_field packageJson "title")
                            (json_field packageJson "name"));
  name ← printed (json_field packageJson "name");
  title ← printed (opt_or (json_field packageJson "title") na);
  description ← printed (opt_or (json_field packageJson "description") na);
  author ← printed (opt_or (json_field packageJson "author") na);
  license ← printed (opt_or (json_field packageJson "license") na);
  mret (String.concat EmptyString [
    "🚀 Extension Publishing Guide for "; DQ; heading; DQ; ":"; NL; NL;
    "1. Ensure your extension is in: "; toStr publish_path; NL;
    "2. Run: npm run build (if applicable)"; NL;
    "3. Run: npm run publish or ray publish"; NL;
    "4. Submit to Raycast Store: https://raycast.com/contribute"; NL; NL;
    "📋 Extension Details:"; NL;
    "• Name: "; name; NL;
    "• Title: "; title; NL;
    "• Description: "; description; NL;
    "• Author: "; author; NL;
    "• License: "; license; NL; NL;
    "🔗 Publishing Documentation: https://developers.raycast.com/store/publishing"]).

(** The [publish] case after its check of [publish_path], with its own
    [try] block. *)
Definition publish (publish_path : JsValue) : Prog ToolResponse :=
  try_catch
    (r ← Tools.execAsync (catCommand publish_path);
     packageJson ← match JSON_parse (Tools.stdout r) with
                   | inr v => Ret v
                   | inl e => Throw e
                   end;
     raycast ← json_prop packageJson "raycast";
     let raycastConfig := raycastConfigOf raycast in
     let missing := missingFields packageJson raycastConfig in
     if (0 <? length missing)%nat then
       mret (error_response (missingMessage missing))
     else
       guide ← publishGuide packageJson publish_path;
       mret (text_response guide))
    (fun error =>
       mret (error_response
               ("❌ Extension validation failed: " +:+ message error +:+ NL +:+ NL +:+
                "Ensure the path contains a valid Raycast extension with package.json"))).

Definition handleExtensionsTool (a : option Args) : Prog ToolResponse :=
  args ← destructure "action" a;
  let action := arg args "action" in
  let query := arg args "query" in
  let extension_id := arg args "extension_id" in
  let publish_path := arg args "publish_path" in
  try_catch
    (if decide (action = JStr "list") then
       listResult ← Tools.execAsync listCmd;
       mret (text_response
               ("📦 Installed Raycast Extensions:" +:+ NL +:+ NL +:+
                toStr (js_or (JStr (Tools.stdout listResult))
                             (JStr "Unable to read extensions list"))))
     else if decide (action = JStr "search") then
       if negb (truthy query) then
         mret (error_response "❌ Query parameter required for search")
       else
         command ← storeSearchCommand query;
         _ ← Tools.execAsync command;
         mret (text_response
                 ("🔍 Raycast Store Search: " +:+ DQ +:+ toStr query +:+ DQ +:+
                  NL +:+ NL +:+ "✅ Store opened with search results"))
     else if decide (action = JStr "install") then
       if negb (truthy extension_id) then
         mret (error_response "❌ Extension ID required for installation")
       else
         _ ← Tools.execAsync (storeInstallCommand extension_id);
         mret (text_response
                 ("📥 Installing Extension: " +:+ toStr extension_id +:+
                  NL +:+ NL +:+ "✅ Extension page opened for installation"))
     else if decide (action = JStr "publish") then
       if negb (truthy publish_path) then
         mret (error_response "❌ Publish path required")
       else publish publish_path
     else if decide (action = JStr "update") then
       _ ← Tools.execAsync updateCommand;
       mret (text_response
               ("⬆️ Extension Updates" +:+ NL +:+ NL +:+
                "✅ Extensions preferences opened. Check for available updates."))
     else
       mret (error_response ("❌ Unknown extension action: " +:+ toStr action)))
    (fun error =>
       mret (error_response ("❌ Extension action failed: " +:+ message error))).

(** *** raycast_workflows *)

Definition emptyTrashCommand : string :=
  "osascript -e " +:+ DQ +:+ "tell application " +:+ BSL +:+ DQ +:+
  "Finder" +:+ BSL +:+ DQ +:+ " to empty the trash" +:+ DQ.

(** [`${token}`] of the credential. *)
Definition credential_toStr (c : option string) : string :=
  match c with Some s => s | None => "undefined" end.

Definition githubStatus : Prog string :=
  if negb (Auth.hasCredentials config "github") then
    Throw (new_Error "GitHub credentials not configured")
  else
    let token := Auth.getCredential config "github" in
    user ← fetch_json JSON_parse "https://api.github.com/user"
           [("Authorization", "token " +:+ credential_toStr token)];
    login ← json_prop user "login";
    login ← printed login;
    name ← json_prop user "name";
    name ← printed name;
    mret ("👤 GitHub User: " +:+ login +:+ " (" +:+ name +:+ ")").

Definition predefinedWorkflows : gmap string (Prog string) :=
  list_to_map
    [("system-sleep",
      _ ← Tools.execAsync "pmset sleepnow"; mret "💤 System sleep initiated");
     ("empty-trash",
      _ ← Tools.execAsync emptyTrashCommand; mret "🗑️ Trash emptied");
     ("github-status", githubStatus)].

(** [Object.keys(predefinedWorkflows)]. *)
Definition workflowNames : list string :=
  ["system-sleep"; "empty-trash"; "github-status"].

Definition workflowExecuted (name : JsValue) (result : string) : string :=
  "⚡ Workflow Executed: " +:+ DQ +:+ toStr name +:+ DQ +:+ NL +:+ NL +:+ result.

Definition workflowNotFound (name : JsValue) : string :=
  "❌ Workflow not found: " +:+ DQ +:+ toStr name +:+ DQ +:+ NL +:+ NL +:+
  "Available workflows:" +:+ NL +:+
  join NL (map (fun w => "• " +:+ w) workflowNames).

Definition workflowList : string :=
  String.concat EmptyString [
    "📝 Raycast Workflows:"; NL; NL;
    "🔧 Quick Actions:"; NL;
    "• System Sleep → pmset sleepnow"; NL;
    "• Empty Trash → Finder empty trash"; NL;
    "• Screenshot → screencapture workflow"; NL; NL;
    "🔗 Integrations:"; NL;
    "• GitHub → Create issue/PR"; NL;
    "• Notion → Quick note"; NL;
    "• Slack → Send message"; NL; NL;
    "💡 Create custom workflows with: raycast_workflows create"].

Definition handleWorkflowsTool (a : option Args) : Prog ToolResponse :=
  args ← destructure "action" a;
  let action := arg args "action" in
  let name := arg args "name" in
  let steps := arg args "steps" in
  let trigger := arg args "trigger" in
  try_catch
    (if decide (action = JStr "create") then
       if negb (truthy name) || negb (truthy steps) then
         mret (error_response "❌ Name and steps required for workflow creation")
       else createWorkflow name steps trigger
     else if decide (action = JStr "list") then
       mret (text_response workflowList)
     else if decide (action = JStr "execute") then
       if negb (truthy name) then
         mret (error_response "❌ Workflow name required for execution")
       else
         match js_get_of predefinedWorkflows (toStr name) with
         | OwnOf workflowFn =>
           result ← workflowFn;
           mret (text_response (workflowExecuted name result))
         | InheritedOf k =>
           result ← call_inherited k;
           result ← printed (Some result);
           mret (text_response (workflowExecuted name result))
         | MissingOf =>
           mret (error_response (workflowNotFound name))
         end
     else
       mret (error_response ("❌ Unknown workflow action: " +:+ toStr action)))
    (fun error =>
       mret (error_response ("❌ Workflow action failed: " +:+ message error))).

(** *** The server with its collaborators in place *)

Definition callTool (request : ToolRequest) : Prog ToolResponse :=
  dispatch (RaycastAuth.service JSON_parse JSON_stringify call_inherited config)
           handleExtensionsTool handleWorkflowsTool request.

End Tools.

End ServerTools.

(** ** Vocabulary of the further statements *)

Import JsonDoc.

(** [leaves p Q E]: wherever the program returns, [Q] holds of what it
    returns, and wherever it throws, [E] holds of what it throws. *)
Fixpoint leaves {A : Type} (p : Prog A) (Q : A -> Prop) (E : JsError -> Prop)
  : Prop :=
  match p with
  | Ret a => Q a
  | Throw e => E e
  | Exec c k => forall o, leaves (k o) Q E
  end.

(** The uniform envelope: one text item, with or without [isError: true]. *)
Definition envelope (r : ToolResponse) : Prop :=
  exists t, r = text_response t \/ r = error_response t.

(** [first_rejected p plan]: the program starts with the first invocation of
    the plan, if there is one, and answers its rejection with an error
    response at once. *)
Definition first_rejected (p : Prog ToolResponse) (plan : list Call) : Prop :=
  match p, plan with
  | Exec c k, c' :: _ =>
    c = c' /\ forall e, exists t, k (Rejected e) = Ret (error_response t)
  | Exec _ _, [] => False
  | _, [] => True
  | _, _ :: _ => False
  end.

(** An invocation of [exec] without options. *)
Definition plain_exec (c : Call) : bool :=
  match c with
  | ExecCall _ None => true
  | _ => false
  end.

(** The environment variable behind each service of [serviceMap]. *)
Definition serviceEnv (env : RaycastAuth.ProcessEnv) (service : string)
  : option string :=
  if String.eqb service "raycast" then RaycastAuth.RAYCAST_API_KEY env
  else if String.eqb service "github" then RaycastAuth.GITHUB_TOKEN env
  else if String.eqb service "notion" then RaycastAuth.NOTION_TOKEN env
  else if String.eqb service "figma" then RaycastAuth.FIGMA_TOKEN env
  else if String.eqb service "slack" then RaycastAuth.SLACK_TOKEN env
  else if String.eqb service "linear" then RaycastAuth.LINEAR_TOKEN env
  else if String.eqb service "jira" then RaycastAuth.JIRA_TOKEN env
  else None.

(** A request to one tool. *)
Definition request_of (tool : string) (args : Args) : ToolRequest :=
  {| name := tool; arguments := Some args |}.

(** *** Sample parameters *)

(** The string of the one code unit U+D800, a high surrogate without its
    partner, as JSON text can hold it. *)
Definition lone_surrogate_text : string :=
  String "237"%char (String "160"%char (String "128"%char EmptyString)).


(** A parser that fails, and one that yields [v] whatever it reads. *)
Definition parse_fails : string -> JsError + Json :=
  fun _ => inl (new_Error "Unexpected end of JSON input").

Definition parse_as (v : Json) : string -> JsError + Json := fun _ => inr v.

(** A printer in the place of [JSON.stringify]. *)
Definition print_plain : Json -> string :=
  fun v => default "{}" (json_toStr v).

Definition no_member : string -> Prog Json :=
  fun k => Throw (new_Error (k +:+ " is not a function")).

Definition no_create : JsValue -> JsValue -> JsValue -> Prog ToolResponse :=
  fun _ _ _ => Ret (text_response EmptyString).

Definition no_credentials : Auth.AuthConfig :=
  {| Auth.raycastApiKey := None; Auth.raycastTeamId := None;
     Auth.githubToken := None; Auth.notionToken := None;
     Auth.figmaToken := None; Auth.slackToken := None;
     Auth.linearToken := None; Auth.jiraToken := None |}.

(** A configuration with credentials for GitHub and Slack. *)
Definition github_and_slack : Auth.AuthConfig :=
  {| Auth.raycastApiKey := None; Auth.raycastTeamId := None;
     Auth.githubToken := Some "ghp_one"; Auth.notionToken := None;
     Auth.figmaToken := None; Auth.slackToken := Some "xoxb-one";
     Auth.linearToken := None; Auth.jiraToken := None |}.

(** The same services configured, with other credentials and more. *)
Definition github_and_slack_too : Auth.AuthConfig :=
  {| Auth.raycastApiKey := None; Auth.raycastTeamId := Some "team";
     Auth.githubToken := Some "ghp_two"; Auth.notionToken := None;
     Auth.figmaToken := None; Auth.slackToken := Some "xoxb-two";
     Auth.linearToken := Some "lin"; Auth.jiraToken := Some "jira" |}.

(** The server of the samples. *)
Definition sample_server (config : Auth.AuthConfig) : ToolRequest -> Prog ToolResponse :=
  ServerTools.callTool parse_fails print_plain no_member no_create config.

(** *** The checks of index.ts *)

(** The cases of index.ts that return for a missing field. *)
Definition missing_required (tool : string) (args : Args) : bool :=
  let action := arg args "action" in
  if String.eqb tool "raycast_auth" then
    bool_decide (action ∈ [JStr "setup"; JStr "validate"; JStr "oauth"]) &&
    negb (truthy (arg args "service"))
  else if String.eqb tool "raycast_extensions" then
    (bool_decide (action = JStr "search") && negb (truthy (arg args "query"))) ||
    (bool_decide (action = JStr "install") && negb (truthy (arg args "extension_id"))) ||
    (bool_decide (action = JStr "publish") && negb (truthy (arg args "publish_path")))
  else if String.eqb tool "raycast_workflows" then
    (bool_decide (action = JStr "create") &&
     (negb (truthy (arg args "name")) || negb (truthy (arg args "steps")))) ||
    (bool_decide (action = JStr "execute") && negb (truthy (arg args "name")))
  else false.

(** The actions each [switch] of index.ts has a case for, and the word its
    [default] case uses. *)
Definition implemented (tool : string) : list string :=
  if String.eqb tool "raycast_auth" then ["setup"; "validate"; "audit"; "oauth"]
  else if String.eqb tool "raycast_extensions" then
    ["list"; "search"; "install"; "publish"; "update"]
  else ["create"; "list"; "execute"].

Definition action_kind (tool : string) : string :=
  if String.eqb tool "raycast_auth" then "auth"
  else if String.eqb tool "raycast_extensions" then "extension"
  else "workflow".

Definition index_tools : list string :=
  ["raycast_auth"; "raycast_extensions"; "raycast_workflows"].

(** A manifest field counts as given when it is truthy in [package.json]
    or in its [raycast] section. *)
Definition manifest_has (packageJson : Json) (field : string) : bool :=
  opt_truthy (json_field packageJson field) ||
  opt_truthy (json_field (ServerTools.raycastConfigOf (json_field packageJson "raycast"))
                         field).

(** * Properties *)

(** ** Running programs *)

Lemma run_bind {A B : Type} (p : Prog A) (f : A -> Prog B) env hist :
  run (bind p f) env hist =
  match run p env hist with
  | (Returned a, tr) => run (f a) env tr
  | (Thrown e, tr) => (Thrown e, tr)
  end.
Proof.
  revert hist. induction p as [a | e | c k IH]; intros hist; simpl; auto.
Qed.

Lemma run_try_catch {A : Type} (p : Prog A) (h : JsError -> Prog A) env hist :
  run (try_catch p h) env hist =
  match run p env hist with
  | (Returned a, tr) => (Returned a, tr)
  | (Thrown e, tr) => run (h e) env tr
  end.
Proof.
  revert hist. induction p as [a | e | c k IH]; intros hist; simpl; auto.
Qed.

(** A [try] block that returns is not affected by its [catch]. *)
Lemma run_try_catch_returned {A : Type} (p : Prog A) h env hist a tr :
  run p env hist = (Returned a, tr) ->
  run (try_catch p h) env hist = (Returned a, tr).
Proof. intros H. rewrite run_try_catch, H. reflexivity. Qed.

(** Reduction of the program structure, leaving the payloads folded. *)
Ltac prog_cbn :=
  cbn [run bind try_catch mbind mret Prog_bind Prog_ret destructure
       execAsync execAsync_opts triggerRaycastURL openRaycast str_method
       truthy negb andb name arguments fst snd stdout stderr code message].

(** The [switch] of [handleToolCall], one case at a time. *)
Ltac route :=
  unfold handleToolCall; cbn [name arguments];
  repeat (case_decide; [discriminate |]);
  first [ case_decide; [reflexivity | done] | reflexivity ].

Lemma handleToolCall_search a :
  handleToolCall {| name := "raycast_search"; arguments := a |} =
  try_catch (handleRaycastSearch a) (toolCallCatch "raycast_search").
Proof. route. Qed.

Lemma handleToolCall_open a :
  handleToolCall {| name := "raycast_open"; arguments := a |} =
  try_catch (handleRaycastOpen a) (toolCallCatch "raycast_open").
Proof. route. Qed.

Lemma handleToolCall_clipboard a :
  handleToolCall {| name := "raycast_clipboard"; arguments := a |} =
  try_catch (handleRaycastClipboard a) (toolCallCatch "raycast_clipboard").
Proof. route. Qed.

Lemma handleToolCall_shortcut a :
  handleToolCall {| name := "raycast_shortcut"; arguments := a |} =
  try_catch (handleRaycastShortcut a) (toolCallCatch "raycast_shortcut").
Proof. route. Qed.

Lemma handleToolCall_window a :
  handleToolCall {| name := "raycast_window"; arguments := a |} =
  try_catch (handleRaycastWindow a) (toolCallCatch "raycast_window").
Proof. route. Qed.

Lemma handleToolCall_system a :
  handleToolCall {| name := "raycast_system"; arguments := a |} =
  try_catch (handleRaycastSystem a) (toolCallCatch "raycast_system").
Proof. route. Qed.

Lemma includes_false_cons (x y : string) (l : list string) :
  includes (y :: l) x = false -> x <> y /\ includes l x = false.
Proof.
  unfold includes. intros H. apply bool_decide_eq_false in H.
  split.
  - intros ->. apply H. left.
  - apply bool_decide_eq_false. intros Hin. apply H. right. exact Hin.
Qed.

Lemma includes_true (x : string) (l : list string) :
  includes l x = true <-> x ∈ l.
Proof. unfold includes. apply bool_decide_eq_true. Qed.

(** ** The confirmation gate (C1) *)

Lemma destructive_command (f : string) :
  f ∈ destructive ->
  exists command,
    systemCommands !! f = Some command /\ command <> EmptyString /\
    exec command <> exec (confirmCommand (JStr f)).
Proof.
  unfold destructive. intros H.
  repeat (apply elem_of_cons in H as [-> | H]);
    [ eexists; split; [reflexivity | split; [discriminate |]];
      intros Heq; vm_compute in Heq; discriminate .. | ].
  apply elem_of_nil in H. contradiction.
Qed.

(** What [handleRaycastSystem] does for a destructive function with
    confirmation enabled, in every environment. *)
Lemma run_system_gated (args : Args) (f command : string) (env : Oracle) :
  arg args "function" = JStr f ->
  f ∈ destructive ->
  systemCommands !! f = Some command ->
  command <> EmptyString ->
  truthy (arg_default (JBool true) (arg args "confirm")) = true ->
  let dialog := exec (confirmCommand (JStr f)) in
  run (handleRaycastSystem (Some args)) env [] =
  match env [] dialog with
  | Resolved out _ =>
    if bool_decide (trim out = "confirmed") then
      match env [dialog] (exec command) with
      | Resolved _ _ => (Returned (systemSuccess (toUpperCase f)), [dialog; exec command])
      | Rejected e => (Returned (systemFailure e), [dialog; exec command])
      end
    else
      (Returned (text_response ("❌ System " +:+ f +:+ " cancelled by user")),
       [dialog])
  | Rejected e => (Returned (systemFailure e), [dialog])
  end.
Proof.
  intros Hf Hd Hc Hne Hconfirm dialog. subst dialog.
  unfold handleRaycastSystem. prog_cbn. rewrite Hf. cbn [toStr].
  unfold js_get. rewrite Hc. cbn [not_found].
  apply String.eqb_neq in Hne. rewrite Hne.
  unfold confirmGate. rewrite Hconfirm. cbn [is_destructive andb].
  apply includes_true in Hd. rewrite Hd. prog_cbn.
  unfold exec. destruct (env [] _) as [out err | e]; prog_cbn; [| reflexivity].
  destruct (bool_decide (trim out = "confirmed")); prog_cbn; [| reflexivity].
  cbn [execFound]. prog_cbn. cbn [app].
  destruct (env _ _) as [out' err' | e]; prog_cbn; reflexivity.
Qed.

(** When the dialog invocation itself fails, the command is not run either,
    and the [catch] clause answers with the error response. *)
Lemma system_dialog_failure (args : Args) (f : string) (env : Oracle) (e : JsError) :
  arg args "function" = JStr f ->
  f ∈ destructive ->
  truthy (arg_default (JBool true) (arg args "confirm")) = true ->
  env [] (exec (confirmCommand (JStr f))) = Rejected e ->
  run (handleRaycastSystem (Some args)) env [] =
  (Returned (systemFailure e), [exec (confirmCommand (JStr f))]).
Proof.
  intros Hf Hd Hconfirm Hrej.
  destruct (destructive_command f Hd) as (command & Hc & Hne & _).
  rewrite (run_system_gated args f command env Hf Hd Hc Hne Hconfirm).
  cbn zeta. rewrite Hrej. reflexivity.
Qed.

(** An array that holds the name of a function is no string: the table is
    read with the name, which the array prints as, while the test for the
    destructive functions compares the array itself and does not find it.
    The command is run with no dialog before it, whatever [confirm] is. *)
Lemma array_function_runs_unconfirmed
  (f command : string) (confirm : JsValue) (env : Oracle) :
  systemCommands !! f = Some command ->
  let args : Args := {[ "function" := JArr [JStr f]; "confirm" := confirm ]} in
  calls (handleToolCall {| name := "raycast_system"; arguments := Some args |}) env =
  [exec command].
Proof.
  intros Hc args. unfold calls. rewrite handleToolCall_system, run_try_catch.
  assert (Hf : arg args "function" = JArr [JStr f]).
  { unfold arg, args. rewrite lookup_insert_eq. reflexivity. }
  assert (Hne : command <> EmptyString).
  { unfold systemCommands in Hc. apply elem_of_list_to_map_2 in Hc.
    repeat (apply elem_of_cons in Hc as [[= -> ->] | Hc]);
      [ intros Heq; vm_compute in Heq; discriminate .. | ].
    apply elem_of_nil in Hc. contradiction. }
  apply String.eqb_neq in Hne.
  unfold handleRaycastSystem, confirmGate. prog_cbn. rewrite Hf.
  change (toStr (JArr [JStr f])) with f.
  unfold js_get. rewrite Hc. cbn [not_found is_destructive]. rewrite Hne.
  rewrite andb_false_r. prog_cbn. cbn [execFound]. prog_cbn. unfold exec.
  destruct (env [] _) as [out err | e]; prog_cbn; reflexivity.
Qed.

(** C1.  For a destructive system function requested with confirmation
    enabled, the user's denial is answered with an error response.  The
    dialog has the buttons Cancel and OK; pressing Cancel ends
    [display dialog] in the AppleScript error -128, so that [osascript] exits
    with status 1, whatever it writes to its standard error, and the
    invocation of the dialog is rejected, the [else] branch of the script
    that returns [cancelled] not being reached.  The function's command is
    not run, and the response is the one of the [catch] clause, with
    [isError: true] and the text of the failure, not the response without
    [isError] that reports the cancellation. *)
Theorem C1_cancelled_dialog_is_an_error
  (args : Args) (f stderr : string) (env : Oracle) :
  arg args "function" = JStr f ->
  includes destructive f = true ->
  truthy (arg_default (JBool true) (arg args "confirm")) = true ->
  let dialog := confirmCommand (JStr f) in
  env [] (exec dialog) = Rejected (command_failed dialog 1 stderr) ->
  let p := handleToolCall {| name := "raycast_system"; arguments := Some args |} in
  calls p env = [exec dialog] /\
  result p env =
    Returned {| content := [ {| type := "text";
                               text := "❌ System function failed: Command failed: " +:+
                                       dialog +:+ NL +:+ stderr |} ];
                isError := Some true |} /\
  result p env <>
    Returned {| content := [ {| type := "text";
                               text := "❌ System " +:+ f +:+ " cancelled by user" |} ];
                isError := None |}.
Proof.
  intros Hf Hd Hconfirm dialog Hrej p. apply includes_true in Hd.
  assert (H : run p env [] =
              (Returned (systemFailure (command_failed dialog 1 stderr)),
               [exec dialog])).
  { subst p. rewrite handleToolCall_system.
    apply run_try_catch_returned.
    apply (system_dialog_failure args f env); assumption. }
  unfold calls, result. rewrite H. cbn [fst snd].
  split; [reflexivity |]. split; [reflexivity | discriminate].
Qed.

Lemma C1_cancelled_dialog_witness :
  let dialog := confirmCommand (JStr "shutdown") in
  let p := handleToolCall
             {| name := "raycast_system";
                arguments := Some {[ "function" := JStr "shutdown" ]} |} in
  calls p cancelling = [exec dialog] /\
  result p cancelling =
    Returned {| content := [ {| type := "text";
                               text := "❌ System function failed: Command failed: " +:+
                                       dialog +:+ NL +:+ user_canceled |} ];
                isError := Some true |} /\
  result p cancelling <>
    Returned {| content := [ {| type := "text";
                               text := "❌ System " +:+ "shutdown" +:+ " cancelled by user" |} ];
                isError := None |}.
Proof.
  apply (C1_cancelled_dialog_is_an_error
           {[ "function" := JStr "shutdown" ]} "shutdown" user_canceled cancelling).
  - vm_compute. reflexivity.
  - reflexivity.
  - vm_compute. reflexivity.
  - reflexivity.
Defined.

(** ** The executor (C2) *)

(** [executeRaycastCommand] in every environment: one invocation with the
    bound of 60000 ms, and a result in each case. *)
Lemma run_executeRaycastCommand (command : string) (env : Oracle) :
  let c := ExecCall command (Some 60000%Z) in
  run (executeRaycastCommand command) env [] =
  (Returned
     match env [] c with
     | Resolved out err => {| stdout := out; stderr := err |}
     | Rejected e =>
       if decide (code e = JStr "ETIMEDOUT") then
         {| stdout := ""; stderr := timeout_message |}
       else
         {| stdout := "";
            stderr := if String.eqb (message e) "" then "Raycast command execution failed"
                      else message e |}
     end, [c]).
Proof.
  intros c. subst c. unfold executeRaycastCommand. prog_cbn.
  destruct (env [] _) as [out err | e]; prog_cbn; [reflexivity |].
  case_decide; prog_cbn; [reflexivity |].
  unfold js_or. cbn [truthy]. destruct (String.eqb (message e) ""); reflexivity.
Qed.

(** C2.  An invocation that outlives the bound of 60000 ms is not reported
    as timed out.  [exec] kills the process and rejects with an error whose
    [code] is [null], whose [killed] is [true] and whose [signal] is
    [SIGTERM]; the test of [executeRaycastCommand] for the code [ETIMEDOUT]
    does not hold of it, and the result is the one of an ordinary failure:
    an empty [stdout], the message of the error in [stderr] and not the
    explanatory text, and no [timedOut] property. *)
Theorem C2_timeout_is_reported_as_an_ordinary_failure
  (command stderr : string) (env : Oracle) :
  let c := ExecCall command (Some 60000%Z) in
  env [] c = Rejected (command_killed command stderr) ->
  exists r,
    run (executeRaycastCommand command) env [] = (Returned r, [c]) /\
    Tools.stdout r = "" /\
    Tools.stderr r = "Command failed: " +:+ command +:+ NL +:+ stderr /\
    Tools.stderr r <> timeout_message /\
    prop "timedOut" r = JUndefined /\
    prop "timedOut" r <> JBool true.
Proof.
  intros c Hrej. pose proof (run_executeRaycastCommand command env) as Hrun.
  cbn zeta in Hrun. fold c in Hrun. rewrite Hrej in Hrun.
  rewrite decide_False in Hrun by discriminate.
  eexists. split; [exact Hrun |].
  cbn [Tools.stdout Tools.stderr message command_killed].
  change (String.eqb ("Command failed: " +:+ command +:+ NL +:+ stderr) "")
    with false.
  repeat split; discriminate.
Qed.

Lemma C2_timeout_witness :
  exists r,
    run (executeRaycastCommand "sleep 90") timing_out [] =
    (Returned r, [ExecCall "sleep 90" (Some 60000%Z)]) /\
    Tools.stdout r = "" /\
    Tools.stderr r = "Command failed: " +:+ "sleep 90" +:+ NL +:+ "" /\
    Tools.stderr r <> timeout_message /\
    prop "timedOut" r = JUndefined /\
    prop "timedOut" r <> JBool true.
Proof.
  apply (C2_timeout_is_reported_as_an_ordinary_failure "sleep 90" "" timing_out).
  reflexivity.
Defined.

(** ** Unknown actions (C3) *)

(** The handlers with a table or a [default] case answer an unknown value
    with an error response that names it. *)
Lemma system_unknown_function (args : Args) (env : Oracle) :
  js_get systemCommands (toStr (arg args "function")) = Missing ->
  run (handleRaycastSystem (Some args)) env [] =
  (Returned (error_response ("❌ Unknown system function: " +:+
                             toStr (arg args "function"))), []).
Proof.
  intros H. unfold handleRaycastSystem. prog_cbn. rewrite H. reflexivity.
Qed.

Lemma window_unknown_action (args : Args) (env : Oracle) :
  windowScript (arg args "action") = None ->
  run (handleRaycastWindow (Some args)) env [] =
  (Returned (error_response ("❌ Window action failed: Unknown window action: " +:+
                             toStr (arg args "action"))), []).
Proof.
  intros H. unfold handleRaycastWindow. prog_cbn. rewrite H. reflexivity.
Qed.

Lemma shortcut_unknown (args : Args) (env : Oracle) :
  truthy (arg args "custom_key") = false ->
  truthy (arg args "shortcut") = true ->
  js_get shortcuts (toStr (arg args "shortcut")) = Missing ->
  run (handleRaycastShortcut (Some args)) env [] =
  (Returned (error_response ("❌ Unknown shortcut: " +:+
                             toStr (arg args "shortcut"))), []).
Proof.
  intros Hc Hs H. unfold handleRaycastShortcut, shortcutBranches. prog_cbn.
  rewrite Hc, Hs, H. reflexivity.
Qed.

(** The [switch] of the clipboard handler has no [default] case: an action
    that is a string outside of its four cases falls through it. *)
Lemma clipboard_unknown_action (args : Args) (action : string) (env : Oracle) :
  arg args "action" = JStr action ->
  includes ["show"; "clear"; "copy"; "paste"] action = false ->
  run (handleRaycastClipboard (Some args)) env [] =
  (Returned (text_response (clipboardMessage (toUpperCase action)
                              (arg args "text") (arg args "index"))), []).
Proof.
  intros Ha H.
  repeat (apply includes_false_cons in H; destruct H as [? H]).
  unfold handleRaycastClipboard, clipboardSwitch. prog_cbn. rewrite Ha.
  repeat (case_decide; [congruence |]).
  prog_cbn. reflexivity.
Qed.

(** C3.  At the request [raycast_clipboard] with the action [cut], which is
    none of show, clear, copy and paste, the handler makes no invocation and
    answers with a response without [isError] that reports the action as
    completed. *)
Theorem C3_clipboard_unknown_action_reports_success (env : Oracle) :
  let p := handleToolCall {| name := "raycast_clipboard";
                             arguments := Some {[ "action" := JStr "cut" ]} |} in
  calls p env = [] /\
  result p env =
    Returned {| content := [ {| type := "text";
                               text := "📋 Clipboard CUT" +:+ NL +:+ NL +:+
                                       "✅ Action completed successfully" |} ];
                isError := None |}.
Proof.
  intros p. subst p. unfold calls, result.
  rewrite handleToolCall_clipboard.
  assert (Ha : arg ({[ "action" := JStr "cut" ]} : Args) "action" = JStr "cut")
    by (vm_compute; reflexivity).
  rewrite (run_try_catch_returned _ _ _ _ _ _
             (clipboard_unknown_action _ "cut" env Ha eq_refl)).
  split; [reflexivity |]. vm_compute. reflexivity.
Qed.

(** ** Encoding of free text (C4) *)

Lemma hex_digit_unreserved (n : nat) :
  (n < 16)%nat -> uri_unreserved (hex_digit n) = true.
Proof.
  intros H. do 16 (destruct n as [| n]; [reflexivity |]). lia.
Qed.

Lemma percent_encode_safe (s : string) :
  all_chars uri_safe (percent_encode s) = true.
Proof.
  induction s as [| c r IH]; [reflexivity |].
  cbn [percent_encode]. destruct (uri_unreserved c) eqn:Hc.
  - cbn [all_chars]. unfold uri_safe at 1. rewrite Hc, IH. reflexivity.
  - cbn [all_chars]. rewrite IH.
    assert (Hn : (nat_of_ascii c < 256)%nat) by apply nat_ascii_bounded.
    unfold uri_safe.
    rewrite (hex_digit_unreserved (nat_of_ascii c / 16)),
            (hex_digit_unreserved (nat_of_ascii c mod 16)).
    + reflexivity.
    + apply Nat.mod_upper_bound. discriminate.
    + apply Nat.Div0.div_lt_upper_bound. exact Hn.
Qed.

(** In a URL the free text is percent-encoded: what [encodeURIComponent]
    yields is made of unreserved characters and [%] only. *)
Lemma encodeURIComponent_safe (s t : string) :
  encodeURIComponent s = Ret t -> all_chars uri_safe t = true.
Proof.
  unfold encodeURIComponent. destruct (well_formed s); [| discriminate].
  intros [= <-]. apply percent_encode_safe.
Qed.

(** In a command line the free text is put between the quotes as it is. *)
Lemma copyCommand_verbatim (text : string) :
  copyCommand (JStr text) = "echo " +:+ DQ +:+ text +:+ DQ +:+ " | pbcopy".
Proof. reflexivity. Qed.

(** C4.  At the [copy] request with the text ["; touch /tmp/pwned; echo "]
    (quotes included) the command line that is run has the text unescaped:
    its first quote closes the quotation opened by the handler. *)
Theorem C4_clipboard_text_is_not_escaped (env : Oracle) :
  let p := handleToolCall
             {| name := "raycast_clipboard";
                arguments := Some {[ "action" := JStr "copy";
                                     "text" := JStr quote_breaking_text ]} |} in
  calls p env =
  [exec ("echo " +:+ DQ +:+ DQ +:+ "; touch /tmp/pwned; echo " +:+ DQ +:+ DQ +:+
         " | pbcopy")].
Proof.
  intros p. subst p. unfold calls.
  rewrite handleToolCall_clipboard, run_try_catch.
  unfold handleRaycastClipboard, clipboardSwitch. prog_cbn.
  set (args := ({[ "action" := JStr "copy"; "text" := JStr quote_breaking_text ]} : Args)).
  assert (Ha : arg args "action" = JStr "copy") by (vm_compute; reflexivity).
  assert (Ht : arg args "text" = JStr quote_breaking_text) by (vm_compute; reflexivity).
  rewrite Ha, Ht.
  repeat (case_decide; [discriminate |]). case_decide; [| done].
  change (truthy (JStr quote_breaking_text)) with true. prog_cbn.
  destruct (env [] _) as [out err | e]; prog_cbn; reflexivity.
Qed.

(** ** Unknown tools (C5) *)

Lemma handleToolCall_unknown (request : ToolRequest) env hist :
  includes registered (name request) = false ->
  run (handleToolCall request) env hist =
  (Returned (error_response ("Unknown tool: " +:+ name request)), hist).
Proof.
  intros H. unfold registered in H.
  repeat (apply includes_false_cons in H; destruct H as [? H]).
  unfold handleToolCall.
  repeat (case_decide; [congruence |]).
  reflexivity.
Qed.

(** C5.  A request whose name is none of the registered tool names is
    answered with the error response [Unknown tool: <name>], and no external
    invocation is made: this holds whatever the Auth collaborator and the
    extension and workflow handlers are, and in every environment. *)
Theorem C5_unknown_tool_is_error_without_invocation
  (auth : AuthService)
  (handleExtensionsTool handleWorkflowsTool : option Args -> Prog ToolResponse)
  (request : ToolRequest) (env : Oracle) :
  includes registered (name request) = false ->
  let p := dispatch auth handleExtensionsTool handleWorkflowsTool request in
  result p env =
    Returned {| content := [ {| type := "text";
                               text := "Unknown tool: " +:+ name request |} ];
                isError := Some true |}
  /\ calls p env = [].
Proof.
  intros H p. subst p. unfold result, calls, dispatch.
  pose proof H as H'. unfold registered in H'.
  repeat (apply includes_false_cons in H'; destruct H' as [? H']).
  repeat (case_decide; [congruence |]).
  rewrite handleToolCall_unknown by exact H. split; reflexivity.
Qed.

Lemma C5_unknown_tool_witness :
  let p := dispatch no_auth no_handler no_handler
             {| name := "raycast_teleport"; arguments := None |} in
  result p silent =
    Returned {| content := [ {| type := "text";
                               text := "Unknown tool: raycast_teleport" |} ];
                isError := Some true |}
  /\ calls p silent = [].
Proof.
  exact (C5_unknown_tool_is_error_without_invocation no_auth no_handler
           no_handler {| name := "raycast_teleport"; arguments := None |}
           silent eq_refl).
Defined.

(** ** Required fields (C6) *)

(** The two instances the handlers check: no invocation is made. *)
Lemma auth_validate_without_service
  (auth : AuthService) (args : Args) (env : Oracle) :
  arg args "action" = JStr "validate" ->
  truthy (arg args "service") = false ->
  run (handleAuthTool auth (Some args)) env [] =
  (Returned (error_response "❌ Service parameter required for validation"), []).
Proof.
  intros Ha Hs. unfold handleAuthTool. prog_cbn. rewrite Ha, Hs.
  case_decide; [discriminate |]. case_decide; [| done]. reflexivity.
Qed.

Lemma clipboard_copy_without_text (args : Args) (env : Oracle) :
  arg args "action" = JStr "copy" ->
  truthy (arg args "text") = false ->
  run (handleRaycastClipboard (Some args)) env [] =
  (Returned (error_response "❌ Text is required for copy action"), []).
Proof.
  intros Ha Ht. unfold handleRaycastClipboard, clipboardSwitch. prog_cbn.
  rewrite Ha, Ht.
  repeat (case_decide; [discriminate |]). case_decide; [| done]. reflexivity.
Qed.

(** C6.  The schema of [raycast_search] declares [query] as required; at a
    request without it the handler makes an external invocation all the
    same, with the text [undefined] for the query, in every environment, and
    where the invocations succeed the response has no [isError]. *)
Theorem C6_search_without_query_is_executed
  (auth : AuthService)
  (handleExtensionsTool handleWorkflowsTool : option Args -> Prog ToolResponse) :
  let p := dispatch auth handleExtensionsTool handleWorkflowsTool
             {| name := "raycast_search"; arguments := Some ∅ |} in
  Tools.required !! "raycast_search" = Some ["query"] /\
  (forall env : Oracle,
      exists rest,
        calls p env =
        open_url "raycast://script-commands/search?query=undefined" :: rest) /\
  result p silent =
    Returned {| content := [ {| type := "text";
                               text := "🔍 Raycast Search: " +:+ DQ +:+ "undefined" +:+ DQ +:+
                                       NL +:+ NL +:+
                                       "✅ Raycast opened with search query" |} ];
                isError := None |}.
Proof.
  intros p. subst p. unfold dispatch. cbn [name arguments].
  repeat (case_decide; [discriminate |]).
  rewrite handleToolCall_search.
  split; [reflexivity |]. split.
  - intros env. unfold calls. rewrite run_try_catch.
    unfold handleRaycastSearch. prog_cbn.
    change (arg ∅ "query") with JUndefined.
    change (searchURL JUndefined)
      with (@Ret string "raycast://script-commands/search?query=undefined").
    prog_cbn.
    fold (exec ("open " +:+ DQ +:+ "raycast://script-commands/search?query=undefined" +:+ DQ)).
    fold (open_url "raycast://script-commands/search?query=undefined").
    set (c := open_url _).
    destruct (env [] c) as [out err | e]; prog_cbn.
    + cbn [app]. set (c2 := ExecCall _ _).
      destruct (env [c] c2) as [out' err' | e]; prog_cbn;
        eexists; reflexivity.
    + eexists; reflexivity.
  - vm_compute. reflexivity.
Qed.

(** ** Custom key combinations (C7) *)

Lemma split_token_then (x r : string) :
  no_plus x = true ->
  split "+" (x +:+ "+" +:+ r) = x :: split "+" r.
Proof.
  induction x as [| c x IH]; intros H; [reflexivity |].
  cbn in H. apply andb_true_iff in H as [Hc Hx].
  apply negb_true_iff in Hc.
  change (String c x +:+ "+" +:+ r) with (String c (x +:+ "+" +:+ r)).
  cbn [split]. rewrite Hc, (IH Hx). reflexivity.
Qed.

Lemma split_token (x : string) :
  no_plus x = true -> split "+" x = [x].
Proof.
  induction x as [| c x IH]; intros H; [reflexivity |].
  cbn in H. apply andb_true_iff in H as [Hc Hx].
  apply negb_true_iff in Hc.
  cbn [split]. rewrite Hc, (IH Hx). reflexivity.
Qed.

(** ** Lower-casing and the plus sign *)

Lemma append_assoc (a b c : string) : (a +:+ b) +:+ c = a +:+ (b +:+ c).
Proof.
  induction a as [| x a IH]; [reflexivity |].
  change ((String x a +:+ b) +:+ c) with (String x ((a +:+ b) +:+ c)).
  rewrite IH. reflexivity.
Qed.

Lemma step_plus (st : Pending) :
  step st "+" = ((flush st ++ [Cp 43])%list, None).
Proof. destruct st as [[lead conts] |]; reflexivity. Qed.

(** Decoding does not look across a plus sign. *)
Lemma decode_from_plus (st : Pending) (a b : string) :
  decode_from st (a +:+ String "+" b) =
  (decode_from st a ++ Cp 43 :: decode b)%list.
Proof.
  revert st. induction a as [| c a IH]; intros st.
  - change (EmptyString +:+ String "+" b) with (String "+" b).
    cbn [decode_from]. rewrite step_plus. rewrite <- app_assoc. reflexivity.
  - change (String c a +:+ String "+" b) with (String c (a +:+ String "+" b)).
    cbn [decode_from]. destruct (step st c) as [out st'].
    rewrite IH, app_assoc. reflexivity.
Qed.

Lemma cased_ahead_plus (xs ys : list Symbol) :
  cased_ahead (xs ++ Cp 43 :: ys) = cased_ahead xs.
Proof.
  induction xs as [| x xs IH]; [reflexivity |].
  cbn [app cased_ahead]. rewrite IH. reflexivity.
Qed.

(** The plus sign is neither cased nor case-ignorable: the context of a
    sigma ends at it, on both sides. *)
Lemma lower_from_plus (before : bool) (xs ys : list Symbol) :
  lower_from before (xs ++ Cp 43 :: ys) =
  (lower_from before xs ++ Cp 43 :: lower_from false ys)%list.
Proof.
  revert before. induction xs as [| x xs IH]; intros before.
  - reflexivity.
  - cbn [app lower_from]. rewrite IH, cased_ahead_plus, <- app_assoc. reflexivity.
Qed.

Lemma encode_app (xs ys : list Symbol) :
  encode (xs ++ ys) = encode xs +:+ encode ys.
Proof.
  induction xs as [| x xs IH]; [reflexivity |].
  cbn [app encode]. rewrite IH, append_assoc. reflexivity.
Qed.

Lemma toLowerCase_plus (a b : string) :
  toLowerCase (a +:+ String "+" b) = toLowerCase a +:+ String "+" (toLowerCase b).
Proof.
  unfold toLowerCase, decode.
  rewrite decode_from_plus, lower_from_plus, encode_app. reflexivity.
Qed.

(** *** No plus sign comes out of a string without one *)

Lemma no_plus_app (a b : string) :
  no_plus (a +:+ b) = no_plus a && no_plus b.
Proof.
  induction a as [| c a IH]; [reflexivity |].
  change (String c a +:+ b) with (String c (a +:+ b)).
  cbn [no_plus all_chars]. fold (no_plus (a +:+ b)). fold (no_plus a).
  rewrite IH, andb_assoc. reflexivity.
Qed.

Lemma byte_plus (c : ascii) : byte c = 43%N -> c = "+"%char.
Proof.
  intros H. rewrite <- (ascii_N_embedding c). unfold byte in H. rewrite H. reflexivity.
Qed.

Lemma not_plus_eqb (c : ascii) : c <> "+"%char -> negb (Ascii.eqb c "+") = true.
Proof. intros H. apply negb_true_iff, Ascii.eqb_neq. exact H. Qed.

Lemma no_plus_byte_of (n : N) :
  (n < 256)%N -> n <> 43%N -> no_plus (byte_of n) = true.
Proof.
  intros Hlt Hne. unfold byte_of, no_plus. cbn [all_chars].
  rewrite not_plus_eqb; [reflexivity |].
  intros Heq. apply Hne. rewrite <- (N_ascii_embedding n Hlt), Heq. reflexivity.
Qed.

Lemma no_plus_encode1 (u : Symbol) : plusfree u -> no_plus (encode1 u) = true.
Proof.
  destruct u as [n | b]; cbn [plusfree encode1]; intros H.
  - repeat match goal with
           | |- context [(?a <? ?b)%N] => destruct (N.ltb_spec a b)
           end;
      rewrite ?no_plus_app, ?andb_true_iff; repeat split;
      try reflexivity;
      apply no_plus_byte_of;
      try (match goal with
           | |- (?c + ?x)%N <> 43%N => generalize x; intros; lia
           end);
      try (pose proof (N.mod_lt n 64 ltac:(discriminate));
           pose proof (N.mod_lt (n / 64) 64 ltac:(discriminate));
           pose proof (N.mod_lt (n / 4096) 64 ltac:(discriminate));
           pose proof (N.Div0.div_lt_upper_bound n 64 32);
           pose proof (N.Div0.div_lt_upper_bound n 4096 16);
           pose proof (N.Div0.div_lt_upper_bound n 262144 5);
           lia).
  - unfold no_plus. cbn [all_chars]. rewrite not_plus_eqb by exact H. reflexivity.
Qed.

Lemma no_plus_encode (l : list Symbol) :
  Forall plusfree l -> no_plus (encode l) = true.
Proof.
  induction 1 as [| u l Hu Hl IH]; [reflexivity |].
  cbn [encode]. rewrite no_plus_app, (no_plus_encode1 u Hu), IH. reflexivity.
Qed.

Lemma mapped_above (table : list (N * N * N * N)) (b n t : N) :
  forallb (fun '(_, _, _, to) => (b <? to)%N) table = true ->
  mapped table n = Some t -> (b < t)%N.
Proof.
  intros Hall. unfold mapped.
  destruct (List.find _ table) as [[[[lo hi] st] to] |] eqn:Hf; [| discriminate].
  intros [= <-]. apply find_some in Hf as [Hin _].
  rewrite forallb_forall in Hall. specialize (Hall _ Hin). cbn in Hall.
  apply N.ltb_lt in Hall. lia.
Qed.

Lemma plusfree_lower1 (n : N) :
  n <> 43%N -> Forall plusfree (map Cp (lower1 n)).
Proof.
  intros Hn. unfold lower1. destruct (n =? 304)%N.
  - repeat constructor; discriminate.
  - destruct (mapped lower_table n) as [t |] eqn:Hm.
    + pose proof (mapped_above lower_table 43 n t eq_refl Hm).
      repeat constructor. cbn. lia.
    + repeat constructor. exact Hn.
Qed.

Lemma plusfree_lower_from (before : bool) (l : list Symbol) :
  Forall plusfree l -> Forall plusfree (lower_from before l).
Proof.
  intros H. revert before. induction H as [| u l Hu Hl IH]; intros before.
  - constructor.
  - cbn [lower_from]. apply Forall_app. split; [| apply IH].
    destruct u as [n | b]; [| repeat constructor; exact Hu].
    destruct (n =? 931)%N.
    + repeat constructor. cbn. destruct (before && _); discriminate.
    + apply plusfree_lower1. exact Hu.
Qed.

Lemma plusfree_flush (st : Pending) :
  pending_plusfree st -> Forall plusfree (flush st).
Proof.
  destruct st as [[lead conts] |]; cbn; [| constructor].
  intros [Hl Hc]. constructor; [exact Hl |].
  apply Forall_map. exact Hc.
Qed.

Lemma seq_ok_value (lead : ascii) (conts : list ascii) :
  seq_ok lead conts = true -> (128 <= seq_value lead conts)%N.
Proof.
  unfold seq_ok. destruct (length conts) as [| [| [| [| k]]]]; try discriminate.
  - intros H. apply N.leb_le in H. exact H.
  - intros H. apply N.leb_le in H. lia.
  - intros H. apply andb_true_iff in H as [H _]. apply N.leb_le in H. lia.
Qed.

Lemma plusfree_start (c : ascii) :
  c <> "+"%char ->
  Forall plusfree (fst (start c)) /\ pending_plusfree (snd (start c)).
Proof.
  intros Hc. unfold start. destruct (byte c <? 128)%N.
  - split; [| exact I]. repeat constructor. cbn. intros H. apply Hc, byte_plus, H.
  - destruct (0 <? follow c)%nat; cbn.
    + split; [constructor | split; [exact Hc | constructor]].
    + split; [repeat constructor; exact Hc | exact I].
Qed.

Lemma plusfree_step (st : Pending) (c : ascii) :
  pending_plusfree st -> c <> "+"%char ->
  Forall plusfree (fst (step st c)) /\ pending_plusfree (snd (step st c)).
Proof.
  intros Hst Hc. destruct st as [[lead conts] |]; cbn [step].
  - destruct Hst as [Hl Hcs].
    assert (Hcs' : Forall (fun c => c <> "+"%char) (conts ++ [c])).
    { apply Forall_app. split; [exact Hcs | repeat constructor; exact Hc]. }
    destruct (is_cont c).
    + destruct (length (conts ++ [c]) =? follow lead)%nat; cbn [fst snd].
      * split; [| exact I].
        destruct (seq_ok lead (conts ++ [c])) eqn:Hok.
        -- apply seq_ok_value in Hok. repeat constructor. cbn. lia.
        -- apply (plusfree_flush (Some (lead, (conts ++ [c])%list))).
           split; assumption.
      * split; [constructor | split; assumption].
    + destruct (plusfree_start c Hc) as [H1 H2].
      destruct (start c) as [out st']. cbn [fst snd] in *.
      split; [| exact H2]. apply Forall_app. split; [| exact H1].
      apply (plusfree_flush (Some (lead, conts))). split; assumption.
  - apply plusfree_start. exact Hc.
Qed.

Lemma plusfree_decode_from (st : Pending) (s : string) :
  pending_plusfree st -> no_plus s = true -> Forall plusfree (decode_from st s).
Proof.
  revert st. induction s as [| c s IH]; intros st Hst Hs.
  - apply plusfree_flush. exact Hst.
  - cbn [no_plus all_chars] in Hs. apply andb_true_iff in Hs as [Hc Hs].
    apply negb_true_iff, Ascii.eqb_neq in Hc.
    cbn [decode_from]. destruct (plusfree_step st c Hst Hc) as [H1 H2].
    destruct (step st c) as [out st']. cbn [fst snd] in *.
    apply Forall_app. split; [exact H1 |]. apply IH; assumption.
Qed.

Lemma no_plus_toLowerCase (s : string) :
  no_plus s = true -> no_plus (toLowerCase s) = true.
Proof.
  intros H. unfold toLowerCase, decode.
  apply no_plus_encode, plusfree_lower_from, plusfree_decode_from; [exact I | exact H].
Qed.

(** A string is a token without plus sign, or one followed by a plus sign
    and the rest. *)
Lemma first_token (s : string) :
  no_plus s = true \/
  exists x r, s = x +:+ String "+" r /\ no_plus x = true /\
              split "+" s = x :: split "+" r.
Proof.
  induction s as [| c s IH]; [left; reflexivity |].
  destruct (Ascii.eqb c "+") eqn:Hc.
  - right. apply Ascii.eqb_eq in Hc. subst c.
    exists EmptyString, s. repeat split.
  - destruct IH as [H | (x & r & -> & Hx & Hs)].
    + left. cbn [no_plus all_chars]. rewrite Hc. exact H.
    + right. exists (String c x), r. split; [reflexivity |]. split.
      * cbn [no_plus all_chars]. rewrite Hc. exact Hx.
      * apply (split_token_then (String c x) r).
        cbn [no_plus all_chars]. rewrite Hc. exact Hx.
Qed.

(** Lower-casing the whole string and then splitting it, as the handler
    does, gives the lower-cased tokens. *)
Lemma split_toLowerCase (s : string) :
  split "+" (toLowerCase s) = map toLowerCase (split "+" s).
Proof.
  remember (String.length s) as n eqn:Hn. revert s Hn.
  induction n as [n IH] using lt_wf_ind. intros s Hn.
  destruct (first_token s) as [H | (x & r & -> & Hx & Hs)].
  - rewrite (split_token s H). cbn [map].
    apply split_token, no_plus_toLowerCase, H.
  - rewrite Hs, toLowerCase_plus. cbn [map].
    change (toLowerCase x +:+ String "+" (toLowerCase r))
      with (toLowerCase x +:+ "+" +:+ toLowerCase r).
    rewrite (split_token_then _ _ (no_plus_toLowerCase x Hx)).
    f_equal. apply (IH (String.length r)); [| reflexivity].
    subst n. clear. induction x as [| c x IHx]; simpl in *; lia.
Qed.

(** Splitting undoes joining, for tokens without [+]. *)
Lemma split_join (x : string) (l : list string) :
  forallb no_plus (x :: l) = true ->
  split "+" (join "+" (x :: l)) = x :: l.
Proof.
  revert x. induction l as [| y l IH]; intros x H.
  - cbn in H. rewrite andb_true_r in H. apply split_token. exact H.
  - cbn [forallb] in H. apply andb_true_iff in H as [Hx Hl].
    change (join "+" (x :: y :: l)) with (x +:+ "+" +:+ join "+" (y :: l)).
    rewrite (split_token_then _ _ Hx), (IH y Hl). reflexivity.
Qed.

Lemma parseKeys_join (x : string) (l : list string) :
  forallb no_plus (x :: l) = true ->
  parseKeys (join "+" (x :: l)) = map normalize (x :: l).
Proof.
  intros H. unfold parseKeys.
  rewrite split_toLowerCase, (split_join x l H), map_map. reflexivity.
Qed.

Lemma filter_modifiers (mods : list string) (key : string) :
  forallb (fun m => includes modifierNames (normalize m)) mods = true ->
  includes modifierNames (normalize key) = false ->
  List.filter (fun k => includes modifierNames k)
              (map normalize mods ++ [normalize key]) = map normalize mods.
Proof.
  intros Hm Hk. induction mods as [| m mods IH]; cbn.
  - rewrite Hk. reflexivity.
  - cbn in Hm. apply andb_true_iff in Hm as [H1 H2].
    rewrite H1, (IH H2). reflexivity.
Qed.

Lemma find_key (mods : list string) (key : string) :
  forallb (fun m => includes modifierNames (normalize m)) mods = true ->
  includes modifierNames (normalize key) = false ->
  List.find (fun k => negb (includes modifierNames k))
            (map normalize mods ++ [normalize key]) = Some (normalize key).
Proof.
  intros Hm Hk. induction mods as [| m mods IH]; cbn.
  - rewrite Hk. reflexivity.
  - cbn in Hm. apply andb_true_iff in Hm as [H1 H2].
    rewrite H1. cbn. exact (IH H2).
Qed.

(** The modifiers appear once each, in the order of the four tests. *)
Lemma modifierString_ordered (modifiers : list string) :
  modifierString modifiers =
  join ", " (map applescriptModifier
               (List.filter (fun m => includes modifiers m) modifierNames)).
Proof.
  unfold modifierString, modifierNames. cbn [List.filter].
  destruct (includes modifiers "cmd"), (includes modifiers "shift"),
           (includes modifiers "alt"), (includes modifiers "ctrl");
    reflexivity.
Qed.

Lemma forallb_and_split {A : Type} (f g : A -> bool) (l : list A) :
  forallb (fun x => f x && g x) l = true ->
  forallb f l = true /\ forallb g l = true.
Proof.
  induction l as [| a l IH]; cbn; [auto |].
  rewrite !andb_true_iff. intros [[Hf Hg] Hl].
  destruct (IH Hl) as [IHf IHg]. auto.
Qed.

Lemma forallb_snoc {A : Type} (f : A -> bool) (l : list A) (a : A) :
  forallb f l = true -> f a = true -> forallb f (l ++ [a]) = true.
Proof.
  intros Hl Ha. rewrite forallb_app, Hl. cbn. rewrite Ha. reflexivity.
Qed.

(** The script that is run for a custom key. *)
Lemma run_custom_key (args : Args) (custom_key : string) (env : Oracle) :
  arg args "custom_key" = JStr custom_key ->
  custom_key <> "" ->
  calls (handleRaycastShortcut (Some args)) env =
  [exec (osascript (shortcutScript custom_key))].
Proof.
  intros Hk Hne. unfold calls, handleRaycastShortcut, shortcutBranches.
  prog_cbn. rewrite Hk. cbn [truthy].
  apply String.eqb_neq in Hne. rewrite Hne. prog_cbn.
  destruct (env [] _) as [out err | e]; prog_cbn; reflexivity.
Qed.

(** C7.  For a key combination made of modifier tokens (cmd, shift, alt,
    ctrl, in any case and with white space around them) and one other token,
    joined by [+]: the tokens are split at [+], lower-cased and trimmed; the
    script names the lower-cased, trimmed other token as the key, and exactly
    the modifiers present among the tokens, once each, by their AppleScript
    names and in the order command, shift, option, control; and that script
    is what the handler runs. *)
Theorem C7_custom_key_payload (mods : list string) (key : string) :
  forallb (fun m => no_plus m && includes modifierNames (normalize m)) mods = true ->
  no_plus key = true ->
  includes modifierNames (normalize key) = false ->
  let custom_key := join "+" (mods ++ [key])%list in
  parseKeys custom_key = (map normalize mods ++ [normalize key])%list /\
  shortcutScript custom_key =
    "tell application " +:+ DQ +:+ "System Events" +:+ DQ +:+ " to keystroke " +:+
    DQ +:+ normalize key +:+ DQ +:+ " using {" +:+
    join ", " (map applescriptModifier
                 (List.filter (fun m => includes (map normalize mods) m)
                              modifierNames)) +:+ "}" /\
  (custom_key <> "" ->
   forall (args : Args) (env : Oracle),
     arg args "custom_key" = JStr custom_key ->
     calls (handleRaycastShortcut (Some args)) env =
     [exec (osascript (shortcutScript custom_key))]).
Proof.
  intros Hmods Hkey Hnot custom_key.
  apply forallb_and_split in Hmods as [Hplus Hmod].
  assert (Hparse : parseKeys custom_key = (map normalize mods ++ [normalize key])%list).
  { subst custom_key.
    pose proof (forallb_snoc _ _ _ Hplus Hkey) as Hall.
    destruct (mods ++ [key])%list as [| x l] eqn:Hl.
    - destruct mods; discriminate.
    - rewrite (parseKeys_join x l Hall), <- Hl, map_app. reflexivity. }
  split; [exact Hparse |]. split.
  - unfold shortcutScript. cbn zeta. rewrite Hparse.
    rewrite (filter_modifiers mods key Hmod Hnot), (find_key mods key Hmod Hnot).
    rewrite modifierString_ordered. reflexivity.
  - intros Hne args env Hk. exact (run_custom_key args custom_key env Hk Hne).
Qed.

Lemma C7_custom_key_witness :
  let custom_key := join "+" (["Cmd"; " shift "; "cmd"] ++ ["É"])%list in
  parseKeys custom_key = (map normalize ["Cmd"; " shift "; "cmd"] ++ [normalize "É"])%list /\
  shortcutScript custom_key =
    "tell application " +:+ DQ +:+ "System Events" +:+ DQ +:+ " to keystroke " +:+
    DQ +:+ normalize "É" +:+ DQ +:+ " using {" +:+
    join ", " (map applescriptModifier
                 (List.filter (fun m => includes (map normalize ["Cmd"; " shift "; "cmd"]) m)
                              modifierNames)) +:+ "}" /\
  (custom_key <> "" ->
   forall (args : Args) (env : Oracle),
     arg args "custom_key" = JStr custom_key ->
     calls (handleRaycastShortcut (Some args)) env =
     [exec (osascript (shortcutScript custom_key))]).
Proof.
  apply (C7_custom_key_payload ["Cmd"; " shift "; "cmd"] "É"); reflexivity.
Defined.

Example custom_key_script :
  shortcutScript "Cmd+ shift +cmd+É" =
  "tell application " +:+ DQ +:+ "System Events" +:+ DQ +:+ " to keystroke " +:+
  DQ +:+ "é" +:+ DQ +:+ " using {command down, shift down}".
Proof. reflexivity. Qed.

(** ** Resolution depends on the request alone (C8) *)

Lemma follows_mono {A : Type} (p : Prog A) plan
  (Q Q' : A -> list Call -> Prop) (E E' : JsError -> list Call -> Prop) :
  (forall a r, Q a r -> Q' a r) ->
  (forall e r, E e r -> E' e r) ->
  follows p plan Q E -> follows p plan Q' E'.
Proof.
  intros HQ HE. revert plan.
  induction p as [a | e | c k IH]; intros plan; cbn; auto.
  destruct plan as [| c' rest]; [auto |].
  intros [-> H]. split; [reflexivity |]. intros o. apply IH, H.
Qed.

Lemma follows_bind {A B : Type} (p : Prog A) (f : A -> Prog B) plan Q E :
  follows p plan (fun a r => follows (f a) r Q E) E ->
  follows (bind p f) plan Q E.
Proof.
  revert plan. induction p as [a | e | c k IH]; intros plan; cbn; auto.
  destruct plan as [| c' rest]; [auto |].
  intros [-> H]. split; [reflexivity |]. intros o. apply IH, H.
Qed.

Lemma follows_try_catch {A : Type} (p : Prog A) (h : JsError -> Prog A) plan Q E :
  follows p plan Q (fun e r => follows (h e) r Q E) ->
  follows (try_catch p h) plan Q E.
Proof.
  revert plan. induction p as [a | e | c k IH]; intros plan; cbn; auto.
  destruct plan as [| c' rest]; [auto |].
  intros [-> H]. split; [reflexivity |]. intros o. apply IH, H.
Qed.

(** A program that follows a plan makes, in every environment, the
    invocations of an initial segment of the plan. *)
Lemma follows_run {A : Type} (p : Prog A) plan Q E env hist :
  follows p plan Q E ->
  exists done rest,
    plan = (done ++ rest)%list /\ snd (run p env hist) = (hist ++ done)%list.
Proof.
  revert plan hist. induction p as [a | e | c k IH]; intros plan hist H.
  - exists [], plan. split; [reflexivity |]. cbn. rewrite app_nil_r. reflexivity.
  - exists [], plan. split; [reflexivity |]. cbn. rewrite app_nil_r. reflexivity.
  - destruct plan as [| c' rest]; [contradiction |].
    destruct H as [<- H].
    destruct (IH (env hist c) rest (hist ++ [c])%list (H _)) as (d & r & -> & Hrun).
    exists (c :: d), r. split; [reflexivity |].
    cbn [run]. rewrite Hrun, <- app_assoc. reflexivity.
Qed.

Lemma follows_calls {A : Type} (p : Prog A) plan Q E env :
  follows p plan Q E -> calls p env `prefix_of` plan.
Proof.
  intros H. destruct (follows_run p plan Q E env [] H) as (d & r & -> & Hrun).
  unfold calls. rewrite Hrun. exists r. reflexivity.
Qed.

Ltac follows_cbn :=
  cbn [follows bind try_catch mbind mret Prog_bind Prog_ret destructure
       execAsync execAsync_opts triggerRaycastURL openRaycast str_method
       execFound app any negb andb].

Ltac follows_step :=
  match goal with
  | |- True => exact I
  | |- any _ _ => exact I
  | |- _ /\ _ => split
  | |- forall _, _ => intro
  | |- _ = _ => reflexivity
  | |- context [match ?o with Resolved _ _ => _ | Rejected _ => _ end] =>
    destruct o
  | |- context [match ?o with Some _ => _ | None => _ end] =>
    destruct o eqn:?
  | |- context [match ?o with Own _ => _ | Inherited _ => _ | Missing => _ end] =>
    destruct o eqn:?
  | |- context [truthy ?v] => destruct (truthy v) eqn:?
  | |- context [if ?b then _ else _] => destruct b eqn:?
  | |- context [match ?v with JUndefined => _ | _ => _ end] => destruct v eqn:?
  end; follows_cbn.

Ltac follows_solve := follows_cbn; repeat follows_step.

Lemma follows_search (args : Args) :
  follows (handleRaycastSearch (Some args)) (resolveSearch args) any any.
Proof.
  unfold handleRaycastSearch, resolveSearch, searchURL, encodeURIComponent, open_url, exec. follows_solve.
Qed.

Lemma follows_open (args : Args) :
  follows (handleRaycastOpen (Some args)) (resolveOpen args) any any.
Proof.
  unfold handleRaycastOpen, resolveOpen, openURL, encodeURIComponent, open_url, exec. follows_solve.
Qed.

Lemma follows_clipboard (args : Args) :
  follows (handleRaycastClipboard (Some args)) (resolveClipboard args) any any.
Proof.
  unfold handleRaycastClipboard, clipboardSwitch, resolveClipboard, open_url, exec,
    str_method.
  follows_solve.
Qed.

Lemma follows_shortcut (args : Args) :
  follows (handleRaycastShortcut (Some args)) (resolveShortcut args) any any.
Proof.
  unfold handleRaycastShortcut, shortcutBranches, resolveShortcut, open_url, exec,
    str_method.
  follows_solve.
Qed.

Lemma follows_window (args : Args) :
  follows (handleRaycastWindow (Some args)) (resolveWindow args) any any.
Proof.
  unfold handleRaycastWindow, resolveWindow, open_url, exec, str_method.
  follows_solve.
Qed.

Lemma follows_system (args : Args) :
  follows (handleRaycastSystem (Some args)) (resolveSystem args) any any.
Proof.
  unfold handleRaycastSystem, confirmGate, resolveSystem, requiresConfirmation,
    open_url, exec, str_method.
  follows_solve.
Qed.

Lemma follows_handleToolCall (request : ToolRequest) :
  follows (handleToolCall request) (resolve request) any any.
Proof.
  destruct request as [tool a]. unfold handleToolCall, resolve.
  cbn [name arguments]. apply follows_try_catch.
  assert (Hcatch : forall (e : JsError) (r : list Call),
             @any JsError e r ->
             follows (mret (error_response
                              ("Error executing " +:+ tool +:+ ": " +:+ message e)))
                     r (@any ToolResponse) (@any JsError))
    by (intros; exact I).
  destruct a as [args |].
  - repeat (case_decide;
            [ eapply follows_mono; [intros ? ? H'; exact H' | exact Hcatch |];
              first [ apply follows_search | apply follows_open
                    | apply follows_clipboard | apply follows_shortcut
                    | apply follows_window | apply follows_system ] |]).
    exact I.
  - repeat (case_decide; [exact I |]). exact I.
Qed.

(** C8.  The commands a request resolves to are a function of the request
    alone ([resolve]: the payload strings, with the confirmation dialog
    before the command where confirmation is required): in every
    environment, whatever the earlier invocations answered, the invocations
    made for the request are an initial segment of that one sequence.  The
    same request therefore resolves to the same commands each time. *)
Theorem C8_resolution_depends_on_request_only
  (request : ToolRequest) (env : Oracle) :
  calls (handleToolCall request) env `prefix_of` resolve request.
Proof.
  apply (follows_calls _ _ any any). apply follows_handleToolCall.
Qed.

(** Two runs of a request agree on every invocation that both make. *)
Corollary resolution_agrees (request : ToolRequest) (env1 env2 : Oracle)
  (n : nat) (c1 c2 : Call) :
  calls (handleToolCall request) env1 !! n = Some c1 ->
  calls (handleToolCall request) env2 !! n = Some c2 ->
  c1 = c2.
Proof.
  intros H1 H2.
  destruct (follows_calls _ _ any any env1 (follows_handleToolCall request)) as [r1 E1].
  destruct (follows_calls _ _ any any env2 (follows_handleToolCall request)) as [r2 E2].
  assert (L1 : resolve request !! n = Some c1)
    by (rewrite E1; apply lookup_app_l_Some; exact H1).
  assert (L2 : resolve request !! n = Some c2)
    by (rewrite E2; apply lookup_app_l_Some; exact H2).
  congruence.
Qed.

(** ** Credentials (C9) *)

Lemma credential_truthy_spec (c : option string) :
  Auth.credential_truthy c = true <-> exists s, c = Some s /\ s <> "".
Proof.
  destruct c as [s |]; cbn.
  - rewrite negb_true_iff, String.eqb_neq. split.
    + intros H. exists s. split; [reflexivity | exact H].
    + intros (s' & [= <-] & H). exact H.
  - split; [discriminate | intros (s & [=] & _)].
Qed.

Lemma serviceMap_unknown (service : string) :
  includes knownServices service = false -> Auth.serviceMap !! service = None.
Proof.
  intros H. unfold knownServices in H.
  repeat (apply includes_false_cons in H; destruct H as [? H]).
  unfold Auth.serviceMap. simpl.
  rewrite !lookup_insert_ne by congruence. apply lookup_empty.
Qed.

(** The configuration has no property named as an inherited member prints. *)
Lemma config_get_inherited (config : Auth.AuthConfig) (k : string) :
  includes object_prototype_keys k = true ->
  Auth.config_get config (inherited_toStr k) = None.
Proof.
  intros H. apply includes_true in H. unfold object_prototype_keys in H.
  repeat (apply elem_of_cons in H as [-> | H]); try reflexivity.
  apply elem_of_nil in H. contradiction.
Qed.

(** C9.  [hasCredentials(service)] is true exactly when
    [getCredential(service)] is a defined, non-empty string; for a service
    outside of raycast, github, notion, figma, slack, linear and jira,
    [hasCredentials] is false and [getCredential] is undefined. *)
Theorem C9_hasCredentials_iff_credential
  (config : Auth.AuthConfig) (service : string) :
  (Auth.hasCredentials config service = true <->
   exists c, Auth.getCredential config service = Some c /\ c <> "") /\
  (includes knownServices service = false ->
   Auth.hasCredentials config service = false /\
   Auth.getCredential config service = None).
Proof.
  split.
  - unfold Auth.hasCredentials, Auth.getCredential.
    destruct (Auth.serviceKey service) as [key |].
    + apply credential_truthy_spec.
    + split; [discriminate | intros (c & [=] & _)].
  - intros H. apply serviceMap_unknown in H.
    unfold Auth.hasCredentials, Auth.getCredential, Auth.serviceKey, js_get.
    rewrite H.
    destruct (includes object_prototype_keys service) eqn:Hin.
    + rewrite (config_get_inherited config service Hin). split; reflexivity.
    + split; reflexivity.
Qed.

Lemma C9_unknown_service_witness :
  let config := {| Auth.raycastApiKey := Some "rk"; Auth.raycastTeamId := None;
                   Auth.githubToken := Some "ghp"; Auth.notionToken := None;
                   Auth.figmaToken := None; Auth.slackToken := None;
                   Auth.linearToken := None; Auth.jiraToken := None |} in
  Auth.hasCredentials config "confluence" = false /\
  Auth.getCredential config "confluence" = None.
Proof.
  intros config.
  exact (proj2 (C9_hasCredentials_iff_credential config "confluence") eq_refl).
Defined.

(** ** A shortcut request without shortcut or key (C10) *)

Lemma arg_absent (args : Args) (k : string) :
  args !! k = None -> arg args k = JUndefined.
Proof. unfold arg. intros ->. reflexivity. Qed.

(** C10.  A [raycast_shortcut] request that provides neither [shortcut] nor
    [custom_key] makes no external invocation and is answered with a
    response without [isError] whose text says that a shortcut was
    triggered. *)
Theorem C10_shortcut_without_fields_reports_success
  (args : Args) (env : Oracle) :
  args !! "shortcut" = None ->
  args !! "custom_key" = None ->
  let p := handleToolCall {| name := "raycast_shortcut"; arguments := Some args |} in
  calls p env = [] /\
  calls (handleRaycastShortcut (Some args)) env = [] /\
  result p env =
    Returned {| content := [ {| type := "text";
                               text := "⌨️ Shortcut Triggered: undefined" +:+ NL +:+ NL +:+
                                       "✅ Shortcut executed successfully" |} ];
                isError := None |}.
Proof.
  intros Hs Hc p.
  apply arg_absent in Hs. apply arg_absent in Hc.
  assert (H : run (handleRaycastShortcut (Some args)) env [] =
              (Returned (text_response (shortcutMessage JUndefined JUndefined)), [])).
  { unfold handleRaycastShortcut, shortcutBranches. prog_cbn.
    rewrite Hs, Hc. prog_cbn. reflexivity. }
  subst p. unfold calls, result.
  rewrite handleToolCall_shortcut.
  rewrite (run_try_catch_returned _ _ _ _ _ _ H), H.
  repeat split.
Qed.

Lemma C10_shortcut_without_fields_witness :
  let p := handleToolCall {| name := "raycast_shortcut"; arguments := Some ∅ |} in
  calls p silent = [] /\
  calls (handleRaycastShortcut (Some ∅)) silent = [] /\
  result p silent =
    Returned {| content := [ {| type := "text";
                               text := "⌨️ Shortcut Triggered: undefined" +:+ NL +:+ NL +:+
                                       "✅ Shortcut executed successfully" |} ];
                isError := None |}.
Proof.
  apply (C10_shortcut_without_fields_reports_success ∅ silent); reflexivity.
Defined.

(** * Further properties *)

(** ** Every request to handlers.js is answered *)

Lemma leaves_run {A : Type} (p : Prog A) Q E env hist :
  leaves p Q E ->
  match fst (run p env hist) with
  | Returned a => Q a
  | Thrown e => E e
  end.
Proof.
  revert hist. induction p as [a | e | c k IH]; intros hist H; cbn; auto.
  apply IH, H.
Qed.

Lemma leaves_try_catch {A : Type} (p : Prog A) (h : JsError -> Prog A) Q E :
  leaves p Q (fun e => leaves (h e) Q E) -> leaves (try_catch p h) Q E.
Proof.
  induction p as [a | e | c k IH]; cbn; auto.
Qed.

Lemma leaves_mono {A : Type} (p : Prog A) (Q Q' : A -> Prop) (E E' : JsError -> Prop) :
  (forall a, Q a -> Q' a) -> (forall e, E e -> E' e) ->
  leaves p Q E -> leaves p Q' E'.
Proof.
  intros HQ HE. induction p as [a | e | c k IH]; cbn; auto.
Qed.

Lemma envelope_text (t : string) : envelope (text_response t).
Proof. exists t. left. reflexivity. Qed.

Lemma envelope_error (t : string) : envelope (error_response t).
Proof. exists t. right. reflexivity. Qed.

Ltac leaves_cbn :=
  cbn [leaves bind try_catch mbind mret Prog_bind Prog_ret destructure
       Tools.execAsync Tools.execAsync_opts Tools.triggerRaycastURL
       Tools.openRaycast execFound negb andb orb].

Ltac leaves_step :=
  match goal with
  | |- True => exact I
  | |- envelope (text_response _) => apply envelope_text
  | |- envelope (error_response _) => apply envelope_error
  | |- forall _, _ => intro
  | |- context [match ?o with Resolved _ _ => _ | Rejected _ => _ end] =>
    destruct o
  | |- context [match ?o with Own _ => _ | Inherited _ => _ | Missing => _ end] =>
    destruct o eqn:?
  | |- leaves (match ?o with Some _ => _ | None => _ end) _ _ => destruct o eqn:?
  | |- leaves (if ?b then _ else _) _ _ => destruct b eqn:?
  | |- leaves (try_catch (if ?b then _ else _) _) _ _ => destruct b eqn:?
  | |- leaves (try_catch (bind (if ?b then _ else _) _) _) _ _ => destruct b eqn:?
  | |- leaves (try_catch (bind (match ?o with Some _ => _ | None => _ end) _) _) _ _ =>
    destruct o eqn:?
  | |- context [match ?v with JUndefined => _ | _ => _ end] => destruct v eqn:?
  | |- context [match ?o with Some _ => _ | None => _ end] => destruct o eqn:?
  | |- context [if ?b then _ else _] => destruct b eqn:?
  end; leaves_cbn.

Ltac leaves_solve := leaves_cbn; repeat leaves_step.

Lemma leaves_search a : leaves (handleRaycastSearch a) envelope (fun _ => a = None).
Proof.
  destruct a; unfold handleRaycastSearch, searchURL, encodeURIComponent;
    leaves_solve; reflexivity.
Qed.

Lemma leaves_open a : leaves (handleRaycastOpen a) envelope (fun _ => a = None).
Proof.
  destruct a; unfold handleRaycastOpen, openURL, encodeURIComponent;
    leaves_solve; reflexivity.
Qed.

Lemma leaves_clipboard a : leaves (handleRaycastClipboard a) envelope (fun _ => a = None).
Proof.
  destruct a; unfold handleRaycastClipboard, clipboardSwitch, str_method;
    leaves_solve; reflexivity.
Qed.

Lemma leaves_shortcut a : leaves (handleRaycastShortcut a) envelope (fun _ => a = None).
Proof.
  destruct a; unfold handleRaycastShortcut, shortcutBranches, str_method;
    leaves_solve; reflexivity.
Qed.

Lemma leaves_window a : leaves (handleRaycastWindow a) envelope (fun _ => a = None).
Proof.
  destruct a; unfold handleRaycastWindow, str_method; leaves_solve; reflexivity.
Qed.

Lemma leaves_system a : leaves (handleRaycastSystem a) envelope (fun _ => a = None).
Proof.
  destruct a; unfold handleRaycastSystem, confirmGate, str_method, execFound, not_found;
    leaves_solve; reflexivity.
Qed.

Lemma leaves_handleToolCall (request : ToolRequest) :
  leaves (handleToolCall request) envelope (fun _ => False).
Proof.
  unfold handleToolCall. apply leaves_try_catch.
  repeat (case_decide;
          [ eapply leaves_mono; [intros ? H'; exact H' | intros; apply envelope_error |];
            first [ apply leaves_search | apply leaves_open | apply leaves_clipboard
                  | apply leaves_shortcut | apply leaves_window | apply leaves_system ] |]).
  apply envelope_error.
Qed.

(** X1.  [handleToolCall] never throws: in every environment and for every
    request, with or without arguments, it returns a response that is the
    uniform envelope, one text item with or without [isError: true]. *)
Theorem handleToolCall_always_answers (request : ToolRequest) (env : Oracle) :
  exists t,
    result (handleToolCall request) env = Returned (text_response t) \/
    result (handleToolCall request) env = Returned (error_response t).
Proof.
  pose proof (leaves_run _ _ _ env [] (leaves_handleToolCall request)) as H.
  unfold result. destruct (fst (run _ env [])) as [r | e]; [| contradiction].
  destruct H as [t [-> | ->]]; exists t; auto.
Qed.

(** ** Which invocations a request makes *)

Lemma resolve_shape (request : ToolRequest) :
  forallb plain_exec (resolve request) = true /\
  (length (resolve request) <= 3)%nat.
Proof.
  unfold resolve, resolveSearch, resolveOpen, resolveClipboard, resolveShortcut,
    resolveWindow, resolveSystem, open_url, exec.
  repeat case_match; cbn; split; first [reflexivity | lia].
Qed.

Lemma forallb_prefix {A : Type} (f : A -> bool) (l1 l2 : list A) :
  l1 `prefix_of` l2 -> forallb f l2 = true -> forallb f l1 = true.
Proof.
  intros [r ->]. rewrite forallb_app. intros H.
  apply andb_true_iff in H as [H _]. exact H.
Qed.

(** X2.  Every external invocation [handleToolCall] makes is a call of
    [exec] without options, so that none carries the timeout of
    [executeRaycastCommand], and none is a network request; a request makes
    at most three of them. *)
Theorem handler_invocations_are_unbounded_execs
  (request : ToolRequest) (env : Oracle) :
  forallb plain_exec (calls (handleToolCall request) env) = true /\
  (length (calls (handleToolCall request) env) <= 3)%nat.
Proof.
  pose proof (follows_calls _ _ any any env (follows_handleToolCall request)) as Hp.
  destruct (resolve_shape request) as [Hf Hl]. split.
  - exact (forallb_prefix _ _ _ Hp Hf).
  - destruct Hp as [r Hr]. rewrite Hr, length_app in Hl. lia.
Qed.

(** *** A request with no arguments *)

(** X3.  A request to one of the six tools of handlers.js that has no
    [arguments] makes no invocation and is answered with the error response
    [Error executing <tool>: ...]: the failed destructuring is caught by
    [handleToolCall]. *)
Theorem handleToolCall_without_arguments (tool : string) (env : Oracle) :
  includes ["raycast_search"; "raycast_open"; "raycast_clipboard";
            "raycast_shortcut"; "raycast_window"; "raycast_system"] tool = true ->
  let p := handleToolCall {| name := tool; arguments := None |} in
  calls p env = [] /\
  exists t,
    result p env = Returned (error_response ("Error executing " +:+ tool +:+ ": " +:+ t)).
Proof.
  intros H p. subst p. apply includes_true in H.
  repeat (apply elem_of_cons in H as [-> | H]);
    [ .. | apply elem_of_nil in H; contradiction ].
  - rewrite handleToolCall_search. split; [reflexivity | eexists; reflexivity].
  - rewrite handleToolCall_open. split; [reflexivity | eexists; reflexivity].
  - rewrite handleToolCall_clipboard. split; [reflexivity | eexists; reflexivity].
  - rewrite handleToolCall_shortcut. split; [reflexivity | eexists; reflexivity].
  - rewrite handleToolCall_window. split; [reflexivity | eexists; reflexivity].
  - rewrite handleToolCall_system. split; [reflexivity | eexists; reflexivity].
Qed.

Lemma handleToolCall_without_arguments_witness :
  let p := handleToolCall {| name := "raycast_window"; arguments := None |} in
  calls p silent = [] /\
  exists t,
    result p silent =
    Returned (error_response ("Error executing " +:+ "raycast_window" +:+ ": " +:+ t)).
Proof.
  apply (handleToolCall_without_arguments "raycast_window" silent). reflexivity.
Defined.

(** *** A first invocation that fails *)

Ltac fr_cbn :=
  cbn [first_rejected bind try_catch mbind mret Prog_bind Prog_ret destructure
       Tools.execAsync Tools.execAsync_opts Tools.triggerRaycastURL
       Tools.openRaycast execFound not_found app negb andb name arguments
       toolCallCatch].

Ltac fr_step :=
  match goal with
  | |- True => exact I
  | |- _ /\ _ => split
  | |- forall _, _ => intro
  | |- exists _, _ => eexists
  | |- _ = _ => reflexivity
  | |- context [match ?o with Own _ => _ | Inherited _ => _ | Missing => _ end] =>
    destruct o eqn:?
  | |- context [match ?o with Some _ => _ | None => _ end] => destruct o eqn:?
  | |- context [truthy ?v] => destruct (truthy v) eqn:?
  | |- context [is_destructive ?v] => destruct (is_destructive v) eqn:?
  | |- context [if ?b then _ else _] => destruct b eqn:?
  | |- context [match ?v with JUndefined => _ | _ => _ end] => destruct v eqn:?
  end; fr_cbn.

Ltac fr_solve := fr_cbn; repeat fr_step.

Lemma first_rejected_handleToolCall (request : ToolRequest) :
  first_rejected (handleToolCall request) (resolve request).
Proof.
  destruct request as [tool a]. unfold handleToolCall, resolve.
  cbn [name arguments]. destruct a as [args |].
  - repeat case_decide.
    + unfold handleRaycastSearch, resolveSearch, searchURL, encodeURIComponent, open_url, exec. fr_solve.
    + unfold handleRaycastOpen, resolveOpen, openURL, encodeURIComponent, open_url, exec. fr_solve.
    + unfold handleRaycastClipboard, clipboardSwitch, resolveClipboard, open_url,
        exec, str_method. fr_solve.
    + unfold handleRaycastShortcut, shortcutBranches, resolveShortcut, open_url,
        exec, str_method. fr_solve.
    + unfold handleRaycastWindow, resolveWindow, open_url, exec, str_method.
      fr_solve.
    + unfold handleRaycastSystem, confirmGate, resolveSystem, requiresConfirmation,
        open_url, exec, str_method. fr_solve.
    + exact I.
  - repeat case_decide; exact I.
Qed.

(** X4.  The handlers fail fast: when the first command a request resolves
    to is rejected by the environment, that command is the only invocation
    made, and the request is answered with an error response. *)
Theorem handleToolCall_fails_fast
  (request : ToolRequest) (env : Oracle) (c : Call) (e : JsError) :
  head (resolve request) = Some c ->
  env [] c = Rejected e ->
  calls (handleToolCall request) env = [c] /\
  exists t, result (handleToolCall request) env = Returned (error_response t).
Proof.
  intros Hhead Hrej.
  pose proof (first_rejected_handleToolCall request) as H.
  unfold calls, result.
  destruct (handleToolCall request) as [r | e' | c' k];
    destruct (resolve request) as [| c0 rest]; try discriminate; try contradiction.
  cbn in Hhead. injection Hhead as ->.
  destruct H as [-> H]. destruct (H e) as [t Ht].
  cbn [run]. rewrite Hrej, Ht. cbn. split; [reflexivity |].
  exists t. reflexivity.
Qed.

Lemma handleToolCall_fails_fast_witness :
  let request := request_of "raycast_clipboard"
                   {[ "action" := JStr "paste"; "index" := JNum 2 0 ]} in
  let env := rejecting (new_Error "Command failed") in
  calls (handleToolCall request) env = [open_url clipboardHistoryURL] /\
  exists t, result (handleToolCall request) env = Returned (error_response t).
Proof.
  apply (handleToolCall_fails_fast _ _ (open_url clipboardHistoryURL)
           (new_Error "Command failed")).
  - vm_compute. reflexivity.
  - reflexivity.
Defined.

(** *** An environment in which everything succeeds *)

Ltac ra_cbn :=
  cbn [run answering bind try_catch mbind mret Prog_bind Prog_ret destructure
       Tools.execAsync Tools.execAsync_opts Tools.triggerRaycastURL
       Tools.openRaycast execFound not_found app negb andb name arguments
       Tools.stdout Tools.stderr snd fst].

Ltac ra_step :=
  match goal with
  | |- _ = _ => reflexivity
  | H : trim ?o = _ |- context [bool_decide (trim ?o = _)] =>
    rewrite (bool_decide_eq_true_2 _ H)
  | |- context [match ?o with Own _ => _ | Inherited _ => _ | Missing => _ end] =>
    destruct o eqn:?
  | |- context [match ?o with Some _ => _ | None => _ end] => destruct o eqn:?
  | |- context [truthy ?v] => destruct (truthy v) eqn:?
  | |- context [is_destructive ?v] => destruct (is_destructive v) eqn:?
  | |- context [if ?b then _ else _] => destruct b eqn:?
  | |- context [match ?v with JUndefined => _ | _ => _ end] => destruct v eqn:?
  end; ra_cbn.

Ltac ra_solve := ra_cbn; repeat ra_step.

(** X5.  In an environment in which every invocation succeeds and prints a
    text whose trimmed form is [confirmed], a request runs all the commands
    it resolves to, in order: nothing of the resolved plan is skipped. *)
Theorem handleToolCall_runs_whole_plan (request : ToolRequest) (out : string) :
  trim out = "confirmed" ->
  calls (handleToolCall request) (answering out) = resolve request.
Proof.
  intros Hout. destruct request as [tool a]. unfold calls, handleToolCall, resolve.
  cbn [name arguments]. destruct a as [args |].
  - repeat case_decide.
    + unfold handleRaycastSearch, resolveSearch, searchURL, encodeURIComponent, open_url, exec. ra_solve.
    + unfold handleRaycastOpen, resolveOpen, openURL, encodeURIComponent, open_url, exec. ra_solve.
    + unfold handleRaycastClipboard, clipboardSwitch, resolveClipboard, open_url,
        exec, str_method. ra_solve.
    + unfold handleRaycastShortcut, shortcutBranches, resolveShortcut, open_url,
        exec, str_method. ra_solve.
    + unfold handleRaycastWindow, resolveWindow, open_url, exec, str_method.
      ra_solve.
    + unfold handleRaycastSystem, confirmGate, resolveSystem, requiresConfirmation,
        open_url, exec, str_method. ra_solve.
    + reflexivity.
  - repeat case_decide; reflexivity.
Qed.

Lemma handleToolCall_runs_whole_plan_witness :
  calls (handleToolCall (request_of "raycast_system" {[ "function" := JStr "logout" ]}))
        (answering (" confirmed" +:+ NL)) =
  resolve (request_of "raycast_system" {[ "function" := JStr "logout" ]}).
Proof.
  apply (handleToolCall_runs_whole_plan
           (request_of "raycast_system" {[ "function" := JStr "logout" ]})
           (" confirmed" +:+ NL)).
  reflexivity.
Defined.

(** ** System functions that need no confirmation *)

Lemma systemCommands_nonempty (f command : string) :
  systemCommands !! f = Some command -> command <> EmptyString.
Proof.
  unfold systemCommands. intros H. apply elem_of_list_to_map_2 in H.
  repeat (apply elem_of_cons in H as [[= -> ->] | H]);
    [ intros Heq; vm_compute in Heq; discriminate .. | ].
  apply elem_of_nil in H. contradiction.
Qed.

(** X6.  Where no confirmation is required, because the function is none of
    the four destructive ones or because [confirm] is falsy ([false], [0],
    the empty string or [null]), the command of a system function is run at
    once, with no dialog before it, and its success is reported. *)
Theorem system_function_without_confirmation
  (args : Args) (f command : string) (env : Oracle) :
  arg args "function" = JStr f ->
  systemCommands !! f = Some command ->
  requiresConfirmation args = false ->
  let p := handleToolCall (request_of "raycast_system" args) in
  calls p env = [exec command] /\
  (forall so se,
      env [] (exec command) = Resolved so se ->
      result p env =
      Returned (text_response ("🔧 System " +:+ toUpperCase f +:+ NL +:+ NL +:+
                               "✅ System function executed successfully"))).
Proof.
  intros Hf Hc Hreq p. subst p. unfold request_of, calls, result.
  rewrite handleToolCall_system, run_try_catch.
  pose proof (systemCommands_nonempty f command Hc) as Hne.
  apply String.eqb_neq in Hne.
  unfold handleRaycastSystem, confirmGate. prog_cbn.
  unfold requiresConfirmation in Hreq. rewrite Hreq.
  rewrite Hf. cbn [toStr]. unfold js_get. rewrite Hc. cbn [not_found].
  rewrite Hne. prog_cbn. cbn [execFound]. prog_cbn. unfold exec.
  destruct (env [] _) as [so se | e] eqn:Henv; prog_cbn.
  - split; [reflexivity |]. intros _ _ _. reflexivity.
  - split; [reflexivity |]. intros so se [=].
Qed.

Lemma system_function_without_confirmation_witness :
  let args : Args := {[ "function" := JStr "shutdown"; "confirm" := JNull ]} in
  let p := handleToolCall (request_of "raycast_system" args) in
  calls p silent = [exec "sudo shutdown -h now"] /\
  (forall so se,
      silent [] (exec "sudo shutdown -h now") = Resolved so se ->
      result p silent =
      Returned (text_response ("🔧 System " +:+ toUpperCase "shutdown" +:+ NL +:+ NL +:+
                               "✅ System function executed successfully"))).
Proof.
  apply (system_function_without_confirmation
           {[ "function" := JStr "shutdown"; "confirm" := JNull ]}
           "shutdown" "sudo shutdown -h now" silent).
  - vm_compute. reflexivity.
  - reflexivity.
  - vm_compute. reflexivity.
Defined.

(** ** Shortcuts *)



Lemma modifierString_ext (M1 M2 : list string) :
  forallb (fun n => Bool.eqb (includes M1 n) (includes M2 n)) modifierNames = true ->
  modifierString M1 = modifierString M2.
Proof.
  unfold modifierNames. cbn [forallb]. rewrite !andb_true_iff.
  intros (H1 & H2 & H3 & H4 & _).
  apply Bool.eqb_prop in H1, H2, H3, H4.
  unfold modifierString. rewrite H1, H2, H3, H4. reflexivity.
Qed.

Lemma includes_filter_modifier (L : list string) (n : string) :
  includes modifierNames n = true ->
  includes (List.filter (fun k => includes modifierNames k) L) n = includes L n.
Proof.
  intros Hn. unfold includes at 1 3. apply bool_decide_ext.
  rewrite !list_elem_of_In, filter_In. tauto.
Qed.

Lemma includes_app_cons_other (L1 L2 : list string) (k n : string) :
  n <> k -> includes (L1 ++ k :: L2) n = includes (L1 ++ L2) n.
Proof.
  intros Hne. unfold includes. apply bool_decide_ext.
  rewrite !elem_of_app, elem_of_cons. tauto.
Qed.

Lemma find_first_key (mods rest : list string) (key : string) :
  forallb (fun m => includes modifierNames (normalize m)) mods = true ->
  includes modifierNames (normalize key) = false ->
  List.find (fun k => negb (includes modifierNames k))
            (map normalize (mods ++ key :: rest)) = Some (normalize key).
Proof.
  intros Hm Hk. induction mods as [| m mods IH]; cbn.
  - rewrite Hk. reflexivity.
  - cbn in Hm. apply andb_true_iff in Hm as [H1 H2].
    rewrite H1. cbn. exact (IH H2).
Qed.

Lemma find_no_key (mods : list string) :
  forallb (fun m => includes modifierNames (normalize m)) mods = true ->
  List.find (fun k => negb (includes modifierNames k)) (map normalize mods) = None.
Proof.
  intros Hm. induction mods as [| m mods IH]; cbn; [reflexivity |].
  cbn in Hm. apply andb_true_iff in Hm as [H1 H2].
  rewrite H1. cbn. exact (IH H2).
Qed.

Lemma modifierString_of_tokens (L : list string) :
  modifierString (List.filter (fun k => includes modifierNames k) L) =
  join ", " (map applescriptModifier
               (List.filter (fun m => includes L m) modifierNames)).
Proof.
  rewrite <- modifierString_ordered. apply modifierString_ext.
  unfold modifierNames at 2. cbn [forallb].
  rewrite !includes_filter_modifier by reflexivity.
  rewrite !Bool.eqb_reflx. reflexivity.
Qed.

(** X8.  A key combination made of modifier tokens only has no key: the
    script types the text [undefined], with the modifiers held down. *)
Theorem custom_key_of_modifiers_only (m : string) (mods : list string) :
  forallb (fun t => no_plus t && includes modifierNames (normalize t)) (m :: mods) = true ->
  shortcutScript (join "+" (m :: mods)) =
    "tell application " +:+ DQ +:+ "System Events" +:+ DQ +:+ " to keystroke " +:+
    DQ +:+ "undefined" +:+ DQ +:+ " using {" +:+
    join ", " (map applescriptModifier
                 (List.filter (fun n => includes (map normalize (m :: mods)) n)
                              modifierNames)) +:+ "}".
Proof.
  intros H. apply forallb_and_split in H as [Hplus Hmod].
  unfold shortcutScript. cbn zeta.
  rewrite (parseKeys_join m mods Hplus), (find_no_key (m :: mods) Hmod).
  rewrite modifierString_of_tokens. reflexivity.
Qed.

Lemma custom_key_of_modifiers_only_witness :
  shortcutScript (join "+" ("ctrl" :: ["Alt"])) =
    "tell application " +:+ DQ +:+ "System Events" +:+ DQ +:+ " to keystroke " +:+
    DQ +:+ "undefined" +:+ DQ +:+ " using {" +:+
    join ", " (map applescriptModifier
                 (List.filter (fun n => includes (map normalize ("ctrl" :: ["Alt"])) n)
                              modifierNames)) +:+ "}".
Proof.
  apply (custom_key_of_modifiers_only "ctrl" ["Alt"]). reflexivity.
Defined.

(** X9.  Of several tokens that are no modifiers the first one is the key
    and the others are dropped without notice; the modifiers count wherever
    they stand, before or after the key. *)
Theorem custom_key_first_key_wins (mods rest : list string) (key : string) :
  forallb (fun t => no_plus t && includes modifierNames (normalize t)) mods = true ->
  no_plus key = true ->
  includes modifierNames (normalize key) = false ->
  forallb no_plus rest = true ->
  shortcutScript (join "+" (mods ++ key :: rest)%list) =
    "tell application " +:+ DQ +:+ "System Events" +:+ DQ +:+ " to keystroke " +:+
    DQ +:+ normalize key +:+ DQ +:+ " using {" +:+
    join ", " (map applescriptModifier
                 (List.filter (fun n => includes (map normalize (mods ++ rest)%list) n)
                              modifierNames)) +:+ "}".
Proof.
  intros Hmods Hkey Hnot Hrest.
  apply forallb_and_split in Hmods as [Hplus Hmod].
  assert (Hall : forallb no_plus (mods ++ key :: rest)%list = true).
  { rewrite forallb_app, Hplus. cbn. rewrite Hkey, Hrest. reflexivity. }
  unfold shortcutScript. cbn zeta.
  destruct (mods ++ key :: rest)%list as [| x l] eqn:Hl.
  - destruct mods; discriminate.
  - rewrite (parseKeys_join x l Hall), <- Hl.
    rewrite (find_first_key mods rest key Hmod Hnot).
    rewrite modifierString_of_tokens, <- !modifierString_ordered.
    rewrite (modifierString_ext (map normalize (mods ++ key :: rest)%list)
                                (map normalize (mods ++ rest)%list));
      [reflexivity |].
    rewrite forallb_forall. intros n Hn.
    assert (Hmodn : includes modifierNames n = true)
      by (apply includes_true, list_elem_of_In; exact Hn).
    rewrite !map_app. cbn [map].
    rewrite includes_app_cons_other; [apply Bool.eqb_reflx |].
    intros ->. congruence.
Qed.

Lemma custom_key_first_key_wins_witness :
  shortcutScript (join "+" (["cmd"] ++ "É" :: ["b"; "shift"])%list) =
    "tell application " +:+ DQ +:+ "System Events" +:+ DQ +:+ " to keystroke " +:+
    DQ +:+ normalize "É" +:+ DQ +:+ " using {" +:+
    join ", " (map applescriptModifier
                 (List.filter (fun n => includes (map normalize (["cmd"] ++ ["b"; "shift"])%list) n)
                              modifierNames)) +:+ "}".
Proof.
  apply (custom_key_first_key_wins ["cmd"] ["b"; "shift"] "É"); reflexivity.
Defined.

(** ** Commands that are not in the table of raycast_open *)



(** The number 10 ^ 21 prints with an exponent, whose plus sign is encoded;
    a surrogate without its partner is refused. *)
Example open_with_a_large_number :
  calls (handleToolCall
           (request_of "raycast_open"
              {[ "command" := JStr "spotify/play"; "args" := JNum 1 21 ]}))
        silent =
  [open_url "raycast://extensions/spotify/play?arguments=1e%2B21"].
Proof. vm_compute. reflexivity. Qed.

Example open_with_a_lone_surrogate :
  run (handleToolCall
         (request_of "raycast_open"
            {[ "command" := JStr "spotify/play"; "args" := JStr lone_surrogate_text ]}))
      silent [] =
  (Returned (error_response "❌ Raycast command failed: URI malformed"), []).
Proof. vm_compute. reflexivity. Qed.

(** ** The constructor of RaycastAuth *)

Lemma spread_or_env (f : RaycastAuth.Field) (e : option string) :
  RaycastAuth.spread f (RaycastAuth.or_env f e) = RaycastAuth.spread f e.
Proof. destruct f as [| v]; reflexivity. Qed.

(** X11.  A field the caller passes in the configuration wins over the
    environment variable whatever its value, the empty string and
    [undefined] included; the environment variable is used for the fields
    that are absent from the configuration only. *)
Theorem constructor_explicit_field_wins
  (config : RaycastAuth.ConfigArg) (env : RaycastAuth.ProcessEnv) :
  RaycastAuth.constructor (Some config) env =
  {| Auth.raycastApiKey :=
       match RaycastAuth.arg_raycastApiKey config with
       | RaycastAuth.Present v => v | RaycastAuth.Absent => RaycastAuth.RAYCAST_API_KEY env end;
     Auth.raycastTeamId :=
       match RaycastAuth.arg_raycastTeamId config with
       | RaycastAuth.Present v => v | RaycastAuth.Absent => RaycastAuth.RAYCAST_TEAM_ID env end;
     Auth.githubToken :=
       match RaycastAuth.arg_githubToken config with
       | RaycastAuth.Present v => v | RaycastAuth.Absent => RaycastAuth.GITHUB_TOKEN env end;
     Auth.notionToken :=
       match RaycastAuth.arg_notionToken config with
       | RaycastAuth.Present v => v | RaycastAuth.Absent => RaycastAuth.NOTION_TOKEN env end;
     Auth.figmaToken :=
       match RaycastAuth.arg_figmaToken config with
       | RaycastAuth.Present v => v | RaycastAuth.Absent => RaycastAuth.FIGMA_TOKEN env end;
     Auth.slackToken :=
       match RaycastAuth.arg_slackToken config with
       | RaycastAuth.Present v => v | RaycastAuth.Absent => RaycastAuth.SLACK_TOKEN env end;
     Auth.linearToken :=
       match RaycastAuth.arg_linearToken config with
       | RaycastAuth.Present v => v | RaycastAuth.Absent => RaycastAuth.LINEAR_TOKEN env end;
     Auth.jiraToken :=
       match RaycastAuth.arg_jiraToken config with
       | RaycastAuth.Present v => v | RaycastAuth.Absent => RaycastAuth.JIRA_TOKEN env end |}.
Proof.
  unfold RaycastAuth.constructor. cbn [default].
  rewrite !spread_or_env.
  destruct config as [[] [] [] [] [] [] [] []]; reflexivity.
Qed.

Lemma serviceEnv_unknown (env : RaycastAuth.ProcessEnv) (service : string) :
  includes knownServices service = false -> serviceEnv env service = None.
Proof.
  intros H. unfold knownServices in H.
  repeat (apply includes_false_cons in H; destruct H as [? H]).
  unfold serviceEnv.
  repeat match goal with
         | Hne : service <> ?k |- context [String.eqb service ?k] =>
           rewrite (proj2 (String.eqb_neq service k) Hne)
         end.
  reflexivity.
Qed.

(** X12.  For the instance made without a configuration, which is the one
    the server uses, the credential of a service is the value of its
    environment variable: [getCredential] returns that value, and
    [hasCredentials] is true exactly when it is set and not empty.  The
    team id ([RAYCAST_TEAM_ID]) is the credential of no service. *)
Theorem singleton_credentials_are_the_environment
  (env : RaycastAuth.ProcessEnv) (service : string) :
  Auth.getCredential (RaycastAuth.constructor None env) service = serviceEnv env service /\
  Auth.hasCredentials (RaycastAuth.constructor None env) service =
  Auth.credential_truthy (serviceEnv env service).
Proof.
  destruct (includes knownServices service) eqn:Hk.
  - apply includes_true in Hk. unfold knownServices in Hk.
    repeat (apply elem_of_cons in Hk as [-> | Hk]);
      [ split; reflexivity .. | apply elem_of_nil in Hk; contradiction ].
  - rewrite (serviceEnv_unknown env service Hk).
    pose proof (serviceMap_unknown service Hk) as Hm.
    unfold Auth.hasCredentials, Auth.getCredential, Auth.serviceKey, js_get.
    rewrite Hm.
    destruct (includes object_prototype_keys service) eqn:Hin.
    + rewrite (config_get_inherited _ service Hin). split; reflexivity.
    + split; reflexivity.
Qed.

(** ** The audit report *)

Lemma auditLines_ext (c1 c2 : Auth.AuthConfig) (l : list string) :
  forallb (fun s => Bool.eqb (Auth.hasCredentials c1 s) (Auth.hasCredentials c2 s)) l = true ->
  flat_map (RaycastAuth.auditLines c1) l = flat_map (RaycastAuth.auditLines c2) l.
Proof.
  induction l as [| s l IH]; cbn [forallb flat_map]; [reflexivity |].
  intros H. apply andb_true_iff in H as [Hs Hl].
  apply Bool.eqb_prop in Hs.
  rewrite (IH Hl). unfold RaycastAuth.auditLines. rewrite Hs. reflexivity.
Qed.

(** X13.  The audit report tells which of raycast, github, notion, figma and
    slack are configured and nothing else about the configuration: two
    configurations in which the same ones of these five have credentials
    give the same report, whatever the credentials are, and whatever the
    team id and the credentials of linear and jira are. *)
Theorem audit_tells_configured_services_only (c1 c2 : Auth.AuthConfig) :
  forallb (fun s => Bool.eqb (Auth.hasCredentials c1 s) (Auth.hasCredentials c2 s))
          RaycastAuth.auditServices = true ->
  RaycastAuth.auditIntegrations c1 = RaycastAuth.auditIntegrations c2.
Proof.
  intros H. unfold RaycastAuth.auditIntegrations, RaycastAuth.auditReport.
  rewrite (auditLines_ext c1 c2 _ H). reflexivity.
Qed.

Lemma audit_tells_configured_services_only_witness :
  RaycastAuth.auditIntegrations github_and_slack =
  RaycastAuth.auditIntegrations github_and_slack_too.
Proof.
  apply (audit_tells_configured_services_only github_and_slack github_and_slack_too).
  reflexivity.
Defined.

(** ** The server with its collaborators *)

Lemma leaves_any {A : Type} (p : Prog A) :
  leaves p (fun _ => True) (fun _ => True).
Proof. induction p as [a | e | c k IH]; cbn; auto. Qed.

Lemma run_try_catch_ret {A : Type} (p : Prog A) (h : JsError -> Prog A) env hist :
  (forall e, exists a, h e = Ret a) ->
  exists a tr, run (try_catch p h) env hist = (Returned a, tr).
Proof.
  intros H. rewrite run_try_catch.
  destruct (run p env hist) as [[a | e] tr]; [eauto |].
  destruct (H e) as [a ->]. eauto.
Qed.

Lemma credential_known (config : Auth.AuthConfig) (service : string) :
  Auth.credential_truthy (Auth.getCredential config service) = true ->
  includes knownServices service = true.
Proof.
  intros H. destruct (includes knownServices service) eqn:Hk; [reflexivity |].
  pose proof (serviceMap_unknown service Hk) as Hm.
  unfold Auth.getCredential, Auth.serviceKey, js_get in H. rewrite Hm in H.
  destruct (includes object_prototype_keys service) eqn:Hin.
  - rewrite (config_get_inherited config service Hin) in H. discriminate.
  - discriminate.
Qed.

Lemma known_not_inherited (service : string) :
  includes knownServices service = true ->
  includes object_prototype_keys service = false.
Proof.
  intros H. apply includes_true in H. unfold knownServices in H.
  repeat (apply elem_of_cons in H as [-> | H]); try reflexivity.
  apply elem_of_nil in H. contradiction.
Qed.

Section WithCollaborators.

Variable JSON_parse : string -> JsError + Json.
Variable JSON_stringify : Json -> string.
Variable call_inherited : string -> Prog Json.
Variable createWorkflow : JsValue -> JsValue -> JsValue -> Prog ToolResponse.
Variable config : Auth.AuthConfig.

Let validateCredentials :=
  RaycastAuth.validateCredentials JSON_parse JSON_stringify call_inherited config.

Let callTool :=
  ServerTools.callTool JSON_parse JSON_stringify call_inherited createWorkflow config.

(** *** validateCredentials *)

(** X14.  [validateCredentials] makes a network request for github, notion
    and figma only: for every other service, configured or not, it makes no
    request and resolves to [valid: false] with a reason. *)
Theorem validation_exists_for_three_services_only
  (service : JsValue) (env : Oracle) :
  includes ["github"; "notion"; "figma"] (toStr service) = false ->
  exists reason,
    run (validateCredentials service) env [] =
    (Returned (RaycastAuth.invalid reason), []).
Proof.
  intros H. subst validateCredentials. unfold RaycastAuth.validateCredentials.
  destruct (Auth.credential_truthy (Auth.getCredential config (toStr service)))
    eqn:Htoken; cbn [negb].
  - pose proof (known_not_inherited _ (credential_known _ _ Htoken)) as Hin.
    repeat (apply includes_false_cons in H; destruct H as [? H]).
    unfold js_get_of, RaycastAuth.validators. simpl list_to_map.
    rewrite !lookup_insert_ne by congruence. rewrite lookup_empty, Hin.
    eexists. reflexivity.
  - eexists. reflexivity.
Qed.

(** X15.  For github, notion and figma with a credential, one request is
    made, to the address of the service and with the credential in its
    header, and the verdict does not look at the reply: whatever JSON
    document the reply parses to, the result is [valid: true] with that
    document as the user; the result is [valid: false] only where the request
    or the parsing fails, with the message of the failure. *)
Theorem validation_accepts_any_json_reply
  (service token url : string) (headers : list (string * string)) (env : Oracle) :
  RaycastAuth.validators token !! service = Some (url, headers) ->
  Auth.getCredential config service = Some token ->
  token <> "" ->
  let p := validateCredentials (JStr service) in
  calls p env = [FetchCall url headers] /\
  (forall body err v,
      env [] (FetchCall url headers) = Resolved body err ->
      JSON_parse body = inr v ->
      result p env = Returned (RaycastAuth.validUser JSON_stringify v) /\
      valid (RaycastAuth.validUser JSON_stringify v) = true) /\
  (forall body err e,
      env [] (FetchCall url headers) = Resolved body err ->
      JSON_parse body = inl e ->
      result p env = Returned (RaycastAuth.invalid (message e))) /\
  (forall e,
      env [] (FetchCall url headers) = Rejected e ->
      result p env = Returned (RaycastAuth.invalid (message e))).
Proof.
  intros Hv Ht Hne p. subst p validateCredentials.
  unfold calls, result, RaycastAuth.validateCredentials. cbn [toStr].
  rewrite Ht. cbn [Auth.credential_truthy default id].
  apply String.eqb_neq in Hne. rewrite Hne. cbn [negb].
  unfold js_get_of. rewrite Hv. unfold fetch_json. prog_cbn.
  destruct (env [] _) as [body err | e] eqn:Henv.
  - destruct (JSON_parse body) as [e | v] eqn:Hparse; prog_cbn.
    + split; [reflexivity |]. split; [| split].
      * intros ? ? ? [= <- <-] Hp. congruence.
      * intros ? ? ? [= <- <-] Hp. congruence.
      * intros ? [=].
    + split; [reflexivity |]. split; [| split].
      * intros ? ? ? [= <- <-] Hp. rewrite Hparse in Hp. injection Hp as <-.
        split; reflexivity.
      * intros ? ? ? [= <- <-] Hp. congruence.
      * intros ? [=].
  - prog_cbn. split; [reflexivity |]. split; [| split].
    + intros ? ? ? [=].
    + intros ? ? ? [=].
    + intros ? [= <-]. reflexivity.
Qed.

Lemma leaves_validateCredentials (service : JsValue) :
  leaves (validateCredentials service) (fun _ => True) (fun _ => False).
Proof.
  subst validateCredentials. unfold RaycastAuth.validateCredentials.
  destruct (negb _); [exact I |].
  apply leaves_try_catch.
  eapply leaves_mono; [| | apply leaves_any]; [auto | intros; exact I].
Qed.

(** *** raycast_auth *)

Lemma callTool_auth (a : option Args) :
  callTool {| name := "raycast_auth"; arguments := a |} =
  handleAuthTool
    (RaycastAuth.service JSON_parse JSON_stringify call_inherited config) a.
Proof.
  subst callTool. unfold ServerTools.callTool, dispatch. cbn [name arguments].
  case_decide; [reflexivity | done].
Qed.

Lemma callTool_extensions (a : option Args) :
  callTool {| name := "raycast_extensions"; arguments := a |} =
  ServerTools.handleExtensionsTool JSON_parse a.
Proof.
  subst callTool. unfold ServerTools.callTool, dispatch. cbn [name arguments].
  case_decide; [discriminate |]. case_decide; [reflexivity | done].
Qed.

Lemma callTool_workflows (a : option Args) :
  callTool {| name := "raycast_workflows"; arguments := a |} =
  ServerTools.handleWorkflowsTool JSON_parse call_inherited createWorkflow config a.
Proof.
  subst callTool. unfold ServerTools.callTool, dispatch. cbn [name arguments].
  repeat (case_decide; [discriminate |]). case_decide; [reflexivity | done].
Qed.

(** X16.  Validation never answers with [isError]: for a service given as
    a non-empty string, whatever the service and the outcome of the check,
    the response to the [validate] action is a response without [isError];
    invalid and missing credentials are reported in its text. *)
Theorem validate_is_never_an_error_response
  (args : Args) (service : string) (env : Oracle) :
  arg args "action" = JStr "validate" ->
  arg args "service" = JStr service ->
  service <> "" ->
  exists t, result (callTool (request_of "raycast_auth" args)) env =
            Returned (text_response t).
Proof.
  intros Ha Hs Hne. unfold request_of, result. rewrite callTool_auth.
  unfold handleAuthTool. prog_cbn. rewrite Ha, Hs. cbn [truthy].
  apply String.eqb_neq in Hne. rewrite Hne. cbn [negb].
  case_decide; [discriminate |]. case_decide; [| done].
  cbn [Server.validateCredentials RaycastAuth.service].
  fold validateCredentials.
  rewrite run_try_catch.
  change (mbind ?f ?m) with (bind m f). rewrite run_bind.
  pose proof (leaves_run _ _ _ env [] (leaves_validateCredentials (JStr service))) as Hl.
  destruct (run (validateCredentials (JStr service)) env []) as [[v | e] tr];
    [| contradiction].
  prog_cbn. eexists. reflexivity.
Qed.

Lemma js_get_missing (table : gmap string string) (keys : list string) (k : string) :
  (forall k', table !! k' <> None -> k' ∈ keys) ->
  includes keys k = false ->
  includes object_prototype_keys k = false ->
  js_get table k = Missing.
Proof.
  intros Hkeys Hk Hp. unfold js_get.
  destruct (table !! k) as [v |] eqn:Hl.
  - apply bool_decide_eq_false in Hk. exfalso. apply Hk, Hkeys. congruence.
  - rewrite Hp. reflexivity.
Qed.

Lemma table_keys (l : list (string * string)) (k : string) :
  (list_to_map l : gmap string string) !! k <> None -> k ∈ map fst l.
Proof.
  intros H. destruct (list_to_map l !! k) as [v |] eqn:Hl; [| contradiction].
  apply elem_of_list_to_map_2 in Hl.
  apply list_elem_of_fmap. exists (k, v). split; [reflexivity | exact Hl].
Qed.

(** X17.  OAuth is offered for github, notion, figma, slack, linear and
    jira.  For a service that is none of these six and no name of a member
    inherited from [Object.prototype] (such as [constructor]), raycast among
    them, the [oauth] action opens nothing and answers with the error
    response [Unsupported OAuth service: <service>]. *)
Theorem oauth_unsupported_service_opens_nothing
  (args : Args) (service : string) (env : Oracle) :
  arg args "action" = JStr "oauth" ->
  arg args "service" = JStr service ->
  service <> "" ->
  includes ["github"; "notion"; "figma"; "slack"; "linear"; "jira"] service = false ->
  includes object_prototype_keys service = false ->
  run (callTool (request_of "raycast_auth" args)) env [] =
  (Returned (error_response
               ("❌ Auth action failed: Unsupported OAuth service: " +:+ service)), []).
Proof.
  intros Ha Hs Hne Hk Hp.
  pose proof (js_get_missing RaycastAuth.oauthUrls _ service
                (table_keys _) Hk Hp) as Hm.
  unfold request_of. rewrite callTool_auth.
  unfold handleAuthTool. prog_cbn. rewrite Ha, Hs. cbn [truthy].
  apply String.eqb_neq in Hne. rewrite Hne. cbn [negb].
  repeat (case_decide; [discriminate |]). case_decide; [| done].
  cbn [Server.initiateOAuth RaycastAuth.service].
  unfold RaycastAuth.initiateOAuth. cbn [toStr]. rewrite Hm. reflexivity.
Qed.

(** X18.  Setup instructions exist for raycast, github, notion, figma and
    slack.  For a service that is none of these five and no name of a member
    inherited from [Object.prototype] (such as [toString]), linear and jira
    among them, the [setup] action answers, without [isError], that no
    instructions are available for it. *)
Theorem setup_without_instructions
  (args : Args) (service : string) (env : Oracle) :
  arg args "action" = JStr "setup" ->
  arg args "service" = JStr service ->
  service <> "" ->
  includes ["raycast"; "github"; "notion"; "figma"; "slack"] service = false ->
  includes object_prototype_keys service = false ->
  run (callTool (request_of "raycast_auth" args)) env [] =
  (Returned (text_response ("Setup instructions not available for " +:+ service)), []).
Proof.
  intros Ha Hs Hne Hk Hp.
  pose proof (js_get_missing RaycastAuth.instructions _ service
                (table_keys _) Hk Hp) as Hm.
  unfold request_of. rewrite callTool_auth.
  unfold handleAuthTool. prog_cbn. rewrite Ha, Hs. cbn [truthy].
  apply String.eqb_neq in Hne. rewrite Hne. cbn [negb].
  case_decide; [| done].
  cbn [Server.getSetupInstructions RaycastAuth.service].
  unfold RaycastAuth.getSetupInstructions. cbn [toStr]. rewrite Hm. reflexivity.
Qed.

End WithCollaborators.

Lemma validation_exists_for_three_services_only_witness :
  exists reason,
    run (RaycastAuth.validateCredentials parse_fails print_plain no_member
           github_and_slack (JStr "slack")) silent [] =
    (Returned (RaycastAuth.invalid reason), []).
Proof.
  apply (validation_exists_for_three_services_only parse_fails print_plain no_member
           github_and_slack (JStr "slack") silent).
  reflexivity.
Defined.

Lemma validation_accepts_any_json_reply_witness :
  let reply := JsonObj [("message", JsonStr "Bad credentials")] in
  let p := RaycastAuth.validateCredentials (parse_as reply) print_plain no_member
             github_and_slack (JStr "github") in
  let request := FetchCall "https://api.github.com/user"
                   [("Authorization", "token ghp_one")] in
  calls p silent = [request] /\
  (forall body err v,
      silent [] request = Resolved body err ->
      parse_as reply body = inr v ->
      result p silent = Returned (RaycastAuth.validUser print_plain v) /\
      valid (RaycastAuth.validUser print_plain v) = true) /\
  (forall body err e,
      silent [] request = Resolved body err ->
      parse_as reply body = inl e ->
      result p silent = Returned (RaycastAuth.invalid (message e))) /\
  (forall e,
      silent [] request = Rejected e ->
      result p silent = Returned (RaycastAuth.invalid (message e))).
Proof.
  apply (validation_accepts_any_json_reply
           (parse_as (JsonObj [("message", JsonStr "Bad credentials")]))
           print_plain no_member github_and_slack
           "github" "ghp_one" "https://api.github.com/user"
           [("Authorization", "token ghp_one")] silent).
  - vm_compute. reflexivity.
  - reflexivity.
  - discriminate.
Defined.

Lemma validate_is_never_an_error_response_witness :
  exists t,
    result (sample_server no_credentials
              (request_of "raycast_auth"
                 {[ "action" := JStr "validate"; "service" := JStr "github" ]}))
           silent =
    Returned (text_response t).
Proof.
  apply (validate_is_never_an_error_response parse_fails print_plain no_member
           no_create no_credentials _ "github" silent).
  - vm_compute. reflexivity.
  - vm_compute. reflexivity.
  - discriminate.
Defined.

Lemma oauth_unsupported_service_witness :
  run (sample_server no_credentials
         (request_of "raycast_auth"
            {[ "action" := JStr "oauth"; "service" := JStr "raycast" ]}))
      silent [] =
  (Returned (error_response
               ("❌ Auth action failed: Unsupported OAuth service: " +:+ "raycast")), []).
Proof.
  apply (oauth_unsupported_service_opens_nothing parse_fails print_plain no_member
           no_create no_credentials _ "raycast" silent).
  - vm_compute. reflexivity.
  - vm_compute. reflexivity.
  - discriminate.
  - reflexivity.
  - reflexivity.
Defined.

Lemma setup_without_instructions_witness :
  run (sample_server no_credentials
         (request_of "raycast_auth"
            {[ "action" := JStr "setup"; "service" := JStr "linear" ]}))
      silent [] =
  (Returned (text_response ("Setup instructions not available for " +:+ "linear")), []).
Proof.
  apply (setup_without_instructions parse_fails print_plain no_member
           no_create no_credentials _ "linear" silent).
  - vm_compute. reflexivity.
  - vm_compute. reflexivity.
  - discriminate.
  - reflexivity.
  - reflexivity.
Defined.

(** ** The tools of index.ts *)

Lemma result_try_catch_ret {A : Type} (p : Prog A) (h : JsError -> Prog A) env :
  (forall e, exists a, h e = Ret a) ->
  exists a, result (try_catch p h) env = Returned a.
Proof.
  intros H. destruct (run_try_catch_ret p h env [] H) as (a & tr & Hr).
  exists a. unfold result. rewrite Hr. reflexivity.
Qed.

Lemma filter_nil_forallb {A : Type} (f : A -> bool) (l : list A) :
  List.filter (fun x => negb (f x)) l = [] <-> forallb f l = true.
Proof.
  induction l as [| a l IH]; cbn; [tauto |].
  destruct (f a); cbn; [exact IH |]. split; discriminate.
Qed.

Section WithCollaboratorsTools.

Variable JSON_parse : string -> JsError + Json.
Variable JSON_stringify : Json -> string.
Variable call_inherited : string -> Prog Json.
Variable createWorkflow : JsValue -> JsValue -> JsValue -> Prog ToolResponse.
Variable config : Auth.AuthConfig.

Let callTool :=
  ServerTools.callTool JSON_parse JSON_stringify call_inherited createWorkflow config.

Let to_auth := callTool_auth JSON_parse JSON_stringify call_inherited createWorkflow config.
Let to_extensions :=
  callTool_extensions JSON_parse JSON_stringify call_inherited createWorkflow config.
Let to_workflows :=
  callTool_workflows JSON_parse JSON_stringify call_inherited createWorkflow config.

(** X19.  A request to raycast_auth, raycast_extensions or raycast_workflows
    that has no [arguments] is not answered: the failed destructuring is
    outside of every [try] block, and the exception leaves the request
    handler, no invocation having been made. *)
Theorem callTool_without_arguments_throws (tool : string) (env : Oracle) :
  includes index_tools tool = true ->
  exists e, run (callTool {| name := tool; arguments := None |}) env [] = (Thrown e, []).
Proof.
  intros H. apply includes_true in H. unfold index_tools in H.
  repeat (apply elem_of_cons in H as [-> | H]);
    [ .. | apply elem_of_nil in H; contradiction ].
  - rewrite to_auth. eexists. reflexivity.
  - rewrite to_extensions. eexists. reflexivity.
  - rewrite to_workflows. eexists. reflexivity.
Qed.

(** X20.  A request that has an [arguments] object is always answered with
    a response, whatever the tool, the arguments and the environment: no
    exception leaves the request handler. *)
Theorem callTool_with_arguments_answers
  (tool : string) (args : Args) (env : Oracle) :
  exists r, result (callTool (request_of tool args)) env = Returned r.
Proof.
  unfold request_of.
  destruct (decide (tool = "raycast_auth")) as [-> | H1];
    [| destruct (decide (tool = "raycast_extensions")) as [-> | H2];
       [| destruct (decide (tool = "raycast_workflows")) as [-> | H3]]].
  - rewrite to_auth. unfold handleAuthTool. prog_cbn.
    apply result_try_catch_ret. intros e. eexists. reflexivity.
  - rewrite to_extensions. unfold ServerTools.handleExtensionsTool. prog_cbn.
    apply result_try_catch_ret. intros e. eexists. reflexivity.
  - rewrite to_workflows. unfold ServerTools.handleWorkflowsTool. prog_cbn.
    apply result_try_catch_ret. intros e. eexists. reflexivity.
  - subst callTool. unfold ServerTools.callTool, dispatch. cbn [name arguments].
    repeat (case_decide; [contradiction |]).
    pose proof (leaves_run _ _ _ env []
                  (leaves_handleToolCall {| name := tool; arguments := Some args |})) as Hl.
    unfold result. destruct (fst (run _ env [])) as [r | e]; [| contradiction].
    exists r. reflexivity.
Qed.

(** X21.  Each check of a field in index.ts comes before every invocation:
    the auth actions setup, validate and oauth without [service], the
    extension actions search without [query], install without
    [extension_id] and publish without [publish_path], and the workflow
    actions create without [name] or [steps] and execute without [name] are
    answered with an error response, and nothing is run. *)
Theorem index_checks_come_first (tool : string) (args : Args) (env : Oracle) :
  missing_required tool args = true ->
  calls (callTool (request_of tool args)) env = [] /\
  exists t, result (callTool (request_of tool args)) env = Returned (error_response t).
Proof.
  unfold missing_required, request_of, calls, result. intros H.
  destruct (String.eqb_spec tool "raycast_auth") as [-> | _];
    [| destruct (String.eqb_spec tool "raycast_extensions") as [-> | _];
       [| destruct (String.eqb_spec tool "raycast_workflows") as [-> | _];
          [| discriminate]]].
  - rewrite to_auth. unfold handleAuthTool. prog_cbn.
    apply andb_true_iff in H as [Ha Hs]. apply bool_decide_eq_true in Ha.
    rewrite Hs.
    repeat (apply elem_of_cons in Ha as [-> | Ha]);
      [ .. | apply elem_of_nil in Ha; contradiction ];
      repeat (case_decide; [discriminate |]); (case_decide; [| done]);
      (split; [reflexivity | eexists; reflexivity]).
  - rewrite to_extensions. unfold ServerTools.handleExtensionsTool. prog_cbn.
    rewrite !orb_true_iff, !andb_true_iff in H.
    destruct H as [[[Ha Hf] | [Ha Hf]] | [Ha Hf]];
      apply bool_decide_eq_true in Ha; rewrite Ha, Hf;
      repeat (case_decide; [discriminate |]); (case_decide; [| done]);
      (split; [reflexivity | eexists; reflexivity]).
  - rewrite to_workflows. unfold ServerTools.handleWorkflowsTool. prog_cbn.
    rewrite !orb_true_iff, !andb_true_iff in H.
    destruct H as [[Ha Hf] | [Ha Hf]];
      apply bool_decide_eq_true in Ha; rewrite Ha;
      repeat (case_decide; [discriminate |]); (case_decide; [| done]).
    + rewrite orb_true_iff in Hf.
      destruct (negb (truthy (arg args "name")) || negb (truthy (arg args "steps")))
        eqn:Hb.
      * split; [reflexivity | eexists; reflexivity].
      * apply orb_false_iff in Hb as [Hb1 Hb2]. destruct Hf; congruence.
    + rewrite Hf. split; [reflexivity | eexists; reflexivity].
Qed.

(** X22.  An action that the [switch] of a tool of index.ts has no case for
    is answered with the error response [Unknown <kind> action: <action>],
    and nothing is run.  This is so for the actions [uninstall], [edit] and
    [delete], which the schemas of the tools offer. *)
Theorem index_unknown_action_is_an_error
  (tool action : string) (args : Args) (env : Oracle) :
  includes index_tools tool = true ->
  arg args "action" = JStr action ->
  includes (implemented tool) action = false ->
  run (callTool (request_of tool args)) env [] =
  (Returned (error_response ("❌ Unknown " +:+ action_kind tool +:+ " action: " +:+ action)),
   []).
Proof.
  intros Ht Ha Hi. unfold request_of.
  apply includes_true in Ht. unfold index_tools in Ht.
  repeat (apply elem_of_cons in Ht as [-> | Ht]);
    [ .. | apply elem_of_nil in Ht; contradiction ];
    cbn in Hi; repeat (apply includes_false_cons in Hi; destruct Hi as [? Hi]).
  - rewrite to_auth. unfold handleAuthTool. prog_cbn. rewrite Ha.
    repeat (case_decide; [congruence |]). reflexivity.
  - rewrite to_extensions. unfold ServerTools.handleExtensionsTool. prog_cbn. rewrite Ha.
    repeat (case_decide; [congruence |]). reflexivity.
  - rewrite to_workflows. unfold ServerTools.handleWorkflowsTool. prog_cbn. rewrite Ha.
    repeat (case_decide; [congruence |]). reflexivity.
Qed.

(** *** Publishing an extension *)

(** X23.  The [publish] action makes one invocation, in every environment:
    the command line [cat "<publish_path>/package.json"], with the path put
    between the quotes as it is.  Where what that prints parses to a JSON
    object: if one of name, title, description, author and license is truthy
    neither in the object nor in its [raycast] section, the answer is an
    error response that lists those fields, in that order; otherwise it is
    the publishing guide, without [isError], or, where a value the guide is
    to print has no conversion to a string, the error response of the
    validation. *)
Theorem publish_checks_the_manifest (args : Args) (env : Oracle) :
  arg args "action" = JStr "publish" ->
  truthy (arg args "publish_path") = true ->
  let p := callTool (request_of "raycast_extensions" args) in
  let path := toStr (arg args "publish_path") in
  let cat := exec ("cat " +:+ DQ +:+ (path +:+ "/package.json") +:+ DQ) in
  calls p env = [cat] /\
  (forall out err fields,
      env [] cat = Resolved out err ->
      JSON_parse out = inr (JsonObj fields) ->
      let packageJson := JsonObj fields in
      let guide := ServerTools.publishGuide packageJson (arg args "publish_path") in
      (forallb (manifest_has packageJson) ServerTools.requiredFields = false ->
       result p env =
       Returned (error_response
                   (ServerTools.missingMessage
                      (List.filter (fun f => negb (manifest_has packageJson f))
                                   ServerTools.requiredFields)))) /\
      (forallb (manifest_has packageJson) ServerTools.requiredFields = true ->
       (forall text, guide = Ret text ->
                     result p env = Returned (text_response text)) /\
       (forall e, guide = Throw e ->
                  result p env =
                  Returned (error_response
                              ("❌ Extension validation failed: " +:+ message e +:+
                               NL +:+ NL +:+
                               "Ensure the path contains a valid Raycast extension with package.json"))))).
Proof.
  intros Ha Hp p path cat. subst p path cat. unfold request_of, calls, result.
  rewrite to_extensions. unfold ServerTools.handleExtensionsTool. prog_cbn.
  rewrite Ha, Hp.
  repeat (case_decide; [discriminate |]). case_decide; [| done].
  cbn [negb]. unfold ServerTools.publish, ServerTools.catCommand. prog_cbn.
  unfold exec.
  destruct (env [] _) as [out err | e] eqn:Henv; prog_cbn.
  - destruct (JSON_parse out) as [e | packageJson] eqn:Hparse; prog_cbn.
    + split; [reflexivity |]. intros ? ? ? [= <- <-] Hq. congruence.
    + destruct packageJson as [| b | m e | s | items | fields];
        try (split; [reflexivity | intros ? ? ? [= <- <-] Hq; congruence]).
      unfold json_prop. prog_cbn.
      assert (Hm : ServerTools.missingFields (JsonObj fields)
                     (ServerTools.raycastConfigOf (json_field (JsonObj fields) "raycast")) =
                   List.filter (fun f => negb (manifest_has (JsonObj fields) f))
                               ServerTools.requiredFields).
      { unfold ServerTools.missingFields, manifest_has.
        apply filter_ext. intros f. rewrite negb_orb. reflexivity. }
      rewrite Hm.
      destruct (forallb (manifest_has (JsonObj fields)) ServerTools.requiredFields) eqn:Hall.
      * pose proof (proj2 (filter_nil_forallb _ _) Hall) as Hnil. rewrite Hnil.
        cbn [length Nat.ltb Nat.leb].
        destruct (ServerTools.publishGuide (JsonObj fields) (arg args "publish_path"))
          as [text | e | c k] eqn:Hg; prog_cbn.
        -- split; [reflexivity |].
           intros ? ? ? [= <- <-] Hq. rewrite Hparse in Hq. injection Hq as <-.
           cbn zeta. rewrite Hall, Hg. split; [discriminate |]. intros _. split.
           ++ intros ? [= <-]. reflexivity.
           ++ intros ? [=].
        -- split; [reflexivity |].
           intros ? ? ? [= <- <-] Hq. rewrite Hparse in Hq. injection Hq as <-.
           cbn zeta. rewrite Hall, Hg. split; [discriminate |]. intros _. split.
           ++ intros ? [=].
           ++ intros ? [= <-]. reflexivity.
        -- exfalso. revert Hg. unfold ServerTools.publishGuide, printed.
           repeat (match goal with
                   | |- context [match ?o with Some _ => _ | None => _ end] =>
                     destruct o
                   end; cbn [mbind Prog_bind bind mret Prog_ret]);
             discriminate.
      * destruct (List.filter _ ServerTools.requiredFields) as [| f0 fs] eqn:Hf.
        { apply filter_nil_forallb in Hf. congruence. }
        cbn [length Nat.ltb Nat.leb]. prog_cbn.
        split; [reflexivity |].
        intros ? ? ? [= <- <-] Hq. rewrite Hparse in Hq. injection Hq as <-.
        cbn zeta. rewrite Hall, Hf. split; [reflexivity | discriminate].
  - split; [reflexivity |]. intros ? ? ? [=].
Qed.

(** *** Predefined workflows *)

(** X24.  The predefined workflow [empty-trash] runs the very command that
    [raycast_system] asks a confirmation for, and runs it at once: in every
    environment, and whatever else the arguments hold, its one invocation
    is that command and no dialog comes before it. *)
Theorem workflow_empties_trash_unconfirmed (args : Args) (env : Oracle) :
  arg args "action" = JStr "execute" ->
  arg args "name" = JStr "empty-trash" ->
  let p := callTool (request_of "raycast_workflows" args) in
  calls p env = [exec ServerTools.emptyTrashCommand] /\
  systemCommands !! "empty-trash" = Some ServerTools.emptyTrashCommand /\
  includes destructive "empty-trash" = true.
Proof.
  intros Ha Hn p. subst p. unfold request_of, calls.
  rewrite to_workflows. unfold ServerTools.handleWorkflowsTool. prog_cbn.
  rewrite Ha, Hn. repeat (case_decide; [discriminate |]). case_decide; [| done].
  cbn [truthy negb toStr].
  change (String.eqb "empty-trash" EmptyString) with false. cbn [negb].
  unfold js_get_of, ServerTools.predefinedWorkflows. simpl list_to_map.
  rewrite lookup_insert_ne by discriminate. rewrite lookup_insert_eq.
  prog_cbn. unfold exec.
  destruct (env [] _) as [so se | e]; prog_cbn;
    (split; [reflexivity | split; reflexivity]).
Qed.

(** X25.  The workflow [github-status] makes no network request without a
    GitHub credential: it is answered with the error response
    [GitHub credentials not configured]. *)
Theorem workflow_github_status_needs_credentials (args : Args) (env : Oracle) :
  arg args "action" = JStr "execute" ->
  arg args "name" = JStr "github-status" ->
  Auth.hasCredentials config "github" = false ->
  run (callTool (request_of "raycast_workflows" args)) env [] =
  (Returned (error_response
               "❌ Workflow action failed: GitHub credentials not configured"), []).
Proof.
  intros Ha Hn Hc. unfold request_of.
  rewrite to_workflows. unfold ServerTools.handleWorkflowsTool. prog_cbn.
  rewrite Ha, Hn. repeat (case_decide; [discriminate |]). case_decide; [| done].
  cbn [truthy negb toStr].
  change (String.eqb "github-status" EmptyString) with false. cbn [negb].
  unfold js_get_of, ServerTools.predefinedWorkflows. simpl list_to_map.
  rewrite !lookup_insert_ne by discriminate. rewrite lookup_insert_eq.
  unfold ServerTools.githubStatus. rewrite Hc. reflexivity.
Qed.

End WithCollaboratorsTools.

Lemma callTool_without_arguments_throws_witness :
  exists e,
    run (sample_server no_credentials {| name := "raycast_workflows"; arguments := None |})
        silent [] = (Thrown e, []).
Proof.
  apply (callTool_without_arguments_throws parse_fails print_plain no_member no_create
           no_credentials "raycast_workflows" silent).
  reflexivity.
Defined.

Lemma index_checks_come_first_witness :
  let args : Args := {[ "action" := JStr "install" ]} in
  calls (sample_server no_credentials (request_of "raycast_extensions" args)) silent = [] /\
  exists t,
    result (sample_server no_credentials (request_of "raycast_extensions" args)) silent =
    Returned (error_response t).
Proof.
  apply (index_checks_come_first parse_fails print_plain no_member no_create
           no_credentials "raycast_extensions" {[ "action" := JStr "install" ]} silent).
  vm_compute. reflexivity.
Defined.

Lemma index_unknown_action_witness :
  run (sample_server no_credentials
         (request_of "raycast_extensions"
            {[ "action" := JStr "uninstall"; "extension_id" := JStr "notes" ]}))
      silent [] =
  (Returned (error_response ("❌ Unknown " +:+ action_kind "raycast_extensions" +:+
                             " action: " +:+ "uninstall")), []).
Proof.
  apply (index_unknown_action_is_an_error parse_fails print_plain no_member no_create
           no_credentials "raycast_extensions" "uninstall" _ silent).
  - reflexivity.
  - vm_compute. reflexivity.
  - reflexivity.
Defined.

Lemma publish_checks_the_manifest_witness :
  let manifest := JsonObj [("name", JsonStr "notes"); ("title", JsonStr "Notes");
                           ("raycast", JsonObj [("author", JsonStr "me")])] in
  let args : Args := {[ "action" := JStr "publish"; "publish_path" := JStr "/ext" ]} in
  let p := ServerTools.callTool (parse_as manifest) print_plain no_member no_create
             no_credentials (request_of "raycast_extensions" args) in
  let path := toStr (arg args "publish_path") in
  let cat := exec ("cat " +:+ DQ +:+ (path +:+ "/package.json") +:+ DQ) in
  calls p silent = [cat] /\
  (forall out err fields,
      silent [] cat = Resolved out err ->
      parse_as manifest out = inr (JsonObj fields) ->
      let packageJson := JsonObj fields in
      let guide := ServerTools.publishGuide packageJson (arg args "publish_path") in
      (forallb (manifest_has packageJson) ServerTools.requiredFields = false ->
       result p silent =
       Returned (error_response
                   (ServerTools.missingMessage
                      (List.filter (fun f => negb (manifest_has packageJson f))
                                   ServerTools.requiredFields)))) /\
      (forallb (manifest_has packageJson) ServerTools.requiredFields = true ->
       (forall text, guide = Ret text ->
                     result p silent = Returned (text_response text)) /\
       (forall e, guide = Throw e ->
                  result p silent =
                  Returned (error_response
                              ("❌ Extension validation failed: " +:+ message e +:+
                               NL +:+ NL +:+
                               "Ensure the path contains a valid Raycast extension with package.json"))))).
Proof.
  apply (publish_checks_the_manifest
           (parse_as (JsonObj [("name", JsonStr "notes"); ("title", JsonStr "Notes");
                               ("raycast", JsonObj [("author", JsonStr "me")])]))
           print_plain no_member no_create no_credentials
           {[ "action" := JStr "publish"; "publish_path" := JStr "/ext" ]} silent).
  - vm_compute. reflexivity.
  - vm_compute. reflexivity.
Defined.

Example publish_reports_missing_fields :
  let manifest := JsonObj [("name", JsonStr "notes"); ("title", JsonStr "Notes");
                           ("raycast", JsonObj [("author", JsonStr "me")])] in
  result (ServerTools.callTool (parse_as manifest) print_plain no_member no_create
            no_credentials
            (request_of "raycast_extensions"
               {[ "action" := JStr "publish"; "publish_path" := JStr "/ext" ]}))
         silent =
  Returned (error_response
              ("❌ Extension validation failed. Missing required fields:" +:+ NL +:+ NL +:+
               "• description" +:+ NL +:+ "• license" +:+ NL +:+ NL +:+
               "📚 See: https://developers.raycast.com/extension-manifest")).
Proof. vm_compute. reflexivity. Qed.

Lemma workflow_empties_trash_unconfirmed_witness :
  let args : Args := {[ "action" := JStr "execute"; "name" := JStr "empty-trash";
                        "confirm" := JBool true ]} in
  let p := sample_server no_credentials (request_of "raycast_workflows" args) in
  calls p silent = [exec ServerTools.emptyTrashCommand] /\
  systemCommands !! "empty-trash" = Some ServerTools.emptyTrashCommand /\
  includes destructive "empty-trash" = true.
Proof.
  apply (workflow_empties_trash_unconfirmed parse_fails print_plain no_member no_create
           no_credentials
           {[ "action" := JStr "execute"; "name" := JStr "empty-trash";
              "confirm" := JBool true ]} silent).
  - vm_compute. reflexivity.
  - vm_compute. reflexivity.
Defined.

Lemma workflow_github_status_witness :
  run (sample_server no_credentials
         (request_of "raycast_workflows"
            {[ "action" := JStr "execute"; "name" := JStr "github-status" ]}))
      silent [] =
  (Returned (error_response
               "❌ Workflow action failed: GitHub credentials not configured"), []).
Proof.
  apply (workflow_github_status_needs_credentials parse_fails print_plain no_member
           no_create no_credentials _ silent).
  - vm_compute. reflexivity.
  - vm_compute. reflexivity.
  - reflexivity.
Defined.
